(** * GM actuator controller and radar fusion: a shallow embedding

    The development follows two Python sources:
    - [selfdrive/car/gm/carcontroller.py]  (class [CarController]),
    - [selfdrive/controls/radard.py]       (lead matching, [LongRangeLead],
      [RadarD]).

    Conventions of the embedding.
    - Python [float]s are idealised as exact rationals ([Q]); Python [int]s
      are [Z].  Rounding to nearest-even ([round]) and truncation ([int]) are
      written out.
    - A Python exception (IndexError, ZeroDivisionError, AttributeError on
      [None]) is the value [None] of the option monad; a function that can
      raise returns [option].
    - Objects mutated in place are threaded explicitly: [update] takes the
      controller object and returns the new one.
    - Code that the two sources import but that is not part of them (the PID
      controller, the torque limiter, CAN packing, the track and cluster
      classes, the clustering primitive) is taken as a parameter. *)

From Stdlib Require Import ZArith QArith Qround Qabs Lia Lqa.
From stdpp Require Import base option list gmap strings sorting.

(* [set_solver] clears some hypotheses twice. *)
#[local] Set Warnings "-clear-no-such-hyp".

Local Open Scope Q_scope.

(** ** Python arithmetic on the idealised numbers *)

Module Py.

(** [a / b] on floats raises ZeroDivisionError when [b == 0]. *)
Definition div (a b : Q) : option Q :=
  if Qeq_bool b 0 then None else Some (a / b).

(** [a % b] and [a // b] on ints raise on [b == 0]; otherwise they are the
    floor versions, which is what [Z.modulo] and [Z.div] compute. *)
Definition mod_ (a b : Z) : option Z :=
  if (b =? 0)%Z then None else Some (a mod b)%Z.

Definition leb (a b : Q) : bool := Qle_bool a b.
Definition ltb (a b : Q) : bool := negb (Qle_bool b a).
Definition gtb (a b : Q) : bool := ltb b a.
Definition geb (a b : Q) : bool := leb b a.
Definition neqb (a b : Q) : bool := negb (Qeq_bool a b).

(** [max(a, b)] keeps the first argument unless the second is larger;
    [min(a, b)] keeps the first unless the second is smaller. *)
Definition max (a b : Q) : Q := if ltb a b then b else a.
Definition min (a b : Q) : Q := if ltb b a then b else a.

(** [max(l)] of a list; raises ValueError on the empty list. *)
Definition max_list (l : list Q) : option Q :=
  match l with
  | [] => None
  | a :: l' => Some (fold_left max l' a)
  end.

Definition abs (a : Q) : Q := Qabs a.

(** [int(round(x))]: round to the nearest integer, ties to even. *)
Definition round (x : Q) : Z :=
  let f := Qfloor x in
  match Qcompare (x - inject_Z f) (1 # 2) with
  | Lt => f
  | Gt => (f + 1)%Z
  | Eq => if Z.even f then f else (f + 1)%Z
  end.

(** [int(x)] on a float: truncation towards zero. *)
Definition int (x : Q) : Z :=
  if ltb x 0 then Qceiling x else Qfloor x.

(** [l[i]] with Python's negative indices. *)
Definition index {A} (l : list A) (i : Z) : option A :=
  if (0 <=? i)%Z then l !! Z.to_nat i
  else if (- Z.of_nat (length l) <=? i)%Z
       then l !! Z.to_nat (Z.of_nat (length l) + i)
       else None.

(** Short-circuit [or] / [and] over operands whose evaluation can raise. *)
Definition orM (a b : option bool) : option bool :=
  match a with
  | Some true => Some true
  | Some false => b
  | None => None
  end.
Definition andM (a b : option bool) : option bool :=
  match a with
  | Some true => b
  | Some false => Some false
  | None => None
  end.

End Py.

(** ** [common.numpy_fast] *)

Module NumpyFast.

(** The scan [while hi < N and xv > xp[hi]: hi += 1], started at [hi]. *)
Fixpoint interp_hi (xv : Q) (xp : list Q) (hi : nat) : nat :=
  match xp with
  | [] => hi
  | p :: xp' => if Py.gtb xv p then interp_hi xv xp' (S hi) else hi
  end.

(** Modelled from the spec: [common.numpy_fast.interp] is imported by both
    sources but is not among them; the spec describes it as
    "standard piecewise-linear with edge clamping".  Below the first
    breakpoint the first value is returned, above the last breakpoint the
    last value, in between the line through the two neighbouring points.
    Reading a breakpoint or value that the tables do not have raises. *)
Definition interp (x : Q) (xp fp : list Q) : option Q :=
  let N := length xp in
  let hi := interp_hi x xp 0 in
  if (hi =? N)%nat then _ ← last xp; last fp
  else if (hi =? 0)%nat then fp !! 0%nat
  else
    xl ← xp !! (hi - 1)%nat; xh ← xp !! hi;
    fl ← fp !! (hi - 1)%nat; fh ← fp !! hi;
    Some ((x - xl) * (fh - fl) / (xh - xl) + fl).

(** Modelled from the spec: [common.numpy_fast.clip] is not among the
    sources; the spec calls it "clamp": [x] limited to [[lo, hi]]. *)
Definition clip (x lo hi : Q) : Q := Py.max lo (Py.min hi x).

End NumpyFast.

(** ** [selfdrive/car/gm/carcontroller.py] *)

Module GM.
Import NumpyFast.

(** *** Data *)

(** [CarControllerParams] ([P], i.e. [self.params]) is declared in
    [selfdrive.car.gm.values], which is not among the sources; the fields
    are the ones [update] reads, and [v_ego], which it writes. *)
Record CarControllerParams := mkParams {
  STEER_STEP : Z;
  STEER_MAX : Q;
  MIN_STEER_SPEED : Q;
  MAX_ACC_REGEN : Z;
  ZERO_GAS : Z;
  NEAR_STOP_BRAKE_PHASE : Q;
  ADAS_KEEPALIVE_STEP : Z;
  CAMERA_KEEPALIVE_STEP : Z;
  GAS_LOOKUP_BP : list Q;
  GAS_LOOKUP_V : list Z;
  BRAKE_LOOKUP_BP : list Q;
  BRAKE_LOOKUP_V : list Z;
  v_ego : Q
}.

Definition set_v_ego (P : CarControllerParams) (v : Q) : CarControllerParams :=
  mkParams (STEER_STEP P) (STEER_MAX P) (MIN_STEER_SPEED P) (MAX_ACC_REGEN P)
           (ZERO_GAS P) (NEAR_STOP_BRAKE_PHASE P) (ADAS_KEEPALIVE_STEP P)
           (CAMERA_KEEPALIVE_STEP P) (GAS_LOOKUP_BP P) (GAS_LOOKUP_V P)
           (BRAKE_LOOKUP_BP P) (BRAKE_LOOKUP_V P) v.

(** [P] with other breakpoint tables. *)
Definition set_lookup_bp (P : CarControllerParams) (gas_bp brake_bp : list Q)
  : CarControllerParams :=
  mkParams (STEER_STEP P) (STEER_MAX P) (MIN_STEER_SPEED P) (MAX_ACC_REGEN P)
           (ZERO_GAS P) (NEAR_STOP_BRAKE_PHASE P) (ADAS_KEEPALIVE_STEP P)
           (CAMERA_KEEPALIVE_STEP P) gas_bp (GAS_LOOKUP_V P)
           brake_bp (BRAKE_LOOKUP_V P) (v_ego P).

(** The value tables hold ints; [interp] computes on them as floats. *)
Definition GAS_V (P : CarControllerParams) : list Q := inject_Z <$> GAS_LOOKUP_V P.
Definition BRAKE_V (P : CarControllerParams) : list Q := inject_Z <$> BRAKE_LOOKUP_V P.

(** [actuators] as supplied by the planner. *)
Record Actuators := mkActuators {
  steer : Q;
  accel : Q;
  accelPitchCompensated : Q
}.

Inductive VisualAlert := VA_none | VA_fcw | VA_steerRequired | VA_ldw | VA_other.

Definition VisualAlert_eqb (a b : VisualAlert) : bool :=
  match a, b with
  | VA_none, VA_none | VA_fcw, VA_fcw | VA_steerRequired, VA_steerRequired
  | VA_ldw, VA_ldw | VA_other, VA_other => true
  | _, _ => false
  end.

(** The fields of [CS] that [update] reads.  [CS.out.f] is written [out_f];
    [vEgo] and [out_vEgo] are different attributes in the source. *)
Record CarState := mkCarState {
  lka_steering_cmd_counter : Z;
  pause_long_on_gas_press : bool;
  lkMode : bool;
  out_steerWarning : bool;
  out_steerError : bool;
  out_vEgo : Q;
  out_aEgo : Q;
  out_steeringTorque : Q;
  out_cruiseState_enabled : bool;
  out_gasPressed : bool;
  out_gearShifter : string;
  out_brake : Q;
  lane_change_steer_factor : Q;
  vEgo : Q;
  engineRPM : Q;
  pitch : Q;
  angle_steers : Q;
  gear_shifter_ev : Z;
  one_pedal_mode_active : bool;
  coast_one_pedal_mode_active : bool;
  one_pedal_mode_op_braking_allowed : bool;
  one_pedal_dl_coasting_enabled : bool;
  one_pedal_brake_mode : Z;
  one_pedal_angle_steers_cutoff_bp : list Q;
  coasting_lead_d : Q;
  coasting_lead_v : Q;
  tr : Q;
  lead_v_rel_long_gas_lockout_bp : list Q;
  lead_v_rel_long_gas_lockout_v : list Q;
  lead_v_long_gas_lockout_bp : list Q;
  lead_v_long_gas_lockout_v : list Q;
  lead_ttc_long_gas_lockout_bp : list Q;
  lead_ttc_long_gas_lockout_v : list Q;
  lead_tr_long_gas_lockout_bp : list Q;
  lead_tr_long_gas_lockout_v : list Q;
  lead_d_long_gas_lockout_bp : list Q;
  lead_d_long_gas_lockout_v : list Q;
  lead_v_rel_long_brake_lockout_bp : list Q;
  lead_v_rel_long_brake_lockout_v : list Q;
  lead_v_long_brake_lockout_bp : list Q;
  lead_v_long_brake_lockout_v : list Q;
  lead_ttc_long_brake_lockout_bp : list Q;
  lead_ttc_long_brake_lockout_v : list Q;
  lead_tr_long_brake_lockout_bp : list Q;
  lead_tr_long_brake_lockout_v : list Q;
  lead_d_long_brake_lockout_bp : list Q;
  lead_d_long_brake_lockout_v : list Q;
  coasting_enabled : bool;
  coasting_long_plan : string;
  coasting_brake_over_speed_enabled : bool;
  coasting_over_speed_vEgo_BP_BP : list Q;
  coasting_over_speed_vEgo_BP : list (list Q);
  coasting_over_speed_regen_vEgo_BP : list (list Q);
  speed_limit : Q;
  speed_limit_active : bool;
  v_cruise_kph : Q;
  no_friction_braking : bool;
  showBrakeIndicator : bool;
  hvb_wattage : Q;
  hvb_wattage_bp : list Q;
  is_ev : bool;
  cruiseMain : bool;
  autoHold : bool;
  autoHoldActive : bool;
  regenPaddlePressed : bool;
  pcm_acc_status : Z;
  do_sng : bool;
  follow_level : Z;
  lkas_status : Z
}.

(** The attributes of [CS] that [update] assigns ([resume_button_pressed]
    is also read back).  They are threaded through [update]. *)
Record CarStateW := mkCarStateW {
  one_pedal_mode_active_last : bool;
  coast_one_pedal_mode_active_last : bool;
  brake_cmd : Z;
  apply_brake_percent : Q;
  autoHoldActivated : bool;
  resume_button_pressed : bool;
  resume_required : bool
}.

(** What the sources import and this development takes as given:
    the PID controller class, the torque limiter of [selfdrive.car], the
    threshold method of [CarControllerParams], and constants of
    [common.realtime], [selfdrive.config], [vehicle_model],
    [longitudinal_planner] and [values]. *)
Class Collaborators (PIDController : Type) := {
  (** [pid.reset()] *)
  pid_reset : PIDController -> PIDController;
  (** [pid.update(setpoint, measurement, speed=, feedforward=)] *)
  pid_update : PIDController -> Q -> Q -> Q -> Q -> Q * PIDController;
  (** [apply_std_steer_torque_limits(new_steer, last, driver_torque, P)] *)
  apply_std_steer_torque_limits : Z -> Z -> Q -> CarControllerParams -> Z;
  (** [P.update_gas_brake_threshold(v, engine_on)]: the returned threshold
      and [P] after the call.  The method is not among the sources.
      [update] calls it on [self.params], drops the returned value on the
      one-pedal path, and reads [P.GAS_LOOKUP_BP] and [P.BRAKE_LOOKUP_BP]
      right after the call (lines 120-127): the call acts on [P]. *)
  update_gas_brake_threshold : CarControllerParams -> Q -> bool -> Q * CarControllerParams;
  (** Modelled from the spec: [P] is immutable per vehicle.  The source
      shows where it is not: [P.v_ego] is assigned at line 94, and the
      breakpoint tables are read right after the call above.  The rest of
      the spec's statement is kept: the call leaves the constants, the
      value tables and [P.v_ego] as they are, so [P] after the call is [P]
      with, at most, other breakpoint tables. *)
  threshold_keeps_constants :
    forall P v engine_on,
      let P' := snd (update_gas_brake_threshold P v engine_on) in
      P' = set_lookup_bp P (GAS_LOOKUP_BP P') (BRAKE_LOOKUP_BP P');
  DT_CTRL : Q;
  MPH_TO_MS : Q;
  KPH_TO_MS : Q;
  MS_TO_KPH : Q;
  ACCELERATION_DUE_TO_GRAVITY : Q;
  COAST_SOURCES : list string;
  AccState_STANDSTILL : Z
}.

Inductive CanBus := POWERTRAIN | OBSTACLE | CHASSIS | SW_GMLAN.
Inductive Packer := packer_pt | packer_obj | packer_ch.

(** One entry of [can_sends] per call to a [gmcan] builder, with the
    arguments of the call; packing into bytes is outside the sources. *)
Inductive CanSend :=
| create_steering_control (p : Packer) (bus : CanBus) (apply_steer idx : Z) (lkas_enabled : bool)
| create_friction_brake_command (p : Packer) (bus : CanBus) (apply_brake idx : Z)
                                (near_stop at_full_stop : bool)
| create_gas_regen_command (p : Packer) (bus : CanBus) (apply_gas idx : Z)
                           (acc_enabled at_full_stop : bool)
| create_acc_dashboard_command (p : Packer) (bus : CanBus) (enabled : bool) (v_cruise_kph : Q)
                               (hud_show_car : bool) (follow_level : Z)
                               (send_fcw resume_button_pressed : bool)
| create_adas_time_status (bus : CanBus) (tt : Z) (idx : Z)
| create_adas_headlights_status (p : Packer) (bus : CanBus)
| create_adas_steering_status (bus : CanBus) (idx : Z)
| create_adas_accelerometer_speed_status (bus : CanBus) (vEgo : Q) (idx : Z)
| create_adas_keepalive (bus : CanBus)
| create_lka_icon_command (bus : CanBus) (active critical steer_alert : bool).

Definition is_steering_control (f : CanSend) : bool :=
  match f with create_steering_control _ _ _ _ _ => true | _ => false end.
Definition is_friction_brake_command (f : CanSend) : bool :=
  match f with create_friction_brake_command _ _ _ _ _ _ => true | _ => false end.
Definition is_gas_regen_command (f : CanSend) : bool :=
  match f with create_gas_regen_command _ _ _ _ _ _ => true | _ => false end.

(** *** Module constants *)

Definition ACCEL_PITCH_FACTOR_BP : list Q := [5; 10].
Definition ACCEL_PITCH_FACTOR_V : list Q := [0; 1].
Definition ONE_PEDAL_ACCEL_PITCH_FACTOR_BP : list Q := [4; 8].
Definition ONE_PEDAL_ACCEL_PITCH_FACTOR_V : list Q := [0.4; 1].
Definition ONE_PEDAL_ACCEL_PITCH_FACTOR_INCLINE_V : list Q := [0.2; 1].
Definition ONE_PEDAL_MODE_DECEL_V : list (list Q) :=
  [ [-1.0; -1.1]; [-1.3; -1.7; -1.8]; [-1.7; -2.6; -2.4] ].
Definition ONE_PEDAL_MIN_SPEED : Q := 2.1.
Definition ONE_PEDAL_MAX_DECEL : Q := -3.5.
Definition ONE_PEDAL_SPEED_ERROR_FACTOR_BP : list Q := [1.5; 20].
Definition ONE_PEDAL_SPEED_ERROR_FACTOR_V : list Q := [0.4; 0.2].
Definition ONE_PEDAL_LEAD_ACCEL_RATE_LOCKOUT_T : Q := 0.6.

Section WithCollaborators.
Context {PIDController : Type} `{Co : Collaborators PIDController}.

Definition ONE_PEDAL_MODE_DECEL_BP : list (list Q) :=
  [ (fun i => i * MPH_TO_MS) <$> [0.5; 6];
    (fun i => i * MPH_TO_MS) <$> [4; 12; 30];
    (fun i => i * MPH_TO_MS) <$> [4; 16; 30] ].
Definition ONE_PEDAL_DECEL_RATE_LIMIT_UP : Q := 0.8 * DT_CTRL * 4.
Definition ONE_PEDAL_DECEL_RATE_LIMIT_DOWN : Q := 0.8 * DT_CTRL * 4.

(** The controller object ([self]). *)
Record CarController := mkCarController {
  start_time : Q;
  apply_steer_last : Z;
  lka_steering_cmd_counter_last : Z;
  lka_icon_status_last : bool * bool;
  steer_rate_limited : bool;
  fcw_count : Z;
  params : CarControllerParams;
  one_pedal_pid : PIDController;
  one_pedal_decel : Q;
  one_pedal_decel_in : Q;
  lead_accel_last_t : Q;
  apply_gas : Z;
  apply_brake : Z
}.

(** [CarController.__init__]; the packers play no role here, and the PID
    object built by the constructor is the argument [pid0]. *)
Definition init (P : CarControllerParams) (pid0 : PIDController) : CarController :=
  {| start_time := 0; apply_steer_last := 0; lka_steering_cmd_counter_last := -1;
     lka_icon_status_last := (false, false); steer_rate_limited := false;
     fcw_count := 0; params := P; one_pedal_pid := pid0;
     one_pedal_decel := 0; one_pedal_decel_in := 0; lead_accel_last_t := 0;
     apply_gas := 0; apply_brake := 0 |}.

(** Assignments to groups of attributes of [self]. *)
Definition set_counter_last (self : CarController) (c : Z) : CarController :=
  mkCarController (start_time self) (apply_steer_last self) c
    (lka_icon_status_last self) (steer_rate_limited self) (fcw_count self)
    (params self) (one_pedal_pid self) (one_pedal_decel self) (one_pedal_decel_in self)
    (lead_accel_last_t self) (apply_gas self) (apply_brake self).

Definition set_steer (self : CarController) (apply_steer : Z) (rate_limited : bool)
           (P : CarControllerParams) : CarController :=
  mkCarController (start_time self) apply_steer (lka_steering_cmd_counter_last self)
    (lka_icon_status_last self) rate_limited (fcw_count self)
    P (one_pedal_pid self) (one_pedal_decel self) (one_pedal_decel_in self)
    (lead_accel_last_t self) (apply_gas self) (apply_brake self).

(** [self.params] after a call that acts on it. *)
Definition set_params (self : CarController) (P : CarControllerParams) : CarController :=
  mkCarController (start_time self) (apply_steer_last self)
    (lka_steering_cmd_counter_last self)
    (lka_icon_status_last self) (steer_rate_limited self) (fcw_count self)
    P (one_pedal_pid self) (one_pedal_decel self) (one_pedal_decel_in self)
    (lead_accel_last_t self) (apply_gas self) (apply_brake self).

Definition set_long (self : CarController) (pid : PIDController) (decel decel_in : Q)
           (gas brake : Z) : CarController :=
  mkCarController (start_time self) (apply_steer_last self)
    (lka_steering_cmd_counter_last self)
    (lka_icon_status_last self) (steer_rate_limited self) (fcw_count self)
    (params self) pid decel decel_in (lead_accel_last_t self) gas brake.

Definition set_lka_icon (self : CarController) (st : bool * bool) : CarController :=
  mkCarController (start_time self) (apply_steer_last self)
    (lka_steering_cmd_counter_last self)
    st (steer_rate_limited self) (fcw_count self)
    (params self) (one_pedal_pid self) (one_pedal_decel self) (one_pedal_decel_in self)
    (lead_accel_last_t self) (apply_gas self) (apply_brake self).

(** *** Steering (lines 85-105) *)

Definition lkas_enabled_of (enabled : bool) (P : CarControllerParams) (CS : CarState) : bool :=
  (enabled || pause_long_on_gas_press CS) && lkMode CS
  && negb (out_steerWarning CS || out_steerError CS)
  && Py.gtb (out_vEgo CS) (MIN_STEER_SPEED P)
  && Py.gtb (lane_change_steer_factor CS) 0.

(** The result is the controller with the steering attributes updated and
    the frames appended to [can_sends] (none or one). *)
Definition update_steering (self : CarController) (enabled : bool) (CS : CarState)
           (frame : Z) (actuators : Actuators) : option (CarController * list CanSend) :=
  let P := params self in
  if negb (lka_steering_cmd_counter CS =? lka_steering_cmd_counter_last self)%Z then
    Some (set_counter_last self (lka_steering_cmd_counter CS), [])
  else
    m ← Py.mod_ frame (STEER_STEP P);
    if (m =? 0)%Z then
      let lkas_enabled := lkas_enabled_of enabled P CS in
      let '(apply_steer, rate_limited, P') :=
        if lkas_enabled then
          let new_steer :=
            Py.round (steer actuators * STEER_MAX P * lane_change_steer_factor CS) in
          let P' := set_v_ego P (out_vEgo CS) in
          let apply_steer :=
            apply_std_steer_torque_limits new_steer (apply_steer_last self)
                                          (out_steeringTorque CS) P' in
          (apply_steer, negb (new_steer =? apply_steer)%Z, P')
        else (0%Z, steer_rate_limited self, P) in
      let idx := ((lka_steering_cmd_counter CS + 1) mod 4)%Z in
      Some (set_steer self apply_steer rate_limited P',
            [create_steering_control packer_pt POWERTRAIN apply_steer idx lkas_enabled])
    else Some (self, []).

(** *** Gas/regen preparation (lines 107-223) *)

(** [ttc] and [d_time] (lines 129-131); both divisions are guarded. *)
Definition lead_v_rel (CS : CarState) : Q := coasting_lead_v CS - vEgo CS.

Definition lead_ttc (CS : CarState) : Q :=
  Py.min (if Py.gtb (coasting_lead_d CS) 0 && Py.ltb (lead_v_rel CS) 0
          then - coasting_lead_d CS / lead_v_rel CS else 100) 100.

Definition lead_d_time (CS : CarState) : Q :=
  if Py.gtb (coasting_lead_d CS) 0 && Py.gtb (vEgo CS) 0 && Py.gtb (tr CS) 0
  then coasting_lead_d CS / vEgo CS else 10.

(** [x < bp[-1]] *)
Definition lt_last (x : Q) (bp : list Q) : option bool :=
  b ← last bp; Some (Py.ltb x b).

(** The tripwire condition of lines 133-137 and 145-149, over the five
    breakpoint tables of one of the two lockouts. *)
Definition lockout_tripwire (CS : CarState)
           (ttc_bp v_rel_bp v_bp tr_bp d_bp : list Q) : option bool :=
  Py.andM (Some (Py.gtb (coasting_lead_d CS) 0))
    (Py.orM (lt_last (lead_ttc CS) ttc_bp)
    (Py.orM (lt_last (lead_v_rel CS) v_rel_bp)
    (Py.orM (lt_last (coasting_lead_v CS) v_bp)
    (Py.orM (b ← last tr_bp; Some (Py.ltb (lead_d_time CS) (tr CS * b)))
            (lt_last (coasting_lead_d CS) d_bp))))).

(** The [max([interp ...])] of lines 138-143 and 150-155. *)
Definition lockout_factor (CS : CarState)
           (v_rel_bp v_rel_v v_bp v_v ttc_bp ttc_v tr_bp tr_v d_bp d_v : list Q) : option Q :=
  a ← interp (lead_v_rel CS) v_rel_bp v_rel_v;
  b ← interp (coasting_lead_v CS) v_bp v_v;
  c ← interp (lead_ttc CS) ttc_bp ttc_v;
  q ← Py.div (lead_d_time CS) (tr CS);
  d ← interp q tr_bp tr_v;
  e ← interp (coasting_lead_d CS) d_bp d_v;
  Py.max_list [a; b; c; d; e].

(** Lines 133-160: the pair
    [(lead_long_gas_lockout_factor, lead_long_brake_lockout_factor)]. *)
Definition lead_lockout_factors (CS : CarState) : option (Q * Q) :=
  g ← lockout_tripwire CS (lead_ttc_long_gas_lockout_bp CS) (lead_v_rel_long_gas_lockout_bp CS)
        (lead_v_long_gas_lockout_bp CS) (lead_tr_long_gas_lockout_bp CS)
        (lead_d_long_gas_lockout_bp CS);
  if (g : bool) then
    gas ← lockout_factor CS
            (lead_v_rel_long_gas_lockout_bp CS) (lead_v_rel_long_gas_lockout_v CS)
            (lead_v_long_gas_lockout_bp CS) (lead_v_long_gas_lockout_v CS)
            (lead_ttc_long_gas_lockout_bp CS) (lead_ttc_long_gas_lockout_v CS)
            (lead_tr_long_gas_lockout_bp CS) (lead_tr_long_gas_lockout_v CS)
            (lead_d_long_gas_lockout_bp CS) (lead_d_long_gas_lockout_v CS);
    b ← lockout_tripwire CS (lead_ttc_long_brake_lockout_bp CS)
          (lead_v_rel_long_brake_lockout_bp CS) (lead_v_long_brake_lockout_bp CS)
          (lead_tr_long_brake_lockout_bp CS) (lead_d_long_brake_lockout_bp CS);
    if (b : bool) then
      brake ← lockout_factor CS
                (lead_v_rel_long_brake_lockout_bp CS) (lead_v_rel_long_brake_lockout_v CS)
                (lead_v_long_brake_lockout_bp CS) (lead_v_long_brake_lockout_v CS)
                (lead_ttc_long_brake_lockout_bp CS) (lead_ttc_long_brake_lockout_v CS)
                (lead_tr_long_brake_lockout_bp CS) (lead_tr_long_brake_lockout_v CS)
                (lead_d_long_brake_lockout_bp CS) (lead_d_long_brake_lockout_v CS);
      Some (gas, brake)
    else Some (gas, 0)
  else Some (0, 0).

(** Lines 117-124: the speed handed to [update_gas_brake_threshold]
    depends on the lead-acceleration lockout; [t] is [sec_since_boot()].
    The result is [threshold_accel] and [self.params] after the call. *)
Definition threshold_accel_of (self : CarController) (CS : CarState) (t : Q)
  : Q * CarControllerParams :=
  if one_pedal_mode_active CS
     && (negb (one_pedal_mode_op_braking_allowed CS)
         || Py.gtb (t - lead_accel_last_t self) ONE_PEDAL_LEAD_ACCEL_RATE_LOCKOUT_T)
  then update_gas_brake_threshold (params self)
         (Py.max (vEgo CS) ONE_PEDAL_MIN_SPEED) (Py.gtb (engineRPM CS) 0)
  else update_gas_brake_threshold (params self) (out_vEgo CS) (Py.gtb (engineRPM CS) 0).

(** [CS.gear_shifter_ev == 4 and CS.one_pedal_dl_coasting_enabled and CS.vEgo > 0.05] *)
Definition dl_coasting (CS : CarState) : bool :=
  (gear_shifter_ev CS =? 4)%Z && one_pedal_dl_coasting_enabled CS && Py.gtb (vEgo CS) 0.05.

(** Lines 175-188, one-pedal braking: the new PID object,
    [self.one_pedal_decel], [self.one_pedal_decel_in] and
    [one_pedal_apply_brake]. *)
Definition one_pedal_active (P : CarControllerParams) (CS : CarState)
           (pid : PIDController) (decel pitch_accel : Q)
  : option (PIDController * Q * Q * Q) :=
  bp ← Py.index ONE_PEDAL_MODE_DECEL_BP (one_pedal_brake_mode CS);
  v ← Py.index ONE_PEDAL_MODE_DECEL_V (one_pedal_brake_mode CS);
  din0 ← interp (vEgo CS) bp v;
  c0 ← one_pedal_angle_steers_cutoff_bp CS !! 0%nat;
  din ← (if Py.gtb (Py.abs (angle_steers CS)) c0 then
           bp1 ← Py.index ONE_PEDAL_MODE_DECEL_BP (Z.max 0 (one_pedal_brake_mode CS - 1));
           v1 ← Py.index ONE_PEDAL_MODE_DECEL_V (Z.max 0 (one_pedal_brake_mode CS - 1));
           one_pedal_apply_brake_decel_minus1 ← interp (vEgo CS) bp1 v1;
           interp (Py.abs (angle_steers CS)) (one_pedal_angle_steers_cutoff_bp CS)
                  [din0; one_pedal_apply_brake_decel_minus1]
         else Some din0);
  error_factor ← interp (vEgo CS) ONE_PEDAL_SPEED_ERROR_FACTOR_BP
                        ONE_PEDAL_SPEED_ERROR_FACTOR_V;
  let error := (din - Py.min 0 (out_aEgo CS + pitch_accel)) * error_factor in
  let '(raw, pid') := pid_update pid din (din - error) (out_vEgo CS) din in
  let limited :=
    clip raw (decel - ONE_PEDAL_DECEL_RATE_LIMIT_UP * Py.max 1 (0.5 - raw * 0.5))
             (decel + ONE_PEDAL_DECEL_RATE_LIMIT_DOWN) in
  let decel' := Py.max limited ONE_PEDAL_MAX_DECEL in
  one_pedal_apply_brake ← interp decel' (BRAKE_LOOKUP_BP P) (BRAKE_V P);
  Some (pid', decel', din, one_pedal_apply_brake).

(** Lines 167-195: the branch taken when either one-pedal flag is set.
    [apply_brake] is the planner's brake of line 127; the result is
    [(pid, one_pedal_decel, one_pedal_decel_in, apply_gas, apply_brake)]. *)
Definition one_pedal (P : CarControllerParams) (CS : CarState) (pid : PIDController)
           (decel decel_in threshold_accel apply_brake : Q)
  : option (PIDController * Q * Q * Q * Q) :=
  let apply_gas :=
    if negb (one_pedal_mode_active CS) && dl_coasting CS
    then inject_Z (ZERO_GAS P) else inject_Z (MAX_ACC_REGEN P) in
  let pitch_accel0 := pitch CS * ACCELERATION_DUE_TO_GRAVITY in
  f ← interp (vEgo CS) ONE_PEDAL_ACCEL_PITCH_FACTOR_BP
             (if Py.leb pitch_accel0 0 then ONE_PEDAL_ACCEL_PITCH_FACTOR_V
              else ONE_PEDAL_ACCEL_PITCH_FACTOR_INCLINE_V);
  let pitch_accel := pitch_accel0 * f in
  '(pid', decel', decel_in', one_pedal_apply_brake) ←
    (if one_pedal_mode_active CS then one_pedal_active P CS pid decel pitch_accel
     else
       Some (pid, decel,
             clip (if dl_coasting CS then 0 else Py.min (out_aEgo CS) threshold_accel)
                  (decel_in - ONE_PEDAL_DECEL_RATE_LIMIT_UP)
                  (decel_in + ONE_PEDAL_DECEL_RATE_LIMIT_DOWN),
             0));
  let apply_brake' :=
    if negb (one_pedal_mode_op_braking_allowed CS) || Py.gtb one_pedal_apply_brake apply_brake
    then one_pedal_apply_brake else apply_brake in
  Some (pid', decel', decel_in', apply_gas, apply_brake').

(** The over-speed factor of lines 200-204 and 208-212, for one of the two
    breakpoint tables. *)
Definition over_speed_factor_of (CS : CarState) (tbl : list (list Q))
           (check_speed_ms : Q) : option Q :=
  l0 ← tbl !! 0%nat;
  b0 ← interp (vEgo CS) (coasting_over_speed_vEgo_BP_BP CS) l0;
  l1 ← tbl !! 1%nat;
  b1 ← interp (vEgo CS) (coasting_over_speed_vEgo_BP_BP CS) l1;
  if Py.gtb check_speed_ms 0 && coasting_brake_over_speed_enabled CS
  then interp (vEgo CS / check_speed_ms) [b0; b1] [0; 1]
  else Some 0.

(** Lines 197-214, coasting: the pair [(apply_gas, apply_brake)]. *)
Definition coasting (P : CarControllerParams) (CS : CarState)
           (gas_lockout brake_lockout apply_gas apply_brake : Q) : option (Q * Q) :=
  if bool_decide (coasting_long_plan CS ∈ COAST_SOURCES)
       && Py.ltb apply_gas (inject_Z (ZERO_GAS P))
     || Py.gtb apply_brake 0
  then
    let check_speed_ms :=
      (if speed_limit_active CS && Py.ltb (speed_limit CS) (v_cruise_kph CS)
       then speed_limit CS else v_cruise_kph CS) * KPH_TO_MS in
    apply_brake' ←
      (if Py.gtb apply_brake 0 then
         over_speed_factor ← over_speed_factor_of CS (coasting_over_speed_vEgo_BP CS)
                                                  check_speed_ms;
         let over_speed_brake := apply_brake * over_speed_factor in
         Py.max_list [apply_brake * brake_lockout; over_speed_brake]
       else Some apply_brake);
    apply_gas' ←
      (if Py.ltb apply_gas (inject_Z (ZERO_GAS P)) && Py.ltb gas_lockout 1 then
         over_speed_factor ← over_speed_factor_of CS (coasting_over_speed_regen_vEgo_BP CS)
                                                  check_speed_ms;
         let coast_apply_gas :=
           Py.round (inject_Z (ZERO_GAS P)
                     - over_speed_factor * (inject_Z (ZERO_GAS P) - apply_gas)) in
         Some (apply_gas * gas_lockout + inject_Z coast_apply_gas * (1 - gas_lockout))
       else Some apply_gas);
    Some (apply_gas', apply_brake')
  else Some (apply_gas, apply_brake).

(** Lines 117-222: the enabled branch.  Returns the controller after the
    assignments and the local [no_pitch_apply_gas].  [P] is the object
    [self.params]: after the call of lines 120-124 every read of [P] sees
    what the call left in it. *)
Definition long_enabled (self : CarController) (CS : CarState) (actuators : Actuators)
           (t : Q) : option (CarController * Q) :=
  k ← interp (out_vEgo CS) ACCEL_PITCH_FACTOR_BP ACCEL_PITCH_FACTOR_V;
  let brake_accel := k * accelPitchCompensated actuators + (1 - k) * accel actuators in
  let '(threshold_accel, P) := threshold_accel_of self CS t in
  apply_gas ← interp (accelPitchCompensated actuators) (GAS_LOOKUP_BP P) (GAS_V P);
  no_pitch_apply_gas ← interp (accel actuators) (GAS_LOOKUP_BP P) (GAS_V P);
  apply_brake ← interp brake_accel (BRAKE_LOOKUP_BP P) (BRAKE_V P);
  '(gas_lockout, brake_lockout) ← lead_lockout_factors CS;
  let '(pid, decel, decel_in) :=
    if negb (one_pedal_mode_active CS) && negb (coast_one_pedal_mode_active CS)
    then (pid_reset (one_pedal_pid self), out_aEgo CS, out_aEgo CS)
    else (one_pedal_pid self, one_pedal_decel self, one_pedal_decel_in self) in
  '(pid', decel', decel_in', apply_gas', apply_brake') ←
    (if one_pedal_mode_active CS || coast_one_pedal_mode_active CS then
       one_pedal P CS pid decel decel_in threshold_accel apply_brake
     else if coasting_enabled CS && Py.ltb brake_lockout 1 then
       '(g, b) ← coasting P CS gas_lockout brake_lockout apply_gas apply_brake;
       Some (pid, decel, decel_in, g, b)
     else if no_friction_braking CS && Py.ltb brake_lockout 1 then
       Some (pid, decel, decel_in, apply_gas,
             if bool_decide (coasting_long_plan CS ∈ COAST_SOURCES) && Py.gtb apply_brake 0
             then apply_brake * brake_lockout else apply_brake)
     else Some (pid, decel, decel_in, apply_gas, apply_brake));
  Some (set_long (set_params self P) pid' decel' decel_in'
                 (Py.round apply_gas') (Py.round apply_brake'),
        no_pitch_apply_gas).

Definition set_brake_cmd (W : CarStateW) (b : Z) : CarStateW :=
  mkCarStateW (one_pedal_mode_active_last W) (coast_one_pedal_mode_active_last W) b
              (apply_brake_percent W) (autoHoldActivated W) (resume_button_pressed W)
              (resume_required W).

Definition set_mode_last (W : CarStateW) (a c : bool) : CarStateW :=
  mkCarStateW a c (brake_cmd W)
              (apply_brake_percent W) (autoHoldActivated W) (resume_button_pressed W)
              (resume_required W).

(** Lines 107-223.  On a tick that is not a 25 Hz slot nothing changes and
    [no_pitch_apply_gas] keeps its initial value 0. *)
Definition update_long (self : CarController) (enabled : bool) (CS : CarState)
           (W : CarStateW) (frame : Z) (actuators : Actuators) (t : Q)
  : option (CarController * CarStateW * Q) :=
  if (frame mod 4 =? 0)%Z then
    if negb enabled || pause_long_on_gas_press CS then
      let self' := set_long self (pid_reset (one_pedal_pid self))
                            (out_aEgo CS) (out_aEgo CS)
                            (MAX_ACC_REGEN (params self)) 0 in
      Some (self', set_brake_cmd W (apply_brake self'), 0)
    else
      '(self', no_pitch_apply_gas) ← long_enabled self CS actuators t;
      let W' := set_mode_last W (one_pedal_mode_active CS)
                              (coast_one_pedal_mode_active CS) in
      Some (self', set_brake_cmd W' (apply_brake self'), no_pitch_apply_gas)
  else Some (self, W, 0).

(** *** Brake indicator (lines 225-243) *)

Definition set_apply_brake_percent (W : CarStateW) (x : Q) : CarStateW :=
  mkCarStateW (one_pedal_mode_active_last W) (coast_one_pedal_mode_active_last W)
              (brake_cmd W) x (autoHoldActivated W) (resume_button_pressed W)
              (resume_required W).

Definition brake_percent (self : CarController) (CS : CarState) : option Q :=
  let P := params self in
  let regen := interp (hvb_wattage CS) (hvb_wattage_bp CS) [0; 49] in
  let friction := interp (out_brake CS) [0; 0.5] [51; 100] in
  if Py.gtb (vEgo CS) 0.1 then
    if out_cruiseState_enabled CS then
      if negb (pause_long_on_gas_press CS) then
        if (1 <? apply_brake self)%Z then
          lo ← last (BRAKE_LOOKUP_V P); hi ← BRAKE_LOOKUP_V P !! 0%nat;
          interp (inject_Z (apply_brake self)) [inject_Z lo; inject_Z hi] [51; 100]
        else if one_pedal_mode_active CS || coast_one_pedal_mode_active CS then regen
        else if (apply_gas self <? ZERO_GAS P)%Z then
          g0 ← GAS_LOOKUP_V P !! 0%nat; g1 ← GAS_LOOKUP_V P !! 1%nat;
          interp (inject_Z (apply_gas self)) [inject_Z g0; inject_Z g1] [51; 0]
        else Some 0
      else regen
    else if is_ev CS && Qeq_bool (out_brake CS) 0 then regen
    else if Py.gtb (out_brake CS) 0 then friction
    else Some 0
  else if Py.gtb (out_brake CS) 0 then friction
  else Some 0.

Definition update_brake_indicator (self : CarController) (CS : CarState) (W : CarStateW)
  : option CarStateW :=
  if showBrakeIndicator CS then
    x ← brake_percent self CS; Some (set_apply_brake_percent W x)
  else Some W.

(** *** Friction brake and gas/regen frames (lines 245-284) *)

Definition auto_hold (enabled : bool) (CS : CarState) : bool :=
  cruiseMain CS && negb enabled && autoHold CS && autoHoldActive CS
  && negb (out_gasPressed CS)
  && bool_decide (out_gearShifter CS ∈ ["drive"; "low"]%string)
  && Py.ltb (out_vEgo CS) 0.02 && negb (regenPaddlePressed CS).

Definition set_autoHoldActivated (W : CarStateW) (b : bool) : CarStateW :=
  mkCarStateW (one_pedal_mode_active_last W) (coast_one_pedal_mode_active_last W)
              (brake_cmd W) (apply_brake_percent W) b (resume_button_pressed W)
              (resume_required W).

Definition set_resume_button_pressed (W : CarStateW) (b : bool) : CarStateW :=
  mkCarStateW (one_pedal_mode_active_last W) (coast_one_pedal_mode_active_last W)
              (brake_cmd W) (apply_brake_percent W) (autoHoldActivated W) b
              (resume_required W).

Definition set_resume_required (W : CarStateW) (b : bool) : CarStateW :=
  mkCarStateW (one_pedal_mode_active_last W) (coast_one_pedal_mode_active_last W)
              (brake_cmd W) (apply_brake_percent W) (autoHoldActivated W)
              (resume_button_pressed W) b.

Definition update_gas_brake (self : CarController) (enabled : bool) (CS : CarState)
           (W : CarStateW) (frame : Z) (no_pitch_apply_gas : Q)
  : CarStateW * list CanSend :=
  let P := params self in
  if (frame mod 4 =? 0)%Z then
    let idx := ((frame / 4) mod 4)%Z in
    if auto_hold enabled CS then
      let car_stopping := Py.ltb no_pitch_apply_gas (inject_Z (ZERO_GAS P)) in
      let standstill := (pcm_acc_status CS =? AccState_STANDSTILL)%Z in
      let at_full_stop := standstill && car_stopping in
      let near_stop := Py.ltb (out_vEgo CS) (NEAR_STOP_BRAKE_PHASE P) && car_stopping in
      (set_autoHoldActivated W true,
       [create_friction_brake_command packer_ch CHASSIS (apply_brake self) idx
                                      near_stop at_full_stop])
    else
      let '(at_full_stop, near_stop, car_stopping, standstill) :=
        if pause_long_on_gas_press CS then (false, false, false, false)
        else
          let car_stopping := Py.ltb no_pitch_apply_gas (inject_Z (ZERO_GAS P)) in
          let standstill := (pcm_acc_status CS =? AccState_STANDSTILL)%Z in
          (enabled && standstill && car_stopping,
           enabled && Py.ltb (out_vEgo CS) (NEAR_STOP_BRAKE_PHASE P) && car_stopping,
           car_stopping, standstill) in
      let W1 := set_autoHoldActivated W false in
      let '(acc_enabled, W2) :=
        if standstill && negb car_stopping then
          if do_sng CS then (false, set_resume_button_pressed W1 true)
          else if Py.ltb (out_vEgo CS) 1.5 then (enabled, set_resume_required W1 true)
          else (enabled, W1)
        else (enabled, W1) in
      (W2,
       [create_friction_brake_command packer_ch CHASSIS (apply_brake self) idx
                                      near_stop at_full_stop;
        create_gas_regen_command packer_pt POWERTRAIN (apply_gas self) idx
                                 acc_enabled at_full_stop])
  else (W, []).

(** *** Dashboard, radar keep-alives and LKA icon (lines 287-325) *)

Definition update_dashboard (enabled : bool) (CS : CarState) (W : CarStateW) (frame : Z)
           (hud_v_cruise : Q) (hud_show_car : bool) (hud_alert : VisualAlert)
  : CarStateW * list CanSend :=
  if (frame mod 4 =? 0)%Z then
    let send_fcw := VisualAlert_eqb hud_alert VA_fcw in
    (set_resume_button_pressed W false,
     [create_acc_dashboard_command packer_pt POWERTRAIN enabled (hud_v_cruise * MS_TO_KPH)
                                   hud_show_car (follow_level CS) send_fcw
                                   (resume_button_pressed W)])
  else (W, []).

Definition update_adas (self : CarController) (CS : CarState) (frame : Z)
  : option (list CanSend) :=
  let time_and_headlights_step := 10%Z in
  let tt := inject_Z frame * DT_CTRL in
  let s1 :=
    if (frame mod time_and_headlights_step =? 0)%Z then
      let idx := ((frame / time_and_headlights_step) mod 4)%Z in
      [create_adas_time_status OBSTACLE (Py.int ((tt - start_time self) * 60)) idx;
       create_adas_headlights_status packer_obj OBSTACLE]
    else [] in
  let speed_and_accelerometer_step := 2%Z in
  let s2 :=
    if (frame mod speed_and_accelerometer_step =? 0)%Z then
      let idx := ((frame / speed_and_accelerometer_step) mod 4)%Z in
      [create_adas_steering_status OBSTACLE idx;
       create_adas_accelerometer_speed_status OBSTACLE (out_vEgo CS) idx]
    else [] in
  m ← Py.mod_ frame (ADAS_KEEPALIVE_STEP (params self));
  let s3 := if (m =? 0)%Z then [create_adas_keepalive POWERTRAIN] else [] in
  Some (s1 ++ s2 ++ s3).

Definition update_lka_icon (self : CarController) (CS : CarState) (frame : Z)
           (actuators : Actuators) (hud_alert : VisualAlert)
  : option (CarController * list CanSend) :=
  let lka_active := (lkas_status CS =? 1)%Z in
  let lka_critical := lka_active && Py.gtb (Py.abs (steer actuators)) 0.9 in
  let lka_icon_status := (lka_active, lka_critical) in
  m ← Py.mod_ frame (CAMERA_KEEPALIVE_STEP (params self));
  if (m =? 0)%Z
     || negb (bool_decide (lka_icon_status = lka_icon_status_last self)) then
    let steer_alert :=
      VisualAlert_eqb hud_alert VA_steerRequired || VisualAlert_eqb hud_alert VA_ldw in
    Some (set_lka_icon self lka_icon_status,
          [create_lka_icon_command SW_GMLAN lka_active lka_critical steer_alert])
  else Some (self, []).

(** *** [CarController.update]

    [t] is the reading of [sec_since_boot()] taken by this call.  The result
    is the controller object and the written attributes of [CS] after the
    call, and the returned list [can_sends]. *)
Definition update (self : CarController) (enabled : bool) (CS : CarState) (W : CarStateW)
           (frame : Z) (actuators : Actuators)
           (hud_v_cruise : Q) (hud_show_lanes hud_show_car : bool) (hud_alert : VisualAlert)
           (t : Q) : option (CarController * CarStateW * list CanSend) :=
  '(self1, sends1) ← update_steering self enabled CS frame actuators;
  '(self2, W2, no_pitch_apply_gas) ← update_long self1 enabled CS W frame actuators t;
  W3 ← update_brake_indicator self2 CS W2;
  let '(W4, sends2) := update_gas_brake self2 enabled CS W3 frame no_pitch_apply_gas in
  let '(W5, sends3) := update_dashboard enabled CS W4 frame hud_v_cruise hud_show_car
                                        hud_alert in
  sends4 ← update_adas self2 CS frame;
  '(self3, sends5) ← update_lka_icon self2 CS frame actuators hud_alert;
  Some (self3, W5, sends1 ++ sends2 ++ sends3 ++ sends4 ++ sends5).

(** *** Predicates used in the statements *)


(** The declared ranges: [[0, BRAKE_LOOKUP_V[0]]] for the brake command and
    [[MAX_ACC_REGEN, GAS_LOOKUP_V[-1]]] for the gas command. *)
Definition brake_in_range (P : CarControllerParams) (b : Z) : Prop :=
  exists b0, BRAKE_LOOKUP_V P !! 0%nat = Some b0 /\ (0 <= b <= b0)%Z.

Definition gas_in_range (P : CarControllerParams) (g : Z) : Prop :=
  exists gl, last (GAS_LOOKUP_V P) = Some gl /\ (MAX_ACC_REGEN P <= g <= gl)%Z.

(** The parameters respect their own ranges: the constants 0,
    [MAX_ACC_REGEN] and [ZERO_GAS] and every entry of the two value tables
    lie in the declared range. *)
Definition params_ok (P : CarControllerParams) : Prop :=
  brake_in_range P 0 /\ Forall (brake_in_range P) (BRAKE_LOOKUP_V P) /\
  gas_in_range P (MAX_ACC_REGEN P) /\ gas_in_range P (ZERO_GAS P) /\
  Forall (gas_in_range P) (GAS_LOOKUP_V P).

(** The lockout values supplied by [CS] are not negative. *)
Definition lockout_values_ok (CS : CarState) : Prop :=
  Forall (Forall (Qle 0))
    [lead_v_rel_long_gas_lockout_v CS; lead_v_long_gas_lockout_v CS;
     lead_ttc_long_gas_lockout_v CS; lead_tr_long_gas_lockout_v CS;
     lead_d_long_gas_lockout_v CS;
     lead_v_rel_long_brake_lockout_v CS; lead_v_long_brake_lockout_v CS;
     lead_ttc_long_brake_lockout_v CS; lead_tr_long_brake_lockout_v CS;
     lead_d_long_brake_lockout_v CS].

(** The same ranges on the values before rounding. *)
Definition brakeQ (P : CarControllerParams) (x : Q) : Prop :=
  exists b0, BRAKE_LOOKUP_V P !! 0%nat = Some b0 /\ 0 <= x <= inject_Z b0.

Definition gasQ (P : CarControllerParams) (x : Q) : Prop :=
  exists gl, last (GAS_LOOKUP_V P) = Some gl /\
             inject_Z (MAX_ACC_REGEN P) <= x <= inject_Z gl.


(** Frames of the periodic kinds: neither steering, friction brake nor
    gas/regen. *)
Definition other_frame (f : CanSend) : Prop :=
  is_steering_control f = false /\ is_friction_brake_command f = false
  /\ is_gas_regen_command f = false.

End WithCollaborators.

Arguments CarController PIDController : clear implicits.
End GM.

(** ** Vocabulary for statements about [CarController.update] *)

Module GMSpec.
Import NumpyFast GM.

(** The kinds of frames, one per [gmcan] builder. *)
Inductive Kind :=
| KSteering | KFrictionBrake | KGasRegen | KAccDashboard | KAdasTime | KAdasHeadlights
| KAdasSteeringStatus | KAdasAccelerometer | KAdasKeepalive | KLkaIcon.

Definition kind (f : CanSend) : Kind :=
  match f with
  | create_steering_control _ _ _ _ _ => KSteering
  | create_friction_brake_command _ _ _ _ _ _ => KFrictionBrake
  | create_gas_regen_command _ _ _ _ _ _ => KGasRegen
  | create_acc_dashboard_command _ _ _ _ _ _ _ _ => KAccDashboard
  | create_adas_time_status _ _ _ => KAdasTime
  | create_adas_headlights_status _ _ => KAdasHeadlights
  | create_adas_steering_status _ _ => KAdasSteeringStatus
  | create_adas_accelerometer_speed_status _ _ _ => KAdasAccelerometer
  | create_adas_keepalive _ => KAdasKeepalive
  | create_lka_icon_command _ _ _ _ => KLkaIcon
  end.

(** The rolling counter handed to the builder, for the builders that take
    one. *)
Definition idx_of (f : CanSend) : option Z :=
  match f with
  | create_steering_control _ _ _ idx _ => Some idx
  | create_friction_brake_command _ _ _ idx _ _ => Some idx
  | create_gas_regen_command _ _ _ idx _ _ => Some idx
  | create_adas_time_status _ _ idx => Some idx
  | create_adas_steering_status _ idx => Some idx
  | create_adas_accelerometer_speed_status _ _ idx => Some idx
  | _ => None
  end.

(** The resume flag of a dashboard command and the ACC flag of a gas/regen
    command. *)
Definition dashboard_resume (f : CanSend) : option bool :=
  match f with
  | create_acc_dashboard_command _ _ _ _ _ _ _ r => Some r
  | _ => None
  end.

Definition gas_acc_enabled (f : CanSend) : option bool :=
  match f with
  | create_gas_regen_command _ _ _ _ acc _ => Some acc
  | _ => None
  end.

(** The torque and the enable flag of a steering command. *)
Definition steering_torque (f : CanSend) : option (Z * bool) :=
  match f with
  | create_steering_control _ _ apply_steer _ lkas_enabled => Some (apply_steer, lkas_enabled)
  | _ => None
  end.

(** The counter each kind of frame is built with: the loopback counter plus
    one for steering, the frame number divided by the period of the kind for
    the others, all modulo 4. *)
Definition expected_idx (CS : CarState) (frame : Z) (k : Kind) : option Z :=
  match k with
  | KSteering => Some ((lka_steering_cmd_counter CS + 1) mod 4)%Z
  | KFrictionBrake | KGasRegen => Some ((frame / 4) mod 4)%Z
  | KAdasTime => Some ((frame / 10) mod 4)%Z
  | KAdasSteeringStatus | KAdasAccelerometer => Some ((frame / 2) mod 4)%Z
  | _ => None
  end.

Section WithCollaborators.
Context {PIDController : Type} `{Co : Collaborators PIDController}.

(** The gate of the steering transmission (lines 88-90). *)
Definition steering_due (self : CarController PIDController) (CS : CarState) (frame : Z)
  : bool :=
  (lka_steering_cmd_counter CS =? lka_steering_cmd_counter_last self)%Z
  && (frame mod STEER_STEP (params self) =? 0)%Z.

(** The pair [lka_icon_status] of line 321 and the gate of line 322. *)
Definition lka_icon_status (CS : CarState) (actuators : Actuators) : bool * bool :=
  ((lkas_status CS =? 1)%Z,
   (lkas_status CS =? 1)%Z && Py.gtb (Py.abs (steer actuators)) 0.9).

Definition icon_due (self : CarController PIDController) (CS : CarState) (frame : Z)
           (actuators : Actuators) : bool :=
  (frame mod CAMERA_KEEPALIVE_STEP (params self) =? 0)%Z
  || negb (bool_decide (lka_icon_status CS actuators = lka_icon_status_last self)).

(** The kinds of the frames of one call, in the order of the source. *)
Definition schedule (self : CarController PIDController) (enabled : bool) (CS : CarState)
           (frame : Z) (actuators : Actuators) : list Kind :=
  (if steering_due self CS frame then [KSteering] else [])
  ++ (if (frame mod 4 =? 0)%Z
      then (if auto_hold enabled CS then [KFrictionBrake]
            else [KFrictionBrake; KGasRegen]) ++ [KAccDashboard]
      else [])
  ++ (if (frame mod 10 =? 0)%Z then [KAdasTime; KAdasHeadlights] else [])
  ++ (if (frame mod 2 =? 0)%Z then [KAdasSteeringStatus; KAdasAccelerometer] else [])
  ++ (if (frame mod ADAS_KEEPALIVE_STEP (params self) =? 0)%Z then [KAdasKeepalive] else [])
  ++ (if icon_due self CS frame actuators then [KLkaIcon] else []).

(** Lines 118-119 and 127: the brake the planner asks for, before one-pedal
    and coasting adjust it. *)
Definition planner_brake (P : CarControllerParams) (CS : CarState) (actuators : Actuators)
  : option Q :=
  k ← interp (out_vEgo CS) ACCEL_PITCH_FACTOR_BP ACCEL_PITCH_FACTOR_V;
  interp (k * accelPitchCompensated actuators + (1 - k) * accel actuators)
         (BRAKE_LOOKUP_BP P) (BRAKE_V P).

(** The three moduli that [update] divides by are not zero. *)
Definition steps_ok (P : CarControllerParams) : Prop :=
  STEER_STEP P <> 0%Z /\ ADAS_KEEPALIVE_STEP P <> 0%Z /\ CAMERA_KEEPALIVE_STEP P <> 0%Z.

(** The tables read by the brake indicator have the entries it reads:
    [hvb_wattage_bp] has one or two breakpoints for its two values,
    [BRAKE_LOOKUP_V] has a first entry and [GAS_LOOKUP_V] two. *)
Definition indicator_ok (P : CarControllerParams) (CS : CarState) : Prop :=
  (1 <= length (hvb_wattage_bp CS) <= 2)%nat /\
  (1 <= length (BRAKE_LOOKUP_V P))%nat /\ (2 <= length (GAS_LOOKUP_V P))%nat.

End WithCollaborators.
End GMSpec.

(** ** [selfdrive/controls/radard.py] *)

Module Radard.
Import NumpyFast.

(** *** Python values and containers *)

(** The values stored in a lead dict. *)
Inductive PyVal :=
| VBool (b : bool)
| VStr (s : string)
| VNum (q : Q).

(** Truth value of an object in a condition. *)
Definition truthy (v : PyVal) : bool :=
  match v with
  | VBool b => b
  | VStr s => negb (String.eqb s "")
  | VNum q => negb (Qeq_bool q 0)
  end.

(** The number an object stands for in arithmetic and comparisons; a
    string there raises TypeError. *)
Definition as_num (v : PyVal) : option Q :=
  match v with
  | VBool b => Some (if b then 1 else 0)
  | VStr _ => None
  | VNum q => Some q
  end.

(** [v == 'literal'] *)
Definition is_str (v : PyVal) (s : string) : bool :=
  match v with
  | VStr s' => String.eqb s' s
  | _ => false
  end.

(** A lead is a dict with string keys; [d[k]] raises KeyError on a
    missing key. *)
Abbreviation LeadDict := (gmap string PyVal).

(** [d[k]] read as a number. *)
Definition num (d : LeadDict) (k : string) : option Q := v ← d !! k; as_num v.

(** A dict whose iteration order matters is kept as the list of its items
    in insertion order.  Assigning to a key that is present (keys compared
    with [eqb]) replaces the value in place; a new key goes to the end. *)
Fixpoint dict_set {K V} (eqb : K -> K -> bool) (d : list (K * V)) (k : K) (v : V)
  : list (K * V) :=
  match d with
  | [] => [(k, v)]
  | (k', v') :: d' =>
      if eqb k' k then (k', v) :: d' else (k', v') :: dict_set eqb d' k v
  end.

Definition dict_get {K V} (eqb : K -> K -> bool) (d : list (K * V)) (k : K) : option V :=
  snd <$> List.find (fun kv => eqb (fst kv) k) d.

(** [sorted(l, key=...)]: a stable sort; here by insertion, on items
    already paired with their keys. *)
Fixpoint insert_sorted {A} (a : Q * A) (l : list (Q * A)) : list (Q * A) :=
  match l with
  | [] => [a]
  | b :: l' => if Py.ltb (fst b) (fst a) then b :: insert_sorted a l' else a :: b :: l'
  end.

Definition sort_keyed {A} (l : list (Q * A)) : list (Q * A) :=
  fold_right insert_sorted [] l.

Definition sorted_by {A} (key : A -> option Q) (l : list A) : option (list A) :=
  keyed ← mapM (fun a => k ← key a; Some (k, a)) l;
  Some (snd <$> sort_keyed keyed).

(** [max(l, key=...)]: the first item whose key is maximal; ValueError on
    an empty list. *)
Fixpoint max_key_from {A} (key : A -> option Q) (best : A) (kbest : Q) (l : list A)
  : option A :=
  match l with
  | [] => Some best
  | a :: l' =>
      k ← key a;
      if Py.gtb k kbest then max_key_from key a k l' else max_key_from key best kbest l'
  end.

Definition max_key {A} (key : A -> option Q) (l : list A) : option A :=
  match l with
  | [] => None
  | a :: l' => k ← key a; max_key_from key a k l'
  end.

(** Element-wise arithmetic of [numpy] arrays of equal length (a length
    mismatch raises; broadcasting of one-element arrays is not modelled
    and counts as a raise). *)
Definition np_add (a b : list Q) : option (list Q) :=
  if (length a =? length b)%nat then Some (zip_with Qplus a b) else None.

(** *** Constants *)

Definition LEAD_PATH_DREL_MIN : Q := 60.
Definition LEAD_MIN_SMOOTHING_DISTANCE : Q := 145.
Definition LEAD_MAX_DISTANCE : Q := 152.
Definition MIN_LANE_PROB : Q := 0.6.

(** *** Messages *)

(** One entry of [modelV2.leadsV3]. *)
Module LeadMsg.
Record t := mk {
  x : list Q; y : list Q; v : list Q;
  xStd : list Q; yStd : list Q; vStd : list Q;
  prob : Q
}.
End LeadMsg.

(** A polyline of the model ([position], a lane line). *)
Module XY.
Record t := mk { x : list Q; y : list Q }.
End XY.

Module ModelV2.
Record t := mk {
  leadsV3 : list LeadMsg.t;
  position : XY.t;
  laneLines : list XY.t;
  laneLineProbs : list Q
}.
End ModelV2.

(** One radar point of [rr.points]. *)
Module RadarPoint.
Record t := mk { trackId : Z; dRel : Q; yRel : Q; vRel : Q; measured : bool }.
End RadarPoint.

(** What [RadarD.update] reads from [sm] up to the clustering step. *)
Module SubMaster.
Record t := mk {
  logMonoTime_modelV2 : Z;
  logMonoTime_carState : Z;
  logMonoTime_lateralPlan : Z;
  updated_carState : bool;
  updated_modelV2 : bool;
  carState_vEgo : Q
}.
End SubMaster.

Record KalmanParams := mkKalmanParams {
  A : list (list Q);
  C : list Q;
  K : list (list Q)
}.

(** What the source imports and this development takes as given:
    [math.exp] and [math.sqrt], the classes [Track] and [Cluster] of
    [radar_helpers], [FirstOrderFilter] of [common.filter_simple], and
    constants of [selfdrive.config] and [lane_planner].

    A [Cluster] is known here through the attributes it exposes. *)
Class Helpers (Track Cluster FirstOrderFilter : Type) := {
  exp : Q -> Q;
  sqrt : Q -> Q;
  RADAR_TO_CAMERA : Q;
  TRAJECTORY_SIZE : nat;
  (** [Track(v_lead, kalman_params)] and its methods *)
  Track_new : Q -> KalmanParams -> Track;
  Track_update : Track -> Q -> Q -> Q -> Q -> bool -> Track;
  get_key_for_cluster : Track -> list Q;
  cnt : Track -> Z;
  reset_a_lead : Track -> Q -> Q -> Track;
  (** the attributes [aLeadK], [aLeadTau] of a [Cluster] holding the given
      tracks *)
  members_aLeadK : list Track -> Q;
  members_aLeadTau : list Track -> Q;
  (** a [Cluster] as the lead matching sees it *)
  dRel : Cluster -> Q;
  yRel : Cluster -> Q;
  vRel : Cluster -> Q;
  (** [c.get_RadarState(source=..., checkSource=...)] *)
  get_RadarState : Cluster -> string -> string -> LeadDict;
  (** [FirstOrderFilter]: [update_alpha], [update], the attribute [x],
      and assignment to the attribute [initialized] *)
  FirstOrderFilter_new : Q -> Q -> Q -> bool -> FirstOrderFilter;
  update_alpha : FirstOrderFilter -> Q -> FirstOrderFilter;
  filter_update : FirstOrderFilter -> Q -> FirstOrderFilter;
  filter_x : FirstOrderFilter -> Q;
  set_initialized : FirstOrderFilter -> bool -> FirstOrderFilter
}.

Section WithHelpers.
Context {Track Cluster FirstOrderFilter : Type} `{Hlp : Helpers Track Cluster FirstOrderFilter}.

(** *** [laplacian_cdf] and [match_vision_to_cluster] (lines 47-73) *)

Definition laplacian_cdf (x mu b : Q) : option Q :=
  let b := Py.max b 1e-4 in
  q ← Py.div (- Py.abs (x - mu)) b;
  Some (exp q).

(** The local function [prob] of [match_vision_to_cluster]. *)
Definition prob (v_ego : Q) (lead : LeadMsg.t) (offset_vision_dist : Q) (c : Cluster)
  : option Q :=
  xStd0 ← LeadMsg.xStd lead !! 0%nat;
  prob_d ← laplacian_cdf (dRel c) offset_vision_dist xStd0;
  y0 ← LeadMsg.y lead !! 0%nat;
  yStd0 ← LeadMsg.yStd lead !! 0%nat;
  prob_y ← laplacian_cdf (yRel c) (- y0) yStd0;
  v0 ← LeadMsg.v lead !! 0%nat;
  vStd0 ← LeadMsg.vStd lead !! 0%nat;
  prob_v ← laplacian_cdf (vRel c + v_ego) v0 vStd0;
  Some (prob_d * prob_y * prob_v).

(** The outer [option] is for a raise; the inner one is the returned
    cluster or [None]. *)
Definition match_vision_to_cluster (v_ego : Q) (lead : LeadMsg.t) (clusters : list Cluster)
  : option (option Cluster) :=
  x0 ← LeadMsg.x lead !! 0%nat;
  let offset_vision_dist := x0 - RADAR_TO_CAMERA in
  cluster ← max_key (prob v_ego lead offset_vision_dist) clusters;
  m ← Py.max_list [offset_vision_dist * 0.25; 5.0];
  let dist_sane := Py.ltb (Py.abs (dRel cluster - offset_vision_dist)) m in
  vel_sane ← Py.orM (v0 ← LeadMsg.v lead !! 0%nat;
                     Some (Py.ltb (Py.abs (vRel cluster + v_ego - v0)) 10))
                    (Some (Py.gtb (v_ego + vRel cluster) 3));
  Some (if dist_sane && (vel_sane : bool) then Some cluster else None).

(** *** [get_path_adjacent_leads] (lines 161-220) *)

(** Lines 165-183: the centre line [c_y] built from the lane lines,
    together with [ll_x]; [None] inside [Some] is the Python [None]. *)
Definition lane_center (md : option ModelV2.t) (lane_width : Q)
  : option (option (list Q * list Q)) :=
  let none : option (option (list Q * list Q)) := Some None in
  match md with
  | None => none
  | Some m =>
      if negb (Py.gtb lane_width 0) then none
      else if negb (length (ModelV2.laneLines m) =? 4)%nat then none
      else
        l1 ← ModelV2.laneLines m !! 1%nat;
        if negb (length (XY.x l1) =? TRAJECTORY_SIZE)%nat then none
        else
          let ll_x := XY.x l1 in
          let lll_y := XY.y l1 in
          l2 ← ModelV2.laneLines m !! 2%nat;
          let rll_y := XY.y l2 in
          l_prob ← ModelV2.laneLineProbs m !! 1%nat;
          r_prob ← ModelV2.laneLineProbs m !! 2%nat;
          if Py.gtb l_prob MIN_LANE_PROB && Py.gtb r_prob MIN_LANE_PROB then
            sum ← np_add lll_y rll_y;
            Some (Some (ll_x, (fun v => v / 2) <$> (sum : list Q)))
          else if Py.gtb l_prob MIN_LANE_PROB then
            Some (Some (ll_x, (fun v => v + lane_width / 2) <$> lll_y))
          else if Py.gtb r_prob MIN_LANE_PROB then
            Some (Some (ll_x, (fun v => v - lane_width / 2) <$> rll_y))
          else none
  end.

(** Line 185-189.  With [md] present the condition is true at its first
    disjunct; with [md is None] the second disjunct dereferences [None]
    and raises. *)
Definition model_path (md : option ModelV2.t) : option (list Q * list Q) :=
  match md with
  | Some m => Some (XY.x (ModelV2.position m), XY.y (ModelV2.position m))
  | None => None
  end.

(** The three dicts [leads_left], [leads_center], [leads_right], keyed by
    [abs(dPath)]. *)
Record Buckets := mkBuckets {
  leads_left : list (Q * LeadDict);
  leads_center : list (Q * LeadDict);
  leads_right : list (Q * LeadDict)
}.

(** The body of the loop over [clusters] (lines 196-216). *)
Definition classify (md_x md_y : list Q) (c_y : option (list Q * list Q))
           (half_lane_width : Q) (b : Buckets) (c : Cluster) : option Buckets :=
  md_last ← last md_x;
  use_path ← Py.orM (Some (Py.leb (dRel c) md_last))
                    (match c_y with
                     | None => Some false
                     | Some (ll_x, _) =>
                         ll_last ← last ll_x;
                         Some (Py.ltb (md_last - dRel c) (ll_last - dRel c))
                     end);
  '(dPath, checkSource) ←
    (if (use_path : bool) then
       p ← interp (dRel c) md_x md_y; Some (- yRel c - p, "modelPath"%string)
     else match c_y with
          | Some (ll_x, cy) =>
              p ← interp (dRel c) ll_x cy; Some (- yRel c - p, "modelLaneLines"%string)
          | None => Some (- yRel c, "lowSpeedOverride"%string)
          end);
  let source := if Py.gtb (dRel c) 145 then "vision"%string else "radar"%string in
  let ld := get_RadarState c source checkSource in
  let ld := <["dPath" := VNum dPath]> ld in
  let ld := <["vLat" := VNum (sqrt ((10 * dPath) ^ 2 + dRel c ^ 2))]> ld in
  in_lane ← Py.andM (Some (Py.ltb (Py.abs dPath) half_lane_width))
                    (vLeadK ← num ld "vLeadK"; Some (Py.gtb vLeadK (-1)));
  if (in_lane : bool) then
    Some (mkBuckets (leads_left b)
                    (dict_set Qeq_bool (leads_center b) (Py.abs dPath) ld)
                    (leads_right b))
  else if Py.ltb dPath 0 then
    Some (mkBuckets (dict_set Qeq_bool (leads_left b) (Py.abs dPath) ld)
                    (leads_center b) (leads_right b))
  else
    Some (mkBuckets (leads_left b) (leads_center b)
                    (dict_set Qeq_bool (leads_right b) (Py.abs dPath) ld)).

(** The loop: [classify] from left to right, stopping at a raise. *)
Fixpoint classify_all (md_x md_y : list Q) (c_y : option (list Q * list Q))
         (half_lane_width : Q) (b : Buckets) (clusters : list Cluster) : option Buckets :=
  match clusters with
  | [] => Some b
  | c :: cs =>
      b' ← classify md_x md_y c_y half_lane_width b c;
      classify_all md_x md_y c_y half_lane_width b' cs
  end.

(** The result is the triple [[ll, lc, lr]]. *)
Definition get_path_adjacent_leads (v_ego : Q) (md : option ModelV2.t) (lane_width : Q)
           (clusters : list Cluster)
  : option (list LeadDict * list LeadDict * list LeadDict) :=
  if (length clusters =? 0)%nat then Some ([], [], [])
  else
    c_y ← lane_center md lane_width;
    '(md_x, md_y) ← model_path md;
    let half_lane_width := lane_width / 2 in
    b ← classify_all md_x md_y c_y half_lane_width (mkBuckets [] [] []) clusters;
    let ll := snd <$> sort_keyed (leads_left b) in
    let lr := snd <$> sort_keyed (leads_right b) in
    lc ← sorted_by (fun ld => num ld "dRel") (snd <$> leads_center b);
    Some (ll, lc, lr).

End WithHelpers.

(** *** [LongRangeLead] (lines 259-316) *)

Module LongRangeLead.
Section WithHelpers.
Context {Track Cluster FirstOrderFilter : Type} `{Hlp : Helpers Track Cluster FirstOrderFilter}.

Definition DREL_BP : list Q := [LEAD_MIN_SMOOTHING_DISTANCE; LEAD_MAX_DISTANCE].
Definition D_DREL_MAX_V : list Q := [8; 20].
Definition ALPHA_V : list Q := [0; 1].
Definition D_YREL_MAX : Q := 0.8.

(** The object: [lead_last] and the six filters. *)
Record t := mk {
  lead_last : option LeadDict;
  dRel : FirstOrderFilter;
  vRel : FirstOrderFilter;
  vLead : FirstOrderFilter;
  vLeadK : FirstOrderFilter;
  aLeadK : FirstOrderFilter;
  aLeadTau : FirstOrderFilter
}.

Definition map_filters (f : FirstOrderFilter -> FirstOrderFilter) (self : t) : t :=
  mk (lead_last self) (f (dRel self)) (f (vRel self)) (f (vLead self))
     (f (vLeadK self)) (f (aLeadK self)) (f (aLeadTau self)).

Definition set_lead_last (self : t) (l : option LeadDict) : t :=
  mk l (dRel self) (vRel self) (vLead self) (vLeadK self) (aLeadK self) (aLeadTau self).

Definition reset (self : t) : t :=
  map_filters (fun f => set_initialized f false) (set_lead_last self None).

Definition init (dt : Q) : t :=
  let f := FirstOrderFilter_new 0 0 dt false in
  reset (mk None f f f f f f).

(** The reset condition of lines 287-290. *)
Definition reset_condition (self : t) (lead : LeadDict) : option bool :=
  Py.orM (cs ← lead !! "checkSource"; Some (is_str cs "modelLead"))
 (Py.orM (d ← num lead "dRel"; b0 ← DREL_BP !! 0%nat; Some (Py.ltb d b0))
         (match lead_last self with
          | None => Some false
          | Some last =>
              Py.andM (truthy <$> last !! "status")
                (Py.orM (ld ← num last "dRel"; d ← num lead "dRel";
                         m ← interp d DREL_BP D_DREL_MAX_V;
                         Some (Py.gtb (Py.abs (ld - d)) m))
                        (ly ← num last "yRel"; y ← num lead "yRel";
                         Some (Py.gtb (Py.abs (ly - y)) D_YREL_MAX)))
          end)).

(** Lines 292-304: the six [update_alpha] and the six [update]. *)
Definition feed (self : t) (lead : LeadDict) : option t :=
  d ← num lead "dRel";
  alpha ← interp d DREL_BP ALPHA_V;
  let self := map_filters (fun f => update_alpha f alpha) self in
  x1 ← num lead "dRel"; x2 ← num lead "vRel"; x3 ← num lead "vLead";
  x4 ← num lead "vLeadK"; x5 ← num lead "aLeadK"; x6 ← num lead "aLeadTau";
  Some (mk (lead_last self)
           (filter_update (dRel self) x1) (filter_update (vRel self) x2)
           (filter_update (vLead self) x3) (filter_update (vLeadK self) x4)
           (filter_update (aLeadK self) x5) (filter_update (aLeadTau self) x6)).

(** Lines 309-314: the six kinematic entries overwritten with the filter
    outputs. *)
Definition overwrite (self : t) (lead : LeadDict) : LeadDict :=
  <["aLeadTau" := VNum (filter_x (aLeadTau self))]>
  (<["aLeadK" := VNum (filter_x (aLeadK self))]>
  (<["vLeadK" := VNum (filter_x (vLeadK self))]>
  (<["vLead" := VNum (filter_x (vLead self))]>
  (<["vRel" := VNum (filter_x (vRel self))]>
  (<["dRel" := VNum (filter_x (dRel self))]> lead))))).

(** [update] returns the object after the call and the returned lead.
    [self.lead_last = lead] stores the very dict that lines 309-314 then
    write to, so [lead_last] holds the lead as returned. *)
Definition update (self : t) (lead : LeadDict) : option (t * LeadDict) :=
  status ← lead !! "status";
  self1 ← (if negb (truthy status) then Some (reset self)
           else
             r ← reset_condition self lead;
             feed (if (r : bool) then reset self else self) lead);
  w ← Py.andM (Some (truthy status))
              (cs ← lead !! "checkSource"; Some (negb (is_str cs "modelLead")));
  let lead' := if (w : bool) then overwrite self1 lead else lead in
  Some (set_lead_last self1 (Some lead'), lead').

End WithHelpers.

Arguments t FirstOrderFilter : clear implicits.
End LongRangeLead.

Section WithHelpers.
Context {Track Cluster FirstOrderFilter : Type} `{Hlp : Helpers Track Cluster FirstOrderFilter}.

(** *** [RadarD] (lines 320-397) *)

(** The attributes of the object that the tracking and clustering steps
    use.  [tracks] maps a track id to its [Track]; the order of its keys is
    never observed (they are only tested, removed, or sorted).
    [v_ego_hist] is the deque, oldest entry first, of at most [maxlen]
    entries. *)
Record RadarD := mkRadarD {
  current_time : Q;
  tracks : gmap Z Track;
  kalman_params : KalmanParams;
  v_ego : Q;
  v_ego_hist : list Q;
  maxlen : nat;
  ready : bool
}.

(** [deque.append] with [maxlen]: a full deque drops its oldest entry. *)
Definition deque_append (maxlen : nat) (d : list Q) (x : Q) : list Q :=
  let d' := d ++ [x] in
  drop (length d' - maxlen) d'.

(** Lines 350-352: [ar_pts], in insertion order. *)
Definition ar_pts_of (points : list RadarPoint.t)
  : list (Z * (Q * Q * Q * bool)) :=
  fold_left (fun d pt =>
               dict_set Z.eqb d (RadarPoint.trackId pt)
                        (RadarPoint.dRel pt, RadarPoint.yRel pt, RadarPoint.vRel pt,
                         RadarPoint.measured pt))
            points [].

(** Lines 354-357: tracks whose id is not in [ar_pts] are popped. *)
Definition remove_missing (ar_pts : list (Z * (Q * Q * Q * bool)))
           (tracks : gmap Z Track) : gmap Z Track :=
  filter (fun kv => fst kv ∈ fst <$> ar_pts) tracks.

(** Lines 360-369, one iteration. *)
Definition track_point (kp : KalmanParams) (v_ego_hist : list Q)
           (tracks : gmap Z Track) (item : Z * (Q * Q * Q * bool))
  : option (gmap Z Track) :=
  let '(ids, (d, y, v, measured)) := item in
  v0 ← v_ego_hist !! 0%nat;
  let v_lead := v + v0 in
  let tracks :=
    match tracks !! ids with
    | None => <[ids := Track_new v_lead kp]> tracks
    | Some _ => tracks
    end in
  tr ← tracks !! ids;
  Some (<[ids := Track_update tr d y v v_lead measured]> tracks).

Fixpoint track_points (kp : KalmanParams) (v_ego_hist : list Q)
         (tracks : gmap Z Track) (items : list (Z * (Q * Q * Q * bool)))
  : option (gmap Z Track) :=
  match items with
  | [] => Some tracks
  | it :: items' =>
      tracks' ← track_point kp v_ego_hist tracks it;
      track_points kp v_ego_hist tracks' items'
  end.

(** [sorted(self.tracks.keys())] *)
Definition sorted_ids (tracks : gmap Z Track) : list Z :=
  merge_sort Z.le (elements (dom tracks)).

(** A [Cluster] object holds references to the [Track] objects added to
    it; it is kept as the list of their ids, and its attributes are
    computed from the tracks currently stored under these ids. *)
Definition members (tracks : gmap Z Track) (cluster : list Z) : option (list Track) :=
  mapM (fun i => tracks !! i) cluster.

(** Lines 379-383: the loop that fills [clusters]; an entry [None] is a
    slot still holding Python's [None]. *)
Fixpoint fill_clusters (idens : list Z) (cluster_idxs : list nat) (idx : nat) (n : nat)
         (clusters : list (option (list Z))) : option (list (option (list Z))) :=
  match n with
  | O => Some clusters
  | S n' =>
      cluster_i ← cluster_idxs !! idx;
      slot ← clusters !! cluster_i;
      iden ← idens !! idx;
      let c := match slot with None => [iden] | Some c => c ++ [iden] end in
      fill_clusters idens cluster_idxs (S idx) n' (<[cluster_i := Some c]> clusters)
  end.

(** Lines 374-390.  [cluster_points_centroid] is the clustering primitive;
    it returns the cluster index of every point, or does not return
    ([None]).  The result is [(cluster_idxs, clusters)]; with no track
    [cluster_idxs] is unbound and is given as the empty list. *)
Definition make_clusters (cluster_points_centroid : list (list Q) -> Q -> option (list nat))
           (idens : list Z) (track_pts : list (list Q))
  : option (list nat * list (option (list Z))) :=
  if (1 <? length track_pts)%nat then
    cluster_idxs ← cluster_points_centroid track_pts 2.5;
    m ← (match cluster_idxs with
         | [] => None
         | i :: l => Some (fold_left Nat.max l i)
         end);
    clusters ← fill_clusters idens cluster_idxs 0 (length track_pts)
                             (replicate (m + 1) None);
    Some (cluster_idxs, clusters)
  else if (length track_pts =? 1)%nat then
    iden ← idens !! 0%nat;
    Some ([0%nat], [Some [iden]])
  else Some ([], []).

(** Lines 392-397: a track seen for the first time takes the acceleration
    of its cluster. *)
Fixpoint reset_new_tracks (idens : list Z) (cluster_idxs : list nat)
         (clusters : list (option (list Z))) (idx : nat) (n : nat)
         (tracks : gmap Z Track) : option (gmap Z Track) :=
  match n with
  | O => Some tracks
  | S n' =>
      iden ← idens !! idx;
      tr ← tracks !! iden;
      tracks' ←
        (if (cnt tr <=? 1)%Z then
           ci ← cluster_idxs !! idx;
           slot ← clusters !! ci;
           c ← slot;
           ms ← members tracks c;
           let aLeadK := members_aLeadK ms in
           let aLeadTau := members_aLeadTau ms in
           Some (<[iden := reset_a_lead tr aLeadK aLeadTau]> tracks)
         else Some tracks);
      reset_new_tracks idens cluster_idxs clusters (S idx) n' tracks'
  end.

(** [RadarD.update], lines 342-397: the object after the tracking and
    clustering steps, and [clusters].  The rest of the method (lines
    399-434) builds the [radarState] message from [clusters]; it does not
    assign to [self.tracks]. *)
Definition update_tracks
           (cluster_points_centroid : list (list Q) -> Q -> option (list nat))
           (self : RadarD) (sm : SubMaster.t) (points : list RadarPoint.t)
  : option (RadarD * list (option (list Z))) :=
  let current_time :=
    1e-9 * inject_Z (Z.max (SubMaster.logMonoTime_modelV2 sm)
                           (Z.max (SubMaster.logMonoTime_carState sm)
                                  (SubMaster.logMonoTime_lateralPlan sm))) in
  let '(v_ego, v_ego_hist) :=
    if SubMaster.updated_carState sm
    then (SubMaster.carState_vEgo sm,
          deque_append (maxlen self) (v_ego_hist self) (SubMaster.carState_vEgo sm))
    else (v_ego self, v_ego_hist self) in
  let ready := if SubMaster.updated_modelV2 sm then true else ready self in
  let ar_pts := ar_pts_of points in
  let tracks0 := remove_missing ar_pts (tracks self) in
  tracks1 ← track_points (kalman_params self) v_ego_hist tracks0 ar_pts;
  let idens := sorted_ids tracks1 in
  track_pts ← mapM (fun iden => get_key_for_cluster <$> tracks1 !! iden) idens;
  '(cluster_idxs, clusters) ← make_clusters cluster_points_centroid idens track_pts;
  tracks2 ← reset_new_tracks idens cluster_idxs clusters 0 (length track_pts) tracks1;
  Some (mkRadarD current_time tracks2 (kalman_params self) v_ego v_ego_hist
                 (maxlen self) ready,
        clusters).

(** [RadarD.__init__], as far as the attributes above go. *)
Definition RadarD_init (kp : KalmanParams) (delay : nat) : RadarD :=
  mkRadarD 0 ∅ kp 0 [0] (delay + 1) false.

(** *** Predicates used in the statements *)

(** The deque of ego speeds is never empty: it starts with one entry and
    has room for at least one. *)
Definition hist_ok (self : RadarD) : Prop :=
  v_ego_hist self <> [] /\ (0 < maxlen self)%nat.

(** The track ids of a radar reading. *)
Definition reading_ids (points : list RadarPoint.t) : gset Z :=
  list_to_set (RadarPoint.trackId <$> points).

(** The six arrays of a vision lead have an entry 0. *)
Definition has_entry0 (lead : LeadMsg.t) : Prop :=
  is_Some (LeadMsg.x lead !! 0%nat) /\ is_Some (LeadMsg.y lead !! 0%nat) /\
  is_Some (LeadMsg.v lead !! 0%nat) /\ is_Some (LeadMsg.xStd lead !! 0%nat) /\
  is_Some (LeadMsg.yStd lead !! 0%nat) /\ is_Some (LeadMsg.vStd lead !! 0%nat).

(** The six kinematic keys of a lead. *)
Definition kinematic_keys : list string :=
  ["dRel"; "vRel"; "vLead"; "vLeadK"; "aLeadK"; "aLeadTau"]%string.

End WithHelpers.

Arguments RadarD Track : clear implicits.
End Radard.

(** ** [selfdrive/controls/radard.py]: lead selection *)

Module RadardLeads.
Import NumpyFast Radard.

(** *** [KalmanParams.__init__] (lines 31-44) *)

Definition K0 : list Q :=
  [0.12288; 0.14557; 0.16523; 0.18282; 0.19887; 0.21372; 0.22761; 0.24069; 0.2531; 0.26491].
Definition K1 : list Q :=
  [0.29666; 0.29331; 0.29043; 0.28787; 0.28555; 0.28342; 0.28144; 0.27958; 0.27783; 0.27617].

(** [[dt * 0.01 for dt in range(1, 11)]] *)
Definition dts : list Q := (fun i => inject_Z i * 0.01) <$> seqZ 1 10.

(** A failed [assert] raises. *)
Definition KalmanParams_init (dt : Q) : option KalmanParams :=
  if Py.gtb dt 0.01 && Py.ltb dt 0.1 then
    k0 ← interp dt dts K0;
    k1 ← interp dt dts K1;
    Some (mkKalmanParams [[1; dt]; [0; 1]] [1; 0] [[k0]; [k1]])
  else None.

(** *** Constants *)

Definition LEAD_PATH_YREL_MAX_BP : list Q := [0].
Definition LEAD_PATH_YREL_MAX_V : list Q := [1.2].
Definition LEAD_PATH_YREL_LOW_TOL : Q := 0.5.
Definition LEAD_MAX_Y_REL : Q := 12.

(** [min(l, key=...)] on a non-empty list [best :: l]: the first item whose
    key is minimal. *)
Fixpoint min_by {A} (key : A -> Q) (best : A) (l : list A) : A :=
  match l with
  | [] => best
  | a :: l' => if Py.ltb (key a) (key best) then min_by key a l' else min_by key best l'
  end.

(** What [get_lead] uses of [radar_helpers.Cluster] beyond the attributes
    of [Helpers]: the call of [get_RadarState] with a model probability
    (line 232), the one whose [source] is read from a lead dict (line 255),
    [get_RadarState_from_vision] and [potential_low_speed_lead]. *)
Class LeadHelpers (Cluster : Type) := {
  get_RadarState_prob : Cluster -> Q -> string -> string -> LeadDict;
  get_RadarState_src : Cluster -> PyVal -> string -> LeadDict;
  get_RadarState_from_vision : LeadMsg.t -> Q -> LeadDict;
  potential_low_speed_lead : Cluster -> Q -> bool
}.

Section WithHelpers.
Context {Track Cluster FirstOrderFilter : Type} `{Hlp : Helpers Track Cluster FirstOrderFilter}.
Context `{LHlp : LeadHelpers Cluster}.

(** *** [match_model_path_to_cluster] and
        [match_model_lanelines_to_cluster] (lines 76-158)

    Lines 84-107 and lines 136-158 are the same text up to the polyline
    ([md.position] or the lane centre) and the speed threshold; they are
    modelled once, over the polyline [(xs, ys)]. *)

(** Lines 84-86 and 136-138: the clusters in range, each paired with its
    deviation from the polyline; the pair is written [(deviation, c)]. *)
Fixpoint close_path_clusters (xs ys : list Q) (clusters : list Cluster)
  : option (list (Q * Cluster)) :=
  match clusters with
  | [] => Some []
  | c :: cs =>
      x_last ← last xs;
      if Py.leb (dRel c) (Py.min x_last LEAD_MAX_DISTANCE)
         && Py.geb (dRel c) LEAD_PATH_DREL_MIN
         && Py.leb (Py.abs (yRel c)) LEAD_MAX_Y_REL
      then
        p ← interp (dRel c) xs ys;
        rest ← close_path_clusters xs ys cs;
        Some ((Py.abs (- yRel c - p), c) :: rest)
      else close_path_clusters xs ys cs
  end.

(** The comprehension of lines 87 and 139. *)
Fixpoint within_tolerance (l : list (Q * Cluster)) : option (list (Q * Cluster)) :=
  match l with
  | [] => Some []
  | c :: l' =>
      tol ← interp (dRel (snd c)) LEAD_PATH_YREL_MAX_BP LEAD_PATH_YREL_MAX_V;
      rest ← within_tolerance l';
      Some (if Py.leb (fst c) tol then c :: rest else rest)
  end.

(** The loop of lines 92-98 and 144-150. *)
Fixpoint closest_to_middle (cluster : Q * Cluster) (rest : list (Q * Cluster))
  : Q * Cluster :=
  match rest with
  | [] => cluster
  | c :: rest' =>
      if Py.leb (fst c) LEAD_PATH_YREL_LOW_TOL then
        closest_to_middle
          (if Py.ltb (dRel (snd c)) (dRel (snd cluster)) then c else cluster) rest'
      else cluster
  end.

(** Lines 84-107 with [min_speed = 8], lines 136-158 with
    [min_speed = -0.5]. *)
Definition match_candidates (xs ys : list Q) (min_speed v_ego : Q) (clusters : list Cluster)
  : option (option Cluster) :=
  close ← close_path_clusters xs ys clusters;
  close ← within_tolerance close;
  match sort_keyed close with
  | [] => Some None
  | c0 :: rest =>
      let cluster := snd (closest_to_middle c0 rest) in
      Some (if Py.gtb (v_ego + vRel cluster) min_speed then Some cluster else None)
  end.

Definition match_model_path_to_cluster (v_ego : Q) (md : option ModelV2.t)
           (clusters : list Cluster) : option (option Cluster) :=
  match md with
  | None => Some None
  | Some m =>
      let xs := XY.x (ModelV2.position m) in
      if negb (length xs =? TRAJECTORY_SIZE)%nat then Some None
      else
        x_last ← last xs;
        if Py.ltb x_last LEAD_PATH_DREL_MIN then Some None
        else match_candidates xs (XY.y (ModelV2.position m)) 8 v_ego clusters
  end.

Definition match_model_lanelines_to_cluster (v_ego : Q) (md : option ModelV2.t)
           (lane_width : Q) (clusters : list Cluster) : option (option Cluster) :=
  match md with
  | None => Some None
  | Some m =>
      if Py.ltb lane_width 2 then Some None
      else if (length clusters =? 0)%nat then Some None
      else if (length (ModelV2.laneLines m) <? 4)%nat then Some None
      else
        l1 ← ModelV2.laneLines m !! 1%nat;
        if negb (length (XY.x l1) =? TRAJECTORY_SIZE)%nat then Some None
        else
          let ll_x := XY.x l1 in
          let lll_y := XY.y l1 in
          l2 ← ModelV2.laneLines m !! 2%nat;
          let rll_y := XY.y l2 in
          l_prob ← ModelV2.laneLineProbs m !! 1%nat;
          r_prob ← ModelV2.laneLineProbs m !! 2%nat;
          c_y ← (if Py.gtb l_prob MIN_LANE_PROB && Py.gtb r_prob MIN_LANE_PROB then
                   sum ← np_add lll_y rll_y;
                   Some (Some ((fun v => v / 2) <$> (sum : list Q)))
                 else if Py.gtb l_prob MIN_LANE_PROB then
                   Some (Some ((fun v => v + lane_width / 2) <$> lll_y))
                 else if Py.gtb r_prob MIN_LANE_PROB then
                   Some (Some ((fun v => v - lane_width / 2) <$> rll_y))
                 else Some None);
          match c_y with
          | None => Some None
          | Some c_y => match_candidates ll_x c_y (-0.5) v_ego clusters
          end
  end.

(** *** [get_lead] (lines 223-257) *)

(** [{'status': False, 'source': 'radar'}] *)
Definition default_lead : LeadDict :=
  <["status"%string := VBool false]> (<["source"%string := VStr "radar"]> ∅).

(** [lead_msg is not None and lead_msg.prob > .5]; the message when the
    condition holds. *)
Definition confident (lead_msg : option LeadMsg.t) : option LeadMsg.t :=
  match lead_msg with
  | Some l => if Py.gtb (LeadMsg.prob l) 0.5 then Some l else None
  | None => None
  end.

(** Lines 236-245: the lead found along the model path or, failing that,
    along the lane lines. *)
Definition model_based_lead (v_ego : Q) (clusters : list Cluster) (md : option ModelV2.t)
           (lane_width : Q) : option LeadDict :=
  match md with
  | None => Some default_lead
  | Some _ =>
      c1 ← match_model_path_to_cluster v_ego md clusters;
      match c1 with
      | Some c => Some (get_RadarState c "vision" "modelPath")
      | None =>
          c2 ← match_model_lanelines_to_cluster v_ego md lane_width clusters;
          Some (match c2 with
                | Some c => get_RadarState c "vision" "modelLaneLines"
                | None => default_lead
                end)
      end
  end.

(** Lines 248-255. *)
Definition low_speed (v_ego : Q) (clusters : list Cluster) (lead_dict : LeadDict)
  : option LeadDict :=
  match List.filter (fun c => potential_low_speed_lead c v_ego) clusters with
  | [] => Some lead_dict
  | c0 :: cs =>
      let closest_cluster := min_by dRel c0 cs in
      closer ← Py.orM (st ← lead_dict !! "status"%string; Some (negb (truthy st)))
                      (d ← num lead_dict "dRel"; Some (Py.ltb (dRel closest_cluster) d));
      if (closer : bool) then
        src ← lead_dict !! "source"%string;
        Some (get_RadarState_src closest_cluster src "lowSpeedOverride")
      else Some lead_dict
  end.

Definition get_lead (v_ego : Q) (ready : bool) (clusters : list Cluster)
           (lead_msg : option LeadMsg.t) (low_speed_override : bool)
           (md : option ModelV2.t) (lane_width : Q) : option LeadDict :=
  cluster ← (match confident lead_msg with
             | Some l =>
                 if (0 <? length clusters)%nat && ready
                 then match_vision_to_cluster v_ego l clusters
                 else Some None
             | None => Some None
             end);
  lead_dict ←
    (match cluster with
     | Some c =>
         p ← LeadMsg.prob <$> lead_msg;
         Some (get_RadarState_prob c p "radar" "modelLead")
     | None =>
         match (if ready then confident lead_msg else None) with
         | Some l => Some (get_RadarState_from_vision l v_ego)
         | None => model_based_lead v_ego clusters md lane_width
         end
     end);
  if low_speed_override then low_speed v_ego clusters lead_dict
  else Some lead_dict.

(** *** Predicates used in the statements *)

(** The gates of lines 84-87 (136-139) on a cluster, for the polyline
    [(xs, ys)]. *)
Definition on_path (xs ys : list Q) (c : Cluster) : Prop :=
  LEAD_PATH_DREL_MIN <= dRel c <= LEAD_MAX_DISTANCE /\
  (exists x_last, last xs = Some x_last /\ dRel c <= x_last) /\
  Py.abs (yRel c) <= LEAD_MAX_Y_REL /\
  exists p, interp (dRel c) xs ys = Some p /\ Py.abs (- yRel c - p) <= 1.2.

(** The leads [get_lead] can build from the cluster list [clusters]. *)
Definition built_from (clusters : list Cluster) (ld : LeadDict) : Prop :=
  exists c, c ∈ clusters /\
            ((exists p, ld = get_RadarState_prob c p "radar" "modelLead") \/
             (exists cs, ld = get_RadarState c "vision" cs) \/
             (exists src, ld = get_RadarState_src c src "lowSpeedOverride")).

End WithHelpers.
End RadardLeads.

(** ** Vocabulary for statements about the radar fusion *)

Module RadardSpec.
Import NumpyFast Radard.

(** The lead carries the lateral offset [dp] under ["dPath"]. *)
Definition dPath_is (ld : LeadDict) (dp : Q) : Prop :=
  ld !! "dPath"%string = Some (VNum dp).

(** The condition of line 211 for the centre list, and the sides of the
    two other lists. *)
Definition in_lane (half_lane_width : Q) (ld : LeadDict) : Prop :=
  exists dp vk, dPath_is ld dp /\ Py.abs dp < half_lane_width /\
                num ld "vLeadK" = Some vk /\ -1 < vk.

Definition left_of_path (ld : LeadDict) : Prop := exists dp, dPath_is ld dp /\ dp < 0.
Definition right_of_path (ld : LeadDict) : Prop := exists dp, dPath_is ld dp /\ 0 <= dp.

(** An item of one of the three dicts: the key is [abs(dPath)] of the
    lead, as a number. *)
Definition keyed_by_dPath (kv : Q * LeadDict) : Prop :=
  exists dp, dPath_is (snd kv) dp /\ fst kv == Py.abs dp.

(** [abs(ld["dPath"])] *)
Definition abs_dPath (ld : LeadDict) : option Q := dp ← num ld "dPath"; Some (Py.abs dp).

(** The leads of [l] have the key [key], in non-decreasing order. *)
Definition ordered_by (key : LeadDict -> option Q) (l : list LeadDict) : Prop :=
  exists ks, mapM key l = Some ks /\ StronglySorted Qle ks.

(** The track ids held by the clusters, slot by slot. *)
Definition cluster_ids (clusters : list (option (list Z))) : list Z :=
  concat (from_option id [] <$> clusters).

Section WithHelpers.
Context {Track Cluster FirstOrderFilter : Type} `{Hlp : Helpers Track Cluster FirstOrderFilter}.

(** The filters of a [LongRangeLead], in the order of [kinematic_keys]. *)
Definition filters (self : LongRangeLead.t FirstOrderFilter) : list FirstOrderFilter :=
  [LongRangeLead.dRel self; LongRangeLead.vRel self; LongRangeLead.vLead self;
   LongRangeLead.vLeadK self; LongRangeLead.aLeadK self; LongRangeLead.aLeadTau self].

End WithHelpers.
End RadardSpec.

(** ** Concrete collaborators and inputs

    A small set of collaborators and inputs on which the model is evaluated
    in the examples below. *)

Module GMInputs.
Import NumpyFast GM.

(** A PID stand-in: unit proportional gain with feed-forward, saturated at
    the limits [-3.5] and [0] that [__init__] sets; its state counts the
    updates since the last reset.  The torque limiter allows a change of at
    most 7 per step.  The threshold method computes the threshold [th]
    from the speed and leaves the breakpoints [[th, max(0, th), 2]] and
    [[-4, th]] in [P]. *)
#[export] Instance collaborators : Collaborators nat := {|
  pid_reset := fun _ => 0%nat;
  pid_update := fun n setpoint measurement speed feedforward =>
                  (clip (feedforward + (setpoint - measurement)) (-3.5) 0, S n);
  apply_std_steer_torque_limits := fun new_steer last _ _ =>
                  Z.max (last - 7) (Z.min (last + 7) new_steer);
  update_gas_brake_threshold := fun P v _ =>
                  let th := - 0.1 - v / 100 in
                  (th, set_lookup_bp P [th; Py.max 0 th; 2] [-4; th]);
  threshold_keeps_constants := fun _ _ _ => eq_refl;
  DT_CTRL := 0.01;
  MPH_TO_MS := 0.44704;
  KPH_TO_MS := 1 / 3.6;
  MS_TO_KPH := 3.6;
  ACCELERATION_DUE_TO_GRAVITY := 9.81;
  COAST_SOURCES := ["cruise"; "limit"]%string;
  AccState_STANDSTILL := 4
|}.

Definition P0 : CarControllerParams :=
  {| STEER_STEP := 2; STEER_MAX := 300; MIN_STEER_SPEED := 3;
     MAX_ACC_REGEN := 1404; ZERO_GAS := 2048; NEAR_STOP_BRAKE_PHASE := 0.5;
     ADAS_KEEPALIVE_STEP := 100; CAMERA_KEEPALIVE_STEP := 100;
     GAS_LOOKUP_BP := [-1; 0; 2]; GAS_LOOKUP_V := [1404; 2048; 3072]%Z;
     BRAKE_LOOKUP_BP := [-4; -1]; BRAKE_LOOKUP_V := [350; 0]%Z;
     v_ego := 0 |}.

(** A car state at speed [v] with acceleration [a]; [counter] is the
    loopback counter, [opm] and [allowed] the one-pedal flags, [hold] the
    three auto-hold flags.  No lead is present ([coasting_lead_d = 0]). *)
Definition CS0 (counter : Z) (v a : Q) (opm allowed hold : bool) : CarState :=
  {| lka_steering_cmd_counter := counter;
     pause_long_on_gas_press := false;
     lkMode := true;
     out_steerWarning := false;
     out_steerError := false;
     out_vEgo := v;
     out_aEgo := a;
     out_steeringTorque := 0;
     out_cruiseState_enabled := true;
     out_gasPressed := false;
     out_gearShifter := "drive";
     out_brake := 0;
     lane_change_steer_factor := 1;
     vEgo := v;
     engineRPM := 0;
     pitch := 0;
     angle_steers := 0;
     gear_shifter_ev := 3;
     one_pedal_mode_active := opm;
     coast_one_pedal_mode_active := false;
     one_pedal_mode_op_braking_allowed := allowed;
     one_pedal_dl_coasting_enabled := false;
     one_pedal_brake_mode := 0;
     one_pedal_angle_steers_cutoff_bp := [60; 270];
     coasting_lead_d := 0;
     coasting_lead_v := 0;
     tr := 1.8;
     lead_v_rel_long_gas_lockout_bp := [-5; -2];
     lead_v_rel_long_gas_lockout_v := [1; 0];
     lead_v_long_gas_lockout_bp := [2; 4];
     lead_v_long_gas_lockout_v := [1; 0];
     lead_ttc_long_gas_lockout_bp := [3; 6];
     lead_ttc_long_gas_lockout_v := [1; 0];
     lead_tr_long_gas_lockout_bp := [1; 2];
     lead_tr_long_gas_lockout_v := [1; 0];
     lead_d_long_gas_lockout_bp := [10; 20];
     lead_d_long_gas_lockout_v := [1; 0];
     lead_v_rel_long_brake_lockout_bp := [-5; -2];
     lead_v_rel_long_brake_lockout_v := [1; 0];
     lead_v_long_brake_lockout_bp := [2; 4];
     lead_v_long_brake_lockout_v := [1; 0];
     lead_ttc_long_brake_lockout_bp := [3; 6];
     lead_ttc_long_brake_lockout_v := [1; 0];
     lead_tr_long_brake_lockout_bp := [1; 2];
     lead_tr_long_brake_lockout_v := [1; 0];
     lead_d_long_brake_lockout_bp := [10; 20];
     lead_d_long_brake_lockout_v := [1; 0];
     coasting_enabled := false;
     coasting_long_plan := "cruise";
     coasting_brake_over_speed_enabled := true;
     coasting_over_speed_vEgo_BP_BP := [10; 30];
     coasting_over_speed_vEgo_BP := [[1.1; 1.05]; [1.3; 1.2]];
     coasting_over_speed_regen_vEgo_BP := [[1.05; 1.02]; [1.2; 1.1]];
     speed_limit := 0;
     speed_limit_active := false;
     v_cruise_kph := 100;
     no_friction_braking := false;
     showBrakeIndicator := true;
     hvb_wattage := 0;
     hvb_wattage_bp := [0; 53];
     is_ev := true;
     cruiseMain := hold;
     autoHold := hold;
     autoHoldActive := hold;
     regenPaddlePressed := false;
     pcm_acc_status := 1;
     do_sng := false;
     follow_level := 2;
     lkas_status := 1 |}.

Definition W0 : CarStateW :=
  {| one_pedal_mode_active_last := false; coast_one_pedal_mode_active_last := false;
     brake_cmd := 0; apply_brake_percent := 0; autoHoldActivated := false;
     resume_button_pressed := false; resume_required := false |}.

Definition act0 : Actuators := {| steer := 0.1; accel := 0; accelPitchCompensated := 0 |}.

(** The controller as constructed, and after a first tick has recorded the
    loopback counter [0]. *)
Definition self0 : CarController nat := init P0 0%nat.
Definition self1 : CarController nat := set_counter_last self0 0.

(** A controller in the middle of one-pedal braking at 1.5 m/s^2. *)
Definition self2 : CarController nat := set_long self1 0%nat (-1.5) (-1.5) 1404 0.

(** One call of [update] with the HUD arguments fixed. *)
Definition tick (self : CarController nat) (enabled : bool) (CS : CarState) (frame : Z) (t : Q)
  : option (CarController nat * CarStateW * list CanSend) :=
  update self enabled CS W0 frame act0 30 true true VA_none t.

(** What a call leaves in the steering attributes and which steering
    frames it returns. *)
Definition steering_view (r : option (CarController nat * CarStateW * list CanSend))
  : option (Z * Z * list CanSend) :=
  (fun '(s, _, sends) =>
     (apply_steer_last s, lka_steering_cmd_counter_last s,
      List.filter is_steering_control sends)) <$> r.


Definition decel_view (r : option (CarController nat * CarStateW * list CanSend))
  : option (Q * Q) :=
  (fun '(s, _, _) => (one_pedal_decel s, one_pedal_decel_in s)) <$> r.

(** The parameters after the call. *)
Definition params_view (r : option (CarController nat * CarStateW * list CanSend))
  : option CarControllerParams :=
  (fun '(s, _, _) => params s) <$> r.

(** A second call on the state left by a first one. *)
Definition then_tick (r : option (CarController nat * CarStateW * list CanSend))
           (enabled : bool) (CS : CarState) (frame : Z) (t : Q)
  : option (CarController nat * CarStateW * list CanSend) :=
  '(s, W, _) ← r; update s enabled CS W frame act0 30 true true VA_none t.

End GMInputs.

Module RadardInputs.
Import NumpyFast Radard.

Record ExTrack := mkExTrack {
  t_dRel : Q; t_yRel : Q; t_vRel : Q; t_vLead : Q;
  t_aLeadK : Q; t_aLeadTau : Q; t_cnt : Z; t_measured : bool
}.

Record ExCluster := mkExCluster {
  c_dRel : Q; c_yRel : Q; c_vRel : Q; c_vLead : Q;
  c_vLeadK : Q; c_aLeadK : Q; c_aLeadTau : Q
}.

Record ExFilter := mkExFilter { f_x : Q; f_alpha : Q; f_dt : Q; f_initialized : bool }.

Definition mean (l : list Q) : Q :=
  fold_right Qplus 0 l / inject_Z (Z.of_nat (length l)).

(** Stand-ins for the imported code.  [exp] is replaced by the rational
    function [1 / (1 - q)], which like [exp] is positive and increasing on
    the non-positive numbers and equals 1 at 0; [sqrt] by the identity.  A
    track keeps the last measurement and counts its updates; a cluster
    exposes the means of its tracks; [get_RadarState] copies the kinematic
    fields of a cluster into a lead dict; the filter is a first-order
    low-pass that takes its first sample as is. *)
#[export] Instance helpers : Helpers ExTrack ExCluster ExFilter := {|
  exp := fun q => 1 / (1 - q);
  sqrt := fun q => q;
  RADAR_TO_CAMERA := 1.52;
  TRAJECTORY_SIZE := 33;
  Track_new := fun v_lead _ => mkExTrack 0 0 0 v_lead 0 1.5 0 false;
  Track_update := fun tr d y v v_lead measured =>
    mkExTrack d y v v_lead (t_aLeadK tr) (t_aLeadTau tr) (t_cnt tr + 1) measured;
  get_key_for_cluster := fun tr => [t_dRel tr; t_yRel tr * 2; t_vRel tr];
  cnt := t_cnt;
  reset_a_lead := fun tr aLeadK aLeadTau =>
    mkExTrack (t_dRel tr) (t_yRel tr) (t_vRel tr) (t_vLead tr) aLeadK aLeadTau
              (t_cnt tr) (t_measured tr);
  members_aLeadK := fun ms => mean (t_aLeadK <$> ms);
  members_aLeadTau := fun ms => mean (t_aLeadTau <$> ms);
  dRel := c_dRel;
  yRel := c_yRel;
  vRel := c_vRel;
  get_RadarState := fun c source checkSource =>
    list_to_map
      [("status", VBool true); ("source", VStr source); ("checkSource", VStr checkSource);
       ("dRel", VNum (c_dRel c)); ("yRel", VNum (c_yRel c)); ("vRel", VNum (c_vRel c));
       ("vLead", VNum (c_vLead c)); ("vLeadK", VNum (c_vLeadK c));
       ("aLeadK", VNum (c_aLeadK c)); ("aLeadTau", VNum (c_aLeadTau c));
       ("modelProb", VNum 0)]%string;
  FirstOrderFilter_new := fun x0 rc dt initialized => mkExFilter x0 (dt / (rc + dt)) dt initialized;
  update_alpha := fun f rc => mkExFilter (f_x f) (f_dt f / (rc + f_dt f)) (f_dt f) (f_initialized f);
  filter_update := fun f x =>
    if f_initialized f
    then mkExFilter ((1 - f_alpha f) * f_x f + f_alpha f * x) (f_alpha f) (f_dt f) true
    else mkExFilter x (f_alpha f) (f_dt f) true;
  filter_x := f_x;
  set_initialized := fun f b => mkExFilter (f_x f) (f_alpha f) (f_dt f) b
|}.

(** Two cars in the left neighbouring lane, one behind the other, both 3 m
    to the side of a straight model path. *)
Definition near_car : ExCluster := mkExCluster 10 3 0 20 20 0 1.5.
Definition far_car : ExCluster := mkExCluster 20 3 0 20 20 0 1.5.

(** A car next to where the vision lead below is seen. *)
Definition matching_car : ExCluster := mkExCluster 38 0 (-5) 25 25 0 1.5.

Definition straight_path : ModelV2.t :=
  ModelV2.mk [] (XY.mk [0; 100] [0; 0]) [] [].

(** A vision lead 40 m ahead with zero standard deviations. *)
Definition lead_zero_std : LeadMsg.t :=
  LeadMsg.mk [40] [0] [25] [0] [0] [0] 0.9.

(** A lead validated by the vision model, 150 m ahead. *)
Definition model_lead : LeadDict :=
  list_to_map
    [("status", VBool true); ("source", VStr "radar"); ("checkSource", VStr "modelLead");
     ("dRel", VNum 150); ("yRel", VNum 0.3); ("vRel", VNum (-2));
     ("vLead", VNum 28); ("vLeadK", VNum 28);
     ("aLeadK", VNum 0); ("aLeadTau", VNum 1.5); ("modelProb", VNum 0.9)]%string.

(** A long-range filter that has already smoothed some other lead. *)
Definition used_filter : LongRangeLead.t ExFilter :=
  let f := mkExFilter 100 0.5 0.05 true in
  LongRangeLead.mk None f f f f f f.

Definition kp0 : KalmanParams := mkKalmanParams [[1; 0.05]; [0; 1]] [1; 0] [[0.2]; [0.28]].

Definition sm0 : SubMaster.t := SubMaster.mk 3 2 1 true true 30.

(** A radar object with tracks 3 and 7, and readings. *)
Definition radar0 : RadarD ExTrack :=
  mkRadarD 0 (<[3%Z := mkExTrack 50 0 0 30 0 1.5 4 true]>
              (<[7%Z := mkExTrack 80 1 0 30 0 1.5 9 true]> ∅))
           kp0 30 [30] 1 true.

Definition point7 : RadarPoint.t := RadarPoint.mk 7 79 1 (-1) true.

(** The three lists of [get_path_adjacent_leads] seen through the entries
    [dRel] and [dPath] of their leads. *)
Definition adjacent_view (r : option (list LeadDict * list LeadDict * list LeadDict))
  : option (list (option Q * option Q) * list (option Q * option Q)
            * list (option Q * option Q)) :=
  let v := fun ld : LeadDict => (num ld "dRel", num ld "dPath") in
  match r with
  | Some (ll, lc, lr) => Some (List.map v ll, List.map v lc, List.map v lr)
  | None => None
  end.

(** A clustering primitive that never returns. *)
Definition hangs (_ : list (list Q)) (_ : Q) : option (list nat) := None.

End RadardInputs.

(** ** Further car states *)

Module GMScenes.
Import NumpyFast GM GMInputs.

(** A car state at 10 m/s with one-pedal mode off: [coast] is the
    coast-one-pedal flag, [allowed] the op-braking flag, [gear] the EV gear
    (4 is L, where D/L coasting applies), [lead_d] the distance of a
    standing lead (0 for none), [follow] the follow time [CS.tr], [pcm] the
    ACC state and [sng] the stop-and-go flag. *)
Definition CS1 (coast allowed : bool) (gear : Z) (lead_d follow : Q) (pcm : Z) (sng : bool)
  : CarState :=
  {| lka_steering_cmd_counter := 0;
     pause_long_on_gas_press := false;
     lkMode := true;
     out_steerWarning := false;
     out_steerError := false;
     out_vEgo := 10;
     out_aEgo := 0;
     out_steeringTorque := 0;
     out_cruiseState_enabled := true;
     out_gasPressed := false;
     out_gearShifter := "drive";
     out_brake := 0;
     lane_change_steer_factor := 1;
     vEgo := 10;
     engineRPM := 0;
     pitch := 0;
     angle_steers := 0;
     gear_shifter_ev := gear;
     one_pedal_mode_active := false;
     coast_one_pedal_mode_active := coast;
     one_pedal_mode_op_braking_allowed := allowed;
     one_pedal_dl_coasting_enabled := true;
     one_pedal_brake_mode := 0;
     one_pedal_angle_steers_cutoff_bp := [60; 270];
     coasting_lead_d := lead_d;
     coasting_lead_v := 0;
     tr := follow;
     lead_v_rel_long_gas_lockout_bp := [-5; -2];
     lead_v_rel_long_gas_lockout_v := [1; 0];
     lead_v_long_gas_lockout_bp := [2; 4];
     lead_v_long_gas_lockout_v := [1; 0];
     lead_ttc_long_gas_lockout_bp := [3; 6];
     lead_ttc_long_gas_lockout_v := [1; 0];
     lead_tr_long_gas_lockout_bp := [1; 2];
     lead_tr_long_gas_lockout_v := [1; 0];
     lead_d_long_gas_lockout_bp := [10; 20];
     lead_d_long_gas_lockout_v := [1; 0];
     lead_v_rel_long_brake_lockout_bp := [-5; -2];
     lead_v_rel_long_brake_lockout_v := [1; 0];
     lead_v_long_brake_lockout_bp := [2; 4];
     lead_v_long_brake_lockout_v := [1; 0];
     lead_ttc_long_brake_lockout_bp := [3; 6];
     lead_ttc_long_brake_lockout_v := [1; 0];
     lead_tr_long_brake_lockout_bp := [1; 2];
     lead_tr_long_brake_lockout_v := [1; 0];
     lead_d_long_brake_lockout_bp := [10; 20];
     lead_d_long_brake_lockout_v := [1; 0];
     coasting_enabled := false;
     coasting_long_plan := "cruise";
     coasting_brake_over_speed_enabled := true;
     coasting_over_speed_vEgo_BP_BP := [10; 30];
     coasting_over_speed_vEgo_BP := [[1.1; 1.05]; [1.3; 1.2]];
     coasting_over_speed_regen_vEgo_BP := [[1.05; 1.02]; [1.2; 1.1]];
     speed_limit := 0;
     speed_limit_active := false;
     v_cruise_kph := 100;
     no_friction_braking := false;
     showBrakeIndicator := true;
     hvb_wattage := 0;
     hvb_wattage_bp := [0; 53];
     is_ev := true;
     cruiseMain := false;
     autoHold := false;
     autoHoldActive := false;
     regenPaddlePressed := false;
     pcm_acc_status := pcm;
     do_sng := sng;
     follow_level := 2;
     lkas_status := 1 |}.

(** A lead standing 30 m ahead while the follow time reads 0. *)
Definition CS_zero_tr : CarState := CS1 false true 3 30 0 1 false.

(** Standstill reported by the ACC (state 4) with stop-and-go set. *)
Definition CS_resume : CarState := CS1 false true 3 0 1.8 4 true.

(** Coast-one-pedal mode in L, op-braking not allowed. *)
Definition CS_coast : CarState := CS1 true false 4 0 1.8 1 false.

(** The planner asks for 2 m/s^2 of braking. *)
Definition act_brake : Actuators :=
  {| steer := 0.1; accel := -2; accelPitchCompensated := -2 |}.

Definition tick_with (self : CarController nat) (enabled : bool) (CS : CarState)
           (actuators : Actuators) (frame : Z)
  : option (CarController nat * CarStateW * list CanSend) :=
  update self enabled CS W0 frame actuators 30 true true VA_none 5.

End GMScenes.

(** ** Further radar inputs *)

Module RadardScenes.
Import NumpyFast Radard RadardLeads RadardInputs.

(** Stand-ins for the rest of [radar_helpers.Cluster]: the model
    probability and the source are written into the lead; a lead built
    from vision alone takes its kinematics from the vision message; a
    cluster is a potential low-speed lead when it is close, nearly straight
    ahead, and the car is slow. *)
#[export] Instance lead_helpers : LeadHelpers ExCluster := {|
  get_RadarState_prob := fun c p source checkSource =>
    <["modelProb"%string := VNum p]> (get_RadarState c source checkSource);
  get_RadarState_src := fun c src checkSource =>
    <["source"%string := src]> (get_RadarState c "radar" checkSource);
  get_RadarState_from_vision := fun l v_ego =>
    list_to_map
      [("status", VBool true); ("source", VStr "vision"); ("checkSource", VStr "modelLead");
       ("dRel", VNum (default 0 (LeadMsg.x l !! 0%nat) - RADAR_TO_CAMERA));
       ("yRel", VNum (- default 0 (LeadMsg.y l !! 0%nat)));
       ("vRel", VNum (default 0 (LeadMsg.v l !! 0%nat) - v_ego));
       ("vLead", VNum (default 0 (LeadMsg.v l !! 0%nat)));
       ("vLeadK", VNum (default 0 (LeadMsg.v l !! 0%nat)));
       ("aLeadK", VNum 0); ("aLeadTau", VNum 0.3);
       ("modelProb", VNum (LeadMsg.prob l))]%string;
  potential_low_speed_lead := fun c v_ego =>
    Py.ltb (Py.abs (c_yRel c)) 1.5 && Py.ltb v_ego 4 && Py.ltb (c_dRel c) 25
|}.

(** A model message with a straight path of 33 points reaching 160 m and
    four straight lane lines, the ego lane 3.7 m wide. *)
Definition xs33 : list Q := (fun i => inject_Z i * 5) <$> seqZ 0 33.

Definition line33 (y : Q) : XY.t := XY.mk xs33 (replicate 33 y).

Definition long_model : ModelV2.t :=
  ModelV2.mk [] (line33 0) [line33 5.55; line33 1.85; line33 (-1.85); line33 (-5.55)]
             [0.9; 0.9; 0.9; 0.9].


(** A car 100 m ahead, half a metre to the side, 5 m/s slower. *)
Definition distant_car : ExCluster := mkExCluster 100 0.5 (-5) 25 25 0 1.5.

(** A car in the right neighbouring lane. *)
Definition right_car : ExCluster := mkExCluster 15 (-3) 0 20 20 0 1.5.

(** A lead found along the model path, 150 m ahead. *)
Definition path_lead : LeadDict :=
  list_to_map
    [("status", VBool true); ("source", VStr "vision"); ("checkSource", VStr "modelPath");
     ("dRel", VNum 150); ("yRel", VNum 0.3); ("vRel", VNum (-2));
     ("vLead", VNum 28); ("vLeadK", VNum 28);
     ("aLeadK", VNum 0); ("aLeadTau", VNum 1.5); ("modelProb", VNum 0)]%string.

Definition point3 : RadarPoint.t := RadarPoint.mk 3 51 0 (-1) true.

(** A clustering primitive that leaves every point alone. *)
Definition each_alone (pts : list (list Q)) (_ : Q) : option (list nat) :=
  Some (seq 0 (length pts)).

(** The cluster lists of an [update_tracks] result. *)
Definition clusters_view (r : option (RadarD ExTrack * list (option (list Z))))
  : option (list (option (list Z))) := snd <$> r.

End RadardScenes.

(** * Facts *)

(** ** Comparisons, rounding and interpolation *)

Module PyFacts.

Lemma ltb_true a b : Py.ltb a b = true <-> a < b.
Proof.
  unfold Py.ltb. rewrite negb_true_iff, <- not_true_iff_false, Qle_bool_iff.
  split; [apply Qnot_le_lt | apply Qlt_not_le].
Qed.

Lemma ltb_false a b : Py.ltb a b = false <-> b <= a.
Proof. unfold Py.ltb. rewrite negb_false_iff. apply Qle_bool_iff. Qed.

Lemma gtb_true a b : Py.gtb a b = true <-> b < a.
Proof. apply ltb_true. Qed.

Lemma gtb_false a b : Py.gtb a b = false <-> a <= b.
Proof. apply ltb_false. Qed.

Lemma max_cases a b : (Py.max a b = a /\ b <= a) \/ (Py.max a b = b /\ a < b).
Proof.
  unfold Py.max. destruct (Py.ltb a b) eqn:E.
  - right. split; [reflexivity | now apply ltb_true].
  - left. split; [reflexivity | now apply ltb_false].
Qed.

Lemma min_cases a b : (Py.min a b = a /\ a <= b) \/ (Py.min a b = b /\ b < a).
Proof.
  unfold Py.min. destruct (Py.ltb b a) eqn:E.
  - right. split; [reflexivity | now apply ltb_true].
  - left. split; [reflexivity | now apply ltb_false].
Qed.

Lemma max_ge_r a b : b <= Py.max a b.
Proof. destruct (max_cases a b) as [[-> H]|[-> H]]; lra. Qed.

Lemma max_ge_l a b : a <= Py.max a b.
Proof. destruct (max_cases a b) as [[-> H]|[-> H]]; lra. Qed.

Lemma max_between lo hi a b :
  lo <= a <= hi -> lo <= b <= hi -> lo <= Py.max a b <= hi.
Proof. intros. destruct (max_cases a b) as [[-> ?]|[-> ?]]; lra. Qed.

(** [int(round(x))] stays within integer bounds of [x]. *)
Lemma round_lower (lo : Z) x : inject_Z lo <= x -> (lo <= Py.round x)%Z.
Proof.
  intros H. assert (lo <= Qfloor x)%Z by (now apply Qfloor_resp_le in H; rewrite Qfloor_Z in H).
  unfold Py.round. destruct (Qcompare _ _); [destruct (Z.even _) | |]; lia.
Qed.

Lemma round_upper (hi : Z) x : x <= inject_Z hi -> (Py.round x <= hi)%Z.
Proof.
  intros H. unfold Py.round.
  pose proof (Qfloor_le x) as Hfl.
  destruct (Qcompare (x - inject_Z (Qfloor x)) (1 # 2)) eqn:E.
  - apply Qeq_alt in E.
    assert (Qfloor x < hi)%Z.
    { rewrite Zlt_Qlt. lra. }
    destruct (Z.even _); lia.
  - apply Qfloor_resp_le in H. rewrite Qfloor_Z in H. lia.
  - apply Qgt_alt in E.
    assert (Qfloor x < hi)%Z.
    { rewrite Zlt_Qlt. lra. }
    lia.
Qed.

Lemma round_between (lo hi : Z) x :
  inject_Z lo <= x <= inject_Z hi -> (lo <= Py.round x <= hi)%Z.
Proof. intros [? ?]; split; [now apply round_lower | now apply round_upper]. Qed.

Lemma round_inject (z : Z) : Py.round (inject_Z z) = z.
Proof.
  unfold Py.round. rewrite Qfloor_Z.
  replace (Qcompare (inject_Z z - inject_Z z) (1 # 2)) with Lt; [reflexivity|].
  symmetry. rewrite <- Qlt_alt. lra.
Qed.

End PyFacts.

Module InterpFacts.
Import NumpyFast.

(** The scan stops at the first breakpoint that is not below [x]. *)
Lemma interp_hi_spec x xp : forall k,
  let h := interp_hi x xp k in
  (k <= h <= k + length xp)%nat /\
  (forall j p, (j < h - k)%nat -> xp !! j = Some p -> p < x) /\
  (forall p, xp !! (h - k)%nat = Some p -> x <= p).
Proof.
  induction xp as [|q xp IH]; intros k; cbn [interp_hi].
  - cbn. repeat split; intros; try lia. now rewrite lookup_nil in H.
  - destruct (Py.gtb x q) eqn:E.
    + specialize (IH (S k)). cbn zeta in IH. destruct IH as ((Hk1 & Hk2) & Hlt & Hge).
      cbn [length]. repeat split; try lia.
      * intros j p Hj Hp. destruct j as [|j]; cbn in Hp.
        -- inversion Hp; subst. now apply PyFacts.gtb_true.
        -- apply (Hlt j p); [lia | exact Hp].
      * intros p Hp.
        replace (interp_hi x xp (S k) - k)%nat with (S (interp_hi x xp (S k) - S k)) in Hp by lia.
        cbn in Hp. now apply Hge.
    + cbn [length]. repeat split; try lia.
      intros p Hp. replace (k - k)%nat with 0%nat in Hp by lia. cbn in Hp.
      inversion Hp; subst. now apply PyFacts.gtb_false.
Qed.

(** A point on the segment between two values lies between any bounds of
    the two values. *)
Lemma segment_between lo hi x xl xh fl fh :
  xl < x -> x <= xh -> lo <= fl <= hi -> lo <= fh <= hi ->
  lo <= (x - xl) * (fh - fl) / (xh - xl) + fl <= hi.
Proof.
  intros Hl Hh [Hfl1 Hfl2] [Hfh1 Hfh2].
  assert (Hd : 0 < xh - xl) by lra.
  set (tq := (x - xl) / (xh - xl)).
  assert (Ht : 0 <= tq <= 1).
  { unfold tq. split.
    - apply Qle_shift_div_l; [exact Hd | lra].
    - apply Qle_shift_div_r; [exact Hd | lra]. }
  assert (E : (x - xl) * (fh - fl) / (xh - xl) + fl == tq * fh + (1 - tq) * fl).
  { unfold tq. field. lra. }
  rewrite E. destruct Ht as [Ht0 Ht1]. split; nra.
Qed.

(** Edge clamping: the interpolated value lies between any bounds that
    hold for every entry of the value table. *)
Lemma interp_between lo hi x xp fp r :
  Forall (fun v => lo <= v <= hi) fp ->
  interp x xp fp = Some r -> lo <= r <= hi.
Proof.
  intros Hfp. rewrite Forall_lookup in Hfp.
  unfold interp. pose proof (interp_hi_spec x xp 0) as Hs. cbn zeta in Hs.
  set (h := interp_hi x xp 0) in *. destruct Hs as (_ & Hlt & Hge).
  rewrite Nat.sub_0_r in *.
  destruct (h =? length xp)%nat.
  - destruct (last xp); cbn; [|discriminate].
    rewrite last_lookup. intros H. eapply Hfp, H.
  - destruct (h =? 0)%nat eqn:E0.
    + intros H. eapply Hfp, H.
    + apply Nat.eqb_neq in E0.
      destruct (xp !! (h - 1)%nat) as [xl|] eqn:Exl; cbn; [|discriminate].
      destruct (xp !! h) as [xh|] eqn:Exh; cbn; [|discriminate].
      destruct (fp !! (h - 1)%nat) as [fl|] eqn:Efl; cbn; [|discriminate].
      destruct (fp !! h) as [fh|] eqn:Efh; cbn; [|discriminate].
      intros [= <-]. apply segment_between.
      * apply (Hlt (h - 1)%nat); [lia | exact Exl].
      * now apply Hge.
      * eapply Hfp, Efl.
      * eapply Hfp, Efh.
Qed.

Lemma clip_upper x lo hi : lo <= hi -> clip x lo hi <= hi.
Proof.
  intros H. unfold clip.
  destruct (PyFacts.max_cases lo (Py.min hi x)) as [[-> ?]|[-> ?]]; [lra|].
  destruct (PyFacts.min_cases hi x) as [[-> ?]|[-> ?]]; lra.
Qed.

Lemma clip_lower x lo hi : lo <= clip x lo hi.
Proof. unfold clip. apply PyFacts.max_ge_l. Qed.

Lemma list_upper_bound (fp : list Q) : exists hi, Forall (fun v => v <= hi) fp.
Proof.
  induction fp as [|a fp [hi IH]]; [exists 0; constructor|].
  exists (Py.max a hi). constructor; [apply PyFacts.max_ge_l|].
  eapply Forall_impl; [exact IH|]. cbn. intros v Hv.
  eapply Qle_trans; [exact Hv | apply PyFacts.max_ge_r].
Qed.

Lemma interp_lower lo x xp fp r :
  Forall (fun v => lo <= v) fp -> interp x xp fp = Some r -> lo <= r.
Proof.
  intros Hlo H. destruct (list_upper_bound fp) as [hi Hhi].
  apply (interp_between lo hi x xp fp r); [|exact H].
  rewrite Forall_forall in *. intros v Hv. split; auto.
Qed.

End InterpFacts.

(** ** The actuator controller *)

Module GMFacts.
Import NumpyFast GM.

Section WithCollaborators.
Context {PIDController : Type} `{Co : Collaborators PIDController}.

(** *** The phases of [update] *)

Lemma update_inv (self : CarController PIDController) enabled CS W frame actuators hvc hsl hsc alert t self' W' sends :
  update self enabled CS W frame actuators hvc hsl hsc alert t = Some (self', W', sends) ->
  exists self1 sends1 self2 W2 npg W3 W4 sends2 sends3 sends4 sends5,
    update_steering self enabled CS frame actuators = Some (self1, sends1) /\
    update_long self1 enabled CS W frame actuators t = Some (self2, W2, npg) /\
    update_brake_indicator self2 CS W2 = Some W3 /\
    update_gas_brake self2 enabled CS W3 frame npg = (W4, sends2) /\
    update_dashboard enabled CS W4 frame hvc hsc alert = (W', sends3) /\
    update_adas self2 CS frame = Some sends4 /\
    update_lka_icon self2 CS frame actuators alert = Some (self', sends5) /\
    sends = sends1 ++ sends2 ++ sends3 ++ sends4 ++ sends5.
Proof.
  unfold update. intros H.
  apply bind_Some in H as ([self1 sends1] & E1 & H).
  apply bind_Some in H as ([[self2 W2] npg] & E2 & H).
  apply bind_Some in H as (W3 & E3 & H).
  destruct (update_gas_brake self2 enabled CS W3 frame npg) as [W4 sends2] eqn:E4.
  destruct (update_dashboard enabled CS W4 frame hvc hsc alert) as [W5 sends3] eqn:E5.
  apply bind_Some in H as (sends4 & E6 & H).
  apply bind_Some in H as ([self3 sends5] & E7 & H).
  inversion H; subst.
  exists self1, sends1, self2, W2, npg, W3, W4, sends2, sends3, sends4, sends5.
  repeat split; assumption || reflexivity.
Qed.

Lemma filter_other (p : CanSend -> bool) l :
  Forall (fun f => p f = false) l -> List.filter p l = [].
Proof.
  induction 1 as [|f l Hf _ IH]; cbn; [reflexivity|]. now rewrite Hf.
Qed.

Lemma other_frames_filter l :
  Forall other_frame l ->
  List.filter is_steering_control l = [] /\
  List.filter is_friction_brake_command l = [] /\
  List.filter is_gas_regen_command l = [].
Proof.
  intros H. repeat split; apply filter_other; eapply Forall_impl; try exact H;
    intros f (? & ? & ?); assumption.
Qed.

Lemma update_dashboard_other enabled CS W frame hvc hsc alert W' sends :
  update_dashboard enabled CS W frame hvc hsc alert = (W', sends) ->
  Forall other_frame sends.
Proof.
  unfold update_dashboard. destruct (_ =? _)%Z; intros [= <- <-];
    repeat constructor.
Qed.

Lemma update_adas_other (self : CarController PIDController) CS frame sends :
  update_adas self CS frame = Some sends -> Forall other_frame sends.
Proof.
  unfold update_adas. intros H. apply bind_Some in H as (m & _ & H).
  inversion H; subst; clear H.
  repeat apply Forall_app_2;
    repeat match goal with |- context [if ?b then _ else _] => destruct b end;
    repeat constructor.
Qed.

Lemma update_lka_icon_shape (self : CarController PIDController) CS frame actuators alert self' sends :
  update_lka_icon self CS frame actuators alert = Some (self', sends) ->
  Forall other_frame sends /\
  (self' = self \/ exists st, self' = set_lka_icon self st).
Proof.
  unfold update_lka_icon. intros H. apply bind_Some in H as (m & _ & H).
  destruct (_ || _); inversion H; subst; clear H; split;
    try (repeat constructor; fail); eauto.
Qed.

Lemma update_gas_brake_no_steering (self : CarController PIDController) enabled CS W frame npg W' sends :
  update_gas_brake self enabled CS W frame npg = (W', sends) ->
  List.filter is_steering_control sends = [].
Proof.
  unfold update_gas_brake.
  destruct (_ =? _)%Z; [|intros [= <- <-]; reflexivity].
  destruct (auto_hold enabled CS); [intros [= <- <-]; reflexivity|].
  destruct (if pause_long_on_gas_press CS then _ else _) as [[[afs ns] cs] ss].
  destruct (if ss && negb cs then _ else _) as [acc W2].
  intros [= <- <-]; reflexivity.
Qed.

(** The longitudinal phase and the icon phase leave the steering
    attributes and the parameters alone. *)
(** What the threshold call leaves in [self.params]: the parameters it
    found, with, at most, other breakpoint tables. *)
Lemma threshold_accel_of_params (self : CarController PIDController) CS t :
  let P' := snd (threshold_accel_of self CS t) in
  P' = set_lookup_bp (params self) (GAS_LOOKUP_BP P') (BRAKE_LOOKUP_BP P').
Proof.
  unfold threshold_accel_of. destruct (_ && _); apply threshold_keeps_constants.
Qed.

Lemma set_lookup_bp_same P : P = set_lookup_bp P (GAS_LOOKUP_BP P) (BRAKE_LOOKUP_BP P).
Proof. now destruct P. Qed.

Lemma set_params_same (self : CarController PIDController) :
  self = set_params self (params self).
Proof. now destruct self. Qed.

Lemma long_enabled_shape (self : CarController PIDController) CS actuators t self' npg :
  long_enabled self CS actuators t = Some (self', npg) ->
  exists pid d din g b,
    self' = set_long (set_params self (snd (threshold_accel_of self CS t))) pid d din g b.
Proof.
  unfold long_enabled. intros H.
  apply bind_Some in H as (k & _ & H).
  destruct (threshold_accel_of self CS t) as [th P'].
  repeat (apply bind_Some in H as (? & _ & H)).
  destruct x2 as [gl bl].
  destruct (if negb _ && negb _ then _ else _) as [[pid d] din].
  apply bind_Some in H as ([[[[pid' d'] din'] g'] b'] & _ & H).
  inversion H; subst. eauto 10.
Qed.

(** The longitudinal phase assigns the longitudinal attributes and, through
    the threshold call, the breakpoint tables of [self.params]. *)
Lemma update_long_shape (self : CarController PIDController) enabled CS W frame actuators t self' W' npg :
  update_long self enabled CS W frame actuators t = Some (self', W', npg) ->
  self' = self \/
  exists P' pid d din g b,
    self' = set_long (set_params self P') pid d din g b /\
    P' = set_lookup_bp (params self) (GAS_LOOKUP_BP P') (BRAKE_LOOKUP_BP P').
Proof.
  unfold update_long. destruct (_ =? _)%Z; [|intros [= <- <- <-]; now left].
  destruct (_ || _).
  - intros [= <- <- <-]. right. exists (params self).
    rewrite <- set_params_same. eauto 10 using set_lookup_bp_same.
  - intros H. apply bind_Some in H as ([s n] & E & H). inversion H; subst.
    right. apply long_enabled_shape in E as (pid & d & din & g & b & ->).
    eauto 10 using threshold_accel_of_params.
Qed.

(** *** Steering *)

Lemma update_steering_spec (self : CarController PIDController) enabled CS frame actuators self' sends :
  update_steering self enabled CS frame actuators = Some (self', sends) ->
  let c := lka_steering_cmd_counter CS in
  (c <> lka_steering_cmd_counter_last self ->
     sends = [] /\ self' = set_counter_last self c) /\
  (c = lka_steering_cmd_counter_last self ->
     (frame mod STEER_STEP (params self) = 0)%Z ->
     exists lkas,
       sends = [create_steering_control packer_pt POWERTRAIN (apply_steer_last self')
                                        ((c + 1) mod 4)%Z lkas] /\
       lka_steering_cmd_counter_last self' = c) /\
  (c = lka_steering_cmd_counter_last self ->
     (frame mod STEER_STEP (params self) <> 0)%Z ->
     sends = [] /\ self' = self).
Proof.
  intros H c. unfold update_steering in H. subst c.
  destruct (Z.eqb_spec (lka_steering_cmd_counter CS) (lka_steering_cmd_counter_last self))
    as [E|E]; cbn [negb] in H.
  - apply bind_Some in H as (m & Hm & H). unfold Py.mod_ in Hm.
    destruct (STEER_STEP (params self) =? 0)%Z; [discriminate|].
    inversion Hm; subst m; clear Hm.
    split; [intros Hc; exfalso; exact (Hc E)|].
    destruct (Z.eqb_spec (frame mod STEER_STEP (params self)) 0) as [E0|E0].
    + destruct (if lkas_enabled_of _ _ _ then _ else _) as [[a r] P'].
      inversion H; subst; clear H. cbn.
      split; [intros _ _; eexists; split; [reflexivity | symmetry; exact E]|].
      intros _ Hne. exfalso. exact (Hne E0).
    + inversion H; subst; clear H.
      split; [intros _ H0; exfalso; exact (E0 H0)|]. intros _ _. now split.
  - inversion H; subst; clear H.
    split; [intros _; now split|].
    split; intros Hc; exfalso; exact (E Hc).
Qed.

Lemma update_steering_params (self : CarController PIDController) enabled CS frame actuators self' sends :
  update_steering self enabled CS frame actuators = Some (self', sends) ->
  params self' = params self \/ params self' = set_v_ego (params self) (out_vEgo CS).
Proof.
  unfold update_steering. destruct (negb _).
  - intros [= <- <-]. now left.
  - intros H. apply bind_Some in H as (m & _ & H).
    destruct (m =? 0)%Z; [|inversion H; now left].
    destruct (lkas_enabled_of _ _ _); inversion H; subst; cbn; auto.
Qed.

(** What one call of [update] does to the steering attributes and which
    steering frames it returns. *)
Lemma steering_tick (self : CarController PIDController) enabled CS W frame actuators hvc hsl hsc alert t self' W' sends :
  update self enabled CS W frame actuators hvc hsl hsc alert t = Some (self', W', sends) ->
  let c := lka_steering_cmd_counter CS in
  STEER_STEP (params self') = STEER_STEP (params self) /\
  lka_steering_cmd_counter_last self' = c /\
  (c <> lka_steering_cmd_counter_last self ->
     List.filter is_steering_control sends = [] /\
     apply_steer_last self' = apply_steer_last self) /\
  (c = lka_steering_cmd_counter_last self ->
     (frame mod STEER_STEP (params self) = 0)%Z ->
     exists lkas,
       List.filter is_steering_control sends =
       [create_steering_control packer_pt POWERTRAIN (apply_steer_last self')
                                ((c + 1) mod 4)%Z lkas]) /\
  (c = lka_steering_cmd_counter_last self ->
     (frame mod STEER_STEP (params self) <> 0)%Z ->
     List.filter is_steering_control sends = [] /\
     apply_steer_last self' = apply_steer_last self).
Proof.
  intros H c.
  apply update_inv in H
    as (s1 & sends1 & s2 & W2 & npg & W3 & W4 & sends2 & sends3 & sends4 & sends5
        & E1 & E2 & E3 & E4 & E5 & E6 & E7 & ->).
  pose proof (update_steering_params _ _ _ _ _ _ _ E1) as HP.
  pose proof (update_steering_spec _ _ _ _ _ _ _ E1) as (Hne & Heq0 & Heq1).
  apply update_long_shape in E2.
  apply update_gas_brake_no_steering in E4.
  apply update_dashboard_other, other_frames_filter in E5 as (E5 & _).
  apply update_adas_other, other_frames_filter in E6 as (E6 & _).
  apply update_lka_icon_shape in E7 as (E7 & Hs').
  apply other_frames_filter in E7 as (E7 & _).
  assert (Hsteer : apply_steer_last self' = apply_steer_last s1 /\
                   lka_steering_cmd_counter_last self' = lka_steering_cmd_counter_last s1 /\
                   STEER_STEP (params self') = STEER_STEP (params s1)).
  { destruct Hs' as [->|(st & ->)];
      destruct E2 as [->|(P' & pid & d & din & g & b & -> & HP')]; cbn; auto;
      rewrite HP'; auto. }
  destruct Hsteer as (Ha & Hc & Hp).
  assert (Hf : List.filter is_steering_control
                 (sends1 ++ sends2 ++ sends3 ++ sends4 ++ sends5)
               = List.filter is_steering_control sends1).
  { rewrite !List.filter_app, E4, E5, E6, E7, !app_nil_r. reflexivity. }
  rewrite Hf, Ha, Hc, Hp. clear Hf Ha Hc Hp.
  split; [destruct HP as [->| ->]; reflexivity|].
  destruct (Z.eq_dec c (lka_steering_cmd_counter_last self)) as [Ec|Ec].
  - destruct (Z.eq_dec (frame mod STEER_STEP (params self))%Z 0%Z) as [Em|Em].
    + destruct (Heq0 Ec Em) as (lkas & -> & Hl).
      split; [exact Hl|]. split; [intros; contradiction|].
      split; [intros _ _; exists lkas; reflexivity | intros; contradiction].
    + destruct (Heq1 Ec Em) as (-> & ->).
      split; [symmetry; exact Ec|]. split; [intros; contradiction|].
      split; [intros; contradiction | intros; now split].
  - destruct (Hne Ec) as (-> & ->). cbn.
    split; [reflexivity|]. split; [intros; now split|].
    split; intros; contradiction.
Qed.

(** C1 (as amended).  [update] withholds the steering frame exactly when the
    loopback counter [CS.lka_steering_cmd_counter] differs from the stored
    [lka_steering_cmd_counter_last] (it has just advanced): the counter is
    then recorded and [apply_steer_last] is kept.  When the two are equal and
    [frame % STEER_STEP == 0], one steering frame is returned; it carries
    the new [apply_steer_last] and the counter
    [(lka_steering_cmd_counter + 1) % 4].  Hence on the second of two
    consecutive calls that see the same loopback counter, a steering tick
    always sends a steering frame. *)
Theorem steering_loopback_gate
        (self : CarController PIDController) enabled CS W frame actuators hvc hsl hsc alert t self' W' sends :
  update self enabled CS W frame actuators hvc hsl hsc alert t = Some (self', W', sends) ->
  let c := lka_steering_cmd_counter CS in
  (c <> lka_steering_cmd_counter_last self ->
     List.filter is_steering_control sends = [] /\
     apply_steer_last self' = apply_steer_last self /\
     lka_steering_cmd_counter_last self' = c) /\
  (c = lka_steering_cmd_counter_last self ->
     (frame mod STEER_STEP (params self) = 0)%Z ->
     exists lkas,
       List.filter is_steering_control sends =
       [create_steering_control packer_pt POWERTRAIN (apply_steer_last self')
                                ((c + 1) mod 4)%Z lkas]) /\
  (forall enabled2 CS2 frame2 actuators2 hvc2 hsl2 hsc2 alert2 t2 self'' W'' sends2,
     update self' enabled2 CS2 W' frame2 actuators2 hvc2 hsl2 hsc2 alert2 t2
     = Some (self'', W'', sends2) ->
     lka_steering_cmd_counter CS2 = c ->
     (frame2 mod STEER_STEP (params self) = 0)%Z ->
     exists lkas,
       List.filter is_steering_control sends2 =
       [create_steering_control packer_pt POWERTRAIN (apply_steer_last self'')
                                ((c + 1) mod 4)%Z lkas]).
Proof.
  intros H c.
  destruct (steering_tick _ _ _ _ _ _ _ _ _ _ _ _ _ _ H) as (HS & Hlast & Hne & Heq & _).
  fold c in Hlast, Hne, Heq.
  split; [intros Hc; destruct (Hne Hc); auto|].
  split; [exact Heq|].
  intros enabled2 CS2 frame2 actuators2 hvc2 hsl2 hsc2 alert2 t2 self'' W'' sends2 H2 Hc Hm.
  destruct (steering_tick _ _ _ _ _ _ _ _ _ _ _ _ _ _ H2) as (_ & _ & _ & Heq2 & _).
  rewrite Hc, HS in Heq2. apply Heq2; [symmetry; exact Hlast | exact Hm].
Qed.

(** *** The 25 Hz slot *)

Lemma update_steering_shape (self : CarController PIDController) enabled CS frame actuators self' sends :
  update_steering self enabled CS frame actuators = Some (self', sends) ->
  (self' = self \/ self' = set_counter_last self (lka_steering_cmd_counter CS) \/
   exists a r, self' = set_steer self a r (params self) \/
               self' = set_steer self a r (set_v_ego (params self) (out_vEgo CS))) /\
  List.filter is_friction_brake_command sends = [] /\
  List.filter is_gas_regen_command sends = [].
Proof.
  unfold update_steering. destruct (negb _).
  - intros [= <- <-]. auto.
  - intros H. apply bind_Some in H as (m & _ & H).
    destruct (m =? 0)%Z; [|inversion H; auto].
    destruct (lkas_enabled_of _ _ _); inversion H; subst; cbn; eauto 10.
Qed.

Lemma update_brake_indicator_autoHold (self : CarController PIDController) CS W W' :
  update_brake_indicator self CS W = Some W' ->
  autoHoldActivated W' = autoHoldActivated W.
Proof.
  unfold update_brake_indicator. destruct (showBrakeIndicator CS).
  - intros H. apply bind_Some in H as (x & _ & H). now inversion H.
  - now intros [= <-].
Qed.

Lemma update_dashboard_autoHold enabled CS W frame hvc hsc alert W' sends :
  update_dashboard enabled CS W frame hvc hsc alert = (W', sends) ->
  autoHoldActivated W' = autoHoldActivated W.
Proof.
  unfold update_dashboard. destruct (_ =? _)%Z; now intros [= <- <-].
Qed.

Lemma update_gas_brake_spec (self : CarController PIDController) enabled CS W frame npg W' sends :
  update_gas_brake self enabled CS W frame npg = (W', sends) ->
  let idx := ((frame / 4) mod 4)%Z in
  ((frame mod 4 = 0)%Z ->
     (exists near_stop at_full_stop,
        List.filter is_friction_brake_command sends =
        [create_friction_brake_command packer_ch CHASSIS (apply_brake self) idx
                                       near_stop at_full_stop]) /\
     (auto_hold enabled CS = true ->
        List.filter is_gas_regen_command sends = [] /\ autoHoldActivated W' = true) /\
     (auto_hold enabled CS = false ->
        (exists acc_enabled at_full_stop,
           List.filter is_gas_regen_command sends =
           [create_gas_regen_command packer_pt POWERTRAIN (apply_gas self) idx
                                     acc_enabled at_full_stop]) /\
        autoHoldActivated W' = false)) /\
  ((frame mod 4 <> 0)%Z -> sends = [] /\ W' = W).
Proof.
  intros H idx. unfold update_gas_brake in H. subst idx.
  destruct (Z.eqb_spec (frame mod 4) 0) as [E|E].
  - split; [intros _ | intros Hn; contradiction].
    destruct (auto_hold enabled CS).
    + inversion H; subst; clear H. cbn. repeat split; eauto; discriminate.
    + destruct (if pause_long_on_gas_press CS then _ else _) as [[[afs ns] cs] ss].
      destruct (if ss && negb cs then _ else _) as [acc W2] eqn:EW.
      inversion H; subst; clear H. cbn.
      assert (autoHoldActivated W' = false).
      { destruct (ss && negb cs); [destruct (do_sng CS); [|destruct (Py.ltb _ _)]|];
          inversion EW; reflexivity. }
      repeat split; eauto; discriminate.
  - inversion H; subst. split; [intros; contradiction | intros; now split].
Qed.

(** C3.  On a 25 Hz slot with [enabled] false or
    [CS.pause_long_on_gas_press] set, a call of [update] leaves
    [apply_gas = P.MAX_ACC_REGEN], [apply_brake = 0], the one-pedal PID
    reset, and [one_pedal_decel = one_pedal_decel_in = CS.out.aEgo]. *)
Theorem disabled_branch
        (self : CarController PIDController) enabled CS W frame actuators hvc hsl hsc alert t self' W' sends :
  (frame mod 4 = 0)%Z ->
  enabled = false \/ pause_long_on_gas_press CS = true ->
  update self enabled CS W frame actuators hvc hsl hsc alert t = Some (self', W', sends) ->
  apply_gas self' = MAX_ACC_REGEN (params self) /\
  apply_brake self' = 0%Z /\
  one_pedal_pid self' = pid_reset (one_pedal_pid self) /\
  one_pedal_decel self' = out_aEgo CS /\
  one_pedal_decel_in self' = out_aEgo CS.
Proof.
  intros Hf Hd H.
  apply update_inv in H
    as (s1 & sends1 & s2 & W2 & npg & W3 & W4 & sends2 & sends3 & sends4 & sends5
        & E1 & E2 & E3 & E4 & E5 & E6 & E7 & ->).
  apply update_steering_shape in E1 as (E1 & _).
  apply update_lka_icon_shape in E7 as (_ & E7).
  unfold update_long in E2. rewrite Hf in E2. cbn in E2.
  assert (Hb : negb enabled || pause_long_on_gas_press CS = true)
    by (destruct Hd as [-> | ->]; [reflexivity | apply orb_true_r]).
  rewrite Hb in E2. inversion E2; subst; clear E2.
  destruct E7 as [->|(st & ->)];
    destruct E1 as [->|[->|(a & r & [->| ->])]]; cbn; auto.
Qed.

(** C10.  On a tick with [frame % 4 == 0], [update] returns exactly one
    friction-brake command; it returns one gas/regen command when the
    auto-hold condition fails and none when it holds, and
    [CS.autoHoldActivated] is left true exactly when the auto-hold condition
    holds.  On a tick with [frame % 4 != 0] neither command is returned
    (and [CS.autoHoldActivated] is not assigned). *)
Theorem brake_gas_frames
        (self : CarController PIDController) enabled CS W frame actuators hvc hsl hsc alert t self' W' sends :
  update self enabled CS W frame actuators hvc hsl hsc alert t = Some (self', W', sends) ->
  let idx := ((frame / 4) mod 4)%Z in
  ((frame mod 4 = 0)%Z ->
     (exists near_stop at_full_stop,
        List.filter is_friction_brake_command sends =
        [create_friction_brake_command packer_ch CHASSIS (apply_brake self') idx
                                       near_stop at_full_stop]) /\
     (auto_hold enabled CS = true ->
        List.filter is_gas_regen_command sends = [] /\ autoHoldActivated W' = true) /\
     (auto_hold enabled CS = false ->
        (exists acc_enabled at_full_stop,
           List.filter is_gas_regen_command sends =
           [create_gas_regen_command packer_pt POWERTRAIN (apply_gas self') idx
                                     acc_enabled at_full_stop]) /\
        autoHoldActivated W' = false)) /\
  ((frame mod 4 <> 0)%Z ->
     List.filter is_friction_brake_command sends = [] /\
     List.filter is_gas_regen_command sends = [] /\
     autoHoldActivated W' = autoHoldActivated W).
Proof.
  intros H idx.
  apply update_inv in H
    as (s1 & sends1 & s2 & W2 & npg & W3 & W4 & sends2 & sends3 & sends4 & sends5
        & E1 & E2 & E3 & E4 & E5 & E6 & E7 & ->).
  apply update_steering_shape in E1 as (_ & F1 & G1).
  pose proof (update_dashboard_autoHold _ _ _ _ _ _ _ _ _ E5) as A5.
  apply update_dashboard_other, other_frames_filter in E5 as (_ & F3 & G3).
  apply update_adas_other, other_frames_filter in E6 as (_ & F4 & G4).
  apply update_lka_icon_shape in E7 as (E7 & Hs').
  apply other_frames_filter in E7 as (_ & F5 & G5).
  assert (Hbg : apply_brake self' = apply_brake s2 /\ apply_gas self' = apply_gas s2)
    by (destruct Hs' as [->|(st & ->)]; cbn; auto).
  destruct Hbg as (-> & ->).
  rewrite !List.filter_app, F1, G1, F3, G3, F4, G4, F5, G5, !app_nil_r. cbn [app].
  rewrite A5.
  pose proof (update_gas_brake_spec _ _ _ _ _ _ _ _ E4) as (H0 & Hn). fold idx in H0.
  split; [exact H0|].
  intros Hf. destruct (Hn Hf) as (-> & ->). cbn.
  repeat split.
  apply update_brake_indicator_autoHold in E3. rewrite E3.
  unfold update_long in E2. apply Z.eqb_neq in Hf. rewrite Hf in E2.
  now inversion E2.
Qed.

(** *** Ranges of the longitudinal commands *)

Lemma brakeQ_inject P z : brake_in_range P z -> brakeQ P (inject_Z z).
Proof.
  intros (b0 & E & H1 & H2). exists b0. split; [exact E|].
  change 0 with (inject_Z 0). rewrite <- !Zle_Qle. now split.
Qed.

Lemma gasQ_inject P z : gas_in_range P z -> gasQ P (inject_Z z).
Proof.
  intros (gl & E & H1 & H2). exists gl. split; [exact E|].
  rewrite <- !Zle_Qle. now split.
Qed.

Lemma brakeQ_round P x : brakeQ P x -> brake_in_range P (Py.round x).
Proof.
  intros (b0 & E & H). exists b0. split; [exact E|].
  apply PyFacts.round_between. exact H.
Qed.

Lemma gasQ_round P x : gasQ P x -> gas_in_range P (Py.round x).
Proof.
  intros (gl & E & H). exists gl. split; [exact E|].
  apply PyFacts.round_between. exact H.
Qed.

Lemma interp_brake P x r :
  params_ok P -> interp x (BRAKE_LOOKUP_BP P) (BRAKE_V P) = Some r -> brakeQ P r.
Proof.
  intros ((b0 & E0 & _) & HB & _) H. exists b0. split; [exact E0|].
  eapply InterpFacts.interp_between; [|exact H].
  unfold BRAKE_V. apply Forall_fmap. eapply Forall_impl; [exact HB|].
  intros z Hz. apply brakeQ_inject in Hz as (b0' & E0' & Hz).
  rewrite E0 in E0'. inversion E0'; subst. exact Hz.
Qed.

Lemma interp_gas P x r :
  params_ok P -> interp x (GAS_LOOKUP_BP P) (GAS_V P) = Some r -> gasQ P r.
Proof.
  intros (_ & _ & (gl & El & _) & _ & HG) H. exists gl. split; [exact El|].
  eapply InterpFacts.interp_between; [|exact H].
  unfold GAS_V. apply Forall_fmap. eapply Forall_impl; [exact HG|].
  intros z Hz. apply gasQ_inject in Hz as (gl' & El' & Hz).
  rewrite El in El'. inversion El'; subst. exact Hz.
Qed.

Lemma fold_max_ge l : forall a, a <= fold_left Py.max l a.
Proof.
  induction l as [|b l IH]; intros a; cbn; [lra|].
  eapply Qle_trans; [apply (PyFacts.max_ge_l a b) | apply IH].
Qed.

Lemma max_list_ge a l m : Py.max_list (a :: l) = Some m -> a <= m.
Proof. unfold Py.max_list. intros [= <-]. apply fold_max_ge. Qed.

Lemma lockout_factor_nonneg CS v_rel_bp v_rel_v v_bp v_v ttc_bp ttc_v tr_bp tr_v d_bp d_v f :
  Forall (Qle 0) v_rel_v ->
  lockout_factor CS v_rel_bp v_rel_v v_bp v_v ttc_bp ttc_v tr_bp tr_v d_bp d_v = Some f ->
  0 <= f.
Proof.
  intros Hv H. unfold lockout_factor in H.
  apply bind_Some in H as (a & Ea & H).
  repeat (apply bind_Some in H as (? & _ & H)).
  apply max_list_ge in H.
  assert (0 <= a) by (eapply InterpFacts.interp_lower; [exact Hv | exact Ea]).
  lra.
Qed.

Lemma lead_lockout_factors_nonneg CS g b :
  lockout_values_ok CS -> lead_lockout_factors CS = Some (g, b) -> 0 <= g /\ 0 <= b.
Proof.
  intros Hok H. unfold lockout_values_ok in Hok.
  rewrite !Forall_cons in Hok.
  destruct Hok as (Hg & _ & _ & _ & _ & Hb & _).
  unfold lead_lockout_factors in H.
  apply bind_Some in H as ([|] & _ & H); [|inversion H; subst; split; lra].
  apply bind_Some in H as (gas & Eg & H).
  apply lockout_factor_nonneg in Eg; [|exact Hg].
  apply bind_Some in H as ([|] & _ & H); [|inversion H; subst; split; lra].
  apply bind_Some in H as (brake & Eb & H).
  apply lockout_factor_nonneg in Eb; [|exact Hb].
  inversion H; subst. now split.
Qed.

Lemma over_speed_factor_range CS tbl v f :
  over_speed_factor_of CS tbl v = Some f -> 0 <= f <= 1.
Proof.
  unfold over_speed_factor_of. intros H.
  repeat (apply bind_Some in H as (? & _ & H)).
  destruct (_ && _); [|inversion H; lra].
  eapply InterpFacts.interp_between; [|exact H].
  repeat constructor; lra.
Qed.

Lemma one_pedal_active_spec P CS pid decel pitch_accel pid' d' din b :
  one_pedal_active P CS pid decel pitch_accel = Some (pid', d', din, b) ->
  ONE_PEDAL_MAX_DECEL <= d' /\ (params_ok P -> brakeQ P b).
Proof.
  unfold one_pedal_active. intros H.
  repeat (apply bind_Some in H as (? & _ & H)).
  destruct (pid_update _ _ _ _ _) as [raw pid1].
  apply bind_Some in H as (b1 & Eb & H). inversion H; subst; clear H.
  split; [apply PyFacts.max_ge_r|].
  intros HP. eapply interp_brake; [exact HP | exact Eb].
Qed.

Lemma one_pedal_ranges P CS pid decel decel_in th ab pid' d' din' g b :
  params_ok P -> brakeQ P ab ->
  one_pedal P CS pid decel decel_in th ab = Some (pid', d', din', g, b) ->
  gasQ P g /\ brakeQ P b /\
  (one_pedal_mode_active CS = true -> ONE_PEDAL_MAX_DECEL <= d').
Proof.
  intros HP Hab H. unfold one_pedal in H.
  apply bind_Some in H as (f & _ & H).
  apply bind_Some in H as ([[[pid1 d1] din1] opab] & E & H).
  inversion H; subst; clear H.
  assert (Hopab : brakeQ P opab /\ (one_pedal_mode_active CS = true -> ONE_PEDAL_MAX_DECEL <= d')).
  { destruct (one_pedal_mode_active CS).
    - apply one_pedal_active_spec in E as (? & ?). auto.
    - inversion E; subst. split; [|discriminate].
      destruct HP as (H0 & _). apply brakeQ_inject in H0. exact H0. }
  destruct Hopab as (Hopab & Hd).
  split; [|split; [|exact Hd]].
  - destruct HP as (_ & _ & Hm & Hz & _).
    destruct (_ && _); now apply gasQ_inject.
  - destruct (_ || _); assumption.
Qed.

Lemma coasting_ranges P CS gl bl ag ab g b :
  params_ok P -> 0 <= gl -> Py.ltb bl 1 = true -> gasQ P ag -> brakeQ P ab ->
  coasting P CS gl bl ag ab = Some (g, b) ->
  gasQ P g /\ brakeQ P b.
Proof.
  intros HP Hgl Hbl Hag Hab H. unfold coasting in H.
  apply PyFacts.ltb_true in Hbl.
  destruct (_ || _); [|inversion H; subst; now split].
  apply bind_Some in H as (b' & Eb & H).
  apply bind_Some in H as (g' & Eg & H).
  inversion H; subst; clear H. split.
  - destruct (Py.ltb ag (inject_Z (ZERO_GAS P))) eqn:Ez; cbn [andb] in Eg;
      [|inversion Eg; subst; exact Hag].
    destruct (Py.ltb gl 1) eqn:E1; [|inversion Eg; subst; exact Hag].
    apply PyFacts.ltb_true in Ez, E1.
    apply bind_Some in Eg as (osf & Eo & Eg). inversion Eg; subst; clear Eg.
    apply over_speed_factor_range in Eo as (Ho0 & Ho1).
    destruct Hag as (gmax & El & Hlo & Hhi). exists gmax. split; [exact El|].
    destruct HP as (_ & _ & _ & (gmax' & El' & Hz1 & Hz2) & _).
    rewrite El in El'. inversion El'; subst gmax'. clear El'.
    rewrite Zle_Qle in Hz1, Hz2.
    set (zg := inject_Z (ZERO_GAS P)) in *.
    set (c := Py.round (zg - osf * (zg - ag))).
    assert (Hc : (MAX_ACC_REGEN P <= c <= gmax)%Z).
    { apply PyFacts.round_between.
      assert (0 <= osf * (zg - ag)) by (apply Qmult_le_0_compat; lra).
      assert (0 <= (1 - osf) * (zg - ag)) by (apply Qmult_le_0_compat; lra).
      split; lra. }
    destruct Hc as (Hc1 & Hc2). rewrite Zle_Qle in Hc1, Hc2.
    set (lo := inject_Z (MAX_ACC_REGEN P)) in *. set (hi := inject_Z gmax) in *.
    assert (0 <= (ag - lo) * gl) by (apply Qmult_le_0_compat; lra).
    assert (0 <= (inject_Z c - lo) * (1 - gl)) by (apply Qmult_le_0_compat; lra).
    assert (0 <= (hi - ag) * gl) by (apply Qmult_le_0_compat; lra).
    assert (0 <= (hi - inject_Z c) * (1 - gl)) by (apply Qmult_le_0_compat; lra).
    split; lra.
  - destruct (Py.gtb ab 0) eqn:E0; [|inversion Eb; subst; exact Hab].
    apply PyFacts.gtb_true in E0.
    apply bind_Some in Eb as (osf & Eo & Eb).
    apply over_speed_factor_range in Eo as (Ho0 & Ho1).
    unfold Py.max_list in Eb. cbn [fold_left] in Eb. inversion Eb; subst; clear Eb.
    destruct Hab as (b0 & E & Hlo & Hhi). exists b0. split; [exact E|].
    assert (0 <= ab * osf) by (apply Qmult_le_0_compat; lra).
    assert (0 <= ab * (1 - osf)) by (apply Qmult_le_0_compat; lra).
    assert (0 <= ab * (1 - bl)) by (apply Qmult_le_0_compat; lra).
    destruct (PyFacts.max_cases (ab * bl) (ab * osf)) as [[-> ?]|[-> ?]]; split; lra.
Qed.

Lemma long_enabled_ranges (self : CarController PIDController) CS actuators t self' npg :
  params_ok (params self) -> lockout_values_ok CS ->
  long_enabled self CS actuators t = Some (self', npg) ->
  brake_in_range (params self) (apply_brake self') /\
  gas_in_range (params self) (apply_gas self') /\
  (one_pedal_mode_active CS = true -> ONE_PEDAL_MAX_DECEL <= one_pedal_decel self').
Proof.
  intros HP0 HL H. unfold long_enabled in H.
  apply bind_Some in H as (k & _ & H).
  pose proof (threshold_accel_of_params self CS t) as HP'. cbn zeta in HP'.
  destruct (threshold_accel_of self CS t) as [th P']. cbn [snd] in HP'.
  assert (HP : params_ok P') by (rewrite HP'; exact HP0).
  assert (Hbr : forall x, brake_in_range P' x -> brake_in_range (params self) x)
    by (intros x Hx; rewrite HP' in Hx; exact Hx).
  assert (Hgr : forall x, gas_in_range P' x -> gas_in_range (params self) x)
    by (intros x Hx; rewrite HP' in Hx; exact Hx).
  clear HP'.
  apply bind_Some in H as (ag & Eag & H). apply (interp_gas _ _ _ HP) in Eag.
  apply bind_Some in H as (np & _ & H).
  apply bind_Some in H as (ab & Eab & H). apply (interp_brake _ _ _ HP) in Eab.
  apply bind_Some in H as ([gl bl] & Ef & H).
  apply (lead_lockout_factors_nonneg _ _ _ HL) in Ef as (Hgl & Hbl).
  destruct (if negb _ && negb _ then _ else _) as [[pid d] din].
  apply bind_Some in H as ([[[[pid' d'] din'] g'] b'] & E & H).
  inversion H; subst; clear H. cbn.
  assert (Hr : gasQ P' g' /\ brakeQ P' b' /\
               (one_pedal_mode_active CS = true -> ONE_PEDAL_MAX_DECEL <= d')).
  { destruct (one_pedal_mode_active CS || coast_one_pedal_mode_active CS) eqn:Em.
    - eapply one_pedal_ranges; eassumption.
    - apply orb_false_elim in Em as (Em & _). rewrite Em.
      assert (Hmode : forall P : Prop, gasQ P' g' /\ brakeQ P' b' ->
                gasQ P' g' /\ brakeQ P' b' /\ (false = true -> P))
        by (intros P0 (? & ?); repeat split; auto; discriminate).
      apply Hmode.
      destruct (coasting_enabled CS && Py.ltb bl 1) eqn:Ec.
      + apply andb_prop in Ec as (_ & Ebl).
        apply bind_Some in E as ([g b] & Ecoast & E). inversion E; subst; clear E.
        apply (coasting_ranges _ CS gl bl ag ab); assumption.
      + destruct (no_friction_braking CS && Py.ltb bl 1) eqn:En;
          inversion E; subst; clear E; [|now split].
        split; [exact Eag|].
        destruct (_ && Py.gtb ab 0) eqn:Eg0; [|exact Eab].
        apply andb_prop in En as (_ & Ebl). apply PyFacts.ltb_true in Ebl.
        apply andb_prop in Eg0 as (_ & Eg0). apply PyFacts.gtb_true in Eg0.
        destruct Eab as (b0 & E0 & Hlo & Hhi). exists b0. split; [exact E0|].
        assert (0 <= ab * bl) by (apply Qmult_le_0_compat; lra).
        assert (0 <= ab * (1 - bl)) by (apply Qmult_le_0_compat; lra).
        split; lra. }
  destruct Hr as (Hg & Hb & Hd).
  split; [now apply Hbr, brakeQ_round|]. split; [now apply Hgr, gasQ_round | exact Hd].
Qed.

Lemma long_enabled_no_one_pedal (self : CarController PIDController) CS actuators t self' npg :
  one_pedal_mode_active CS = false -> coast_one_pedal_mode_active CS = false ->
  long_enabled self CS actuators t = Some (self', npg) ->
  one_pedal_decel self' = out_aEgo CS.
Proof.
  intros Ha Hc H. unfold long_enabled in H. rewrite Ha, Hc in H. cbn [negb andb orb] in H.
  apply bind_Some in H as (k & _ & H).
  destruct (threshold_accel_of self CS t) as [th P'].
  repeat (apply bind_Some in H as (? & _ & H)).
  destruct x2 as [gl bl].
  apply bind_Some in H as ([[[[pid' d'] din'] g'] b'] & E & H).
  inversion H; subst; clear H. cbn.
  destruct (coasting_enabled CS && _).
  - apply bind_Some in E as ([g b] & _ & E). now inversion E.
  - destruct (no_friction_braking CS && _); now inversion E.
Qed.

(** C2 (as amended).  Let the parameters respect their declared ranges and
    the lockout values of [CS] be non-negative.  After a call of [update] on
    a 25 Hz slot, [apply_brake] lies in [[0, BRAKE_LOOKUP_V[0]]] and
    [apply_gas] in [[MAX_ACC_REGEN, GAS_LOOKUP_V[-1]]]; on any other tick
    they do so if they did before.  [one_pedal_decel >= -3.5] holds after a
    25 Hz slot on which one-pedal braking ran (enabled, not paused,
    [CS.one_pedal_mode_active]); on a disabled or paused slot, and on an
    enabled slot with neither one-pedal flag set, [one_pedal_decel] is
    [CS.out.aEgo], whatever its value. *)
Theorem longitudinal_ranges
        (self : CarController PIDController) enabled CS W frame actuators hvc hsl hsc alert t self' W' sends :
  params_ok (params self) -> lockout_values_ok CS ->
  update self enabled CS W frame actuators hvc hsl hsc alert t = Some (self', W', sends) ->
  ((frame mod 4 = 0)%Z \/
   (brake_in_range (params self) (apply_brake self) /\
    gas_in_range (params self) (apply_gas self)) ->
   brake_in_range (params self) (apply_brake self') /\
   gas_in_range (params self) (apply_gas self')) /\
  ((frame mod 4 = 0)%Z -> enabled = true -> pause_long_on_gas_press CS = false ->
   one_pedal_mode_active CS = true ->
   ONE_PEDAL_MAX_DECEL <= one_pedal_decel self') /\
  ((frame mod 4 = 0)%Z ->
   enabled = false \/ pause_long_on_gas_press CS = true \/
   (one_pedal_mode_active CS = false /\ coast_one_pedal_mode_active CS = false) ->
   one_pedal_decel self' = out_aEgo CS).
Proof.
  intros HP HL H.
  apply update_inv in H
    as (s1 & sends1 & s2 & W2 & npg & W3 & W4 & sends2 & sends3 & sends4 & sends5
        & E1 & E2 & E3 & E4 & E5 & E6 & E7 & ->).
  apply update_steering_shape in E1 as (E1 & _).
  apply update_lka_icon_shape in E7 as (_ & E7).
  assert (Hs1 : params_ok (params s1) /\
                brake_in_range (params s1) = brake_in_range (params self) /\
                gas_in_range (params s1) = gas_in_range (params self) /\
                apply_brake s1 = apply_brake self /\ apply_gas s1 = apply_gas self).
  { destruct E1 as [->|[->|(a & r & [->| ->])]]; cbn;
      (split; [exact HP | repeat split]). }
  destruct Hs1 as (HP1 & Hbr & Hgr & Hb1 & Hg1).
  assert (Hs' : apply_brake self' = apply_brake s2 /\ apply_gas self' = apply_gas s2 /\
                one_pedal_decel self' = one_pedal_decel s2)
    by (destruct E7 as [->|(st & ->)]; cbn; auto).
  destruct Hs' as (-> & -> & ->).
  rewrite <- Hbr, <- Hgr, <- Hb1, <- Hg1. clear Hbr Hgr Hb1 Hg1 E1 E7.
  unfold update_long in E2.
  destruct (Z.eqb_spec (frame mod 4) 0) as [Ef|Ef].
  - destruct (negb enabled || pause_long_on_gas_press CS) eqn:Ed.
    + inversion E2; subst; clear E2. cbn.
      destruct HP1 as (H0 & _ & Hm & _).
      split; [intros _; now split|].
      split; [|reflexivity].
      intros _ He Hp. rewrite He, Hp in Ed. discriminate.
    + apply bind_Some in E2 as ([s n] & El & E2). inversion E2; subst; clear E2.
      pose proof (long_enabled_ranges _ _ _ _ _ _ HP1 HL El) as (Hb & Hg & Hd).
      split; [intros _; now split|].
      split; [intros _ _ _; exact Hd|].
      intros _ [He|[Hp|(Ha & Hc)]];
        [rewrite He in Ed; discriminate
        |rewrite Hp, orb_true_r in Ed; discriminate|].
      eapply long_enabled_no_one_pedal; eassumption.
  - inversion E2; subst; clear E2.
    split; [intros [?|?]; [contradiction | assumption]|].
    split; intros; contradiction.
Qed.

(** *** The lead-acceleration lockout *)










End WithCollaborators.
End GMFacts.

(** ** The actuator controller on concrete ticks *)

Module GMExamples.
Import NumpyFast GM GMInputs GMFacts.

Lemma P0_ok : params_ok P0.
Proof.
  unfold params_ok, brake_in_range, gas_in_range. cbn.
  repeat split; repeat constructor; eexists; (split; [reflexivity | lia]).
Qed.

Lemma CS0_lockout_ok counter v a opm allowed hold :
  lockout_values_ok (CS0 counter v a opm allowed hold).
Proof.
  unfold lockout_values_ok. cbn. repeat constructor; unfold Qle; cbn; lia.
Qed.

(** The calls below return. *)
Ltac returns E := exfalso; vm_compute in E; discriminate E.

(** C1, counterexample.  Loopback counter 0 is already recorded ([self1])
    and seen again at frames 0 and 2: both calls send a steering frame with
    counter 1, and [apply_steer_last] moves from 0 to 7 and then to 14. *)
Lemma steering_sent_when_counter_unchanged :
  lka_steering_cmd_counter (CS0 0 10 0 false false false)
  = lka_steering_cmd_counter_last self1 /\
  (0 mod STEER_STEP (params self1) = 0)%Z /\ (2 mod STEER_STEP (params self1) = 0)%Z /\
  apply_steer_last self1 = 0%Z /\
  steering_view (tick self1 true (CS0 0 10 0 false false false) 0 5)
  = Some (7%Z, 0%Z, [create_steering_control packer_pt POWERTRAIN 7 1 true]) /\
  steering_view (then_tick (tick self1 true (CS0 0 10 0 false false false) 0 5)
                           true (CS0 0 10 0 false false false) 2 5)
  = Some (14%Z, 0%Z, [create_steering_control packer_pt POWERTRAIN 14 1 true]).
Proof. repeat split; vm_compute; reflexivity. Qed.

Lemma steering_loopback_gate_witness :
  exists s W sends,
    tick self1 true (CS0 0 10 0 false false false) 0 5 = Some (s, W, sends) /\
    exists lkas,
      List.filter is_steering_control sends
      = [create_steering_control packer_pt POWERTRAIN (apply_steer_last s)
                                 ((0 + 1) mod 4)%Z lkas].
Proof.
  destruct (tick self1 true (CS0 0 10 0 false false false) 0 5)
    as [[[s W] sends]|] eqn:E; [|returns E].
  exists s, W, sends. split; [reflexivity|].
  exact (proj1 (proj2 (steering_loopback_gate
                         self1 true (CS0 0 10 0 false false false) W0 0 act0
                         30 true true VA_none 5 s W sends E)) eq_refl eq_refl).
Defined.

(** C2, counterexample.  A disabled 25 Hz slot while the car decelerates at
    5 m/s^2 leaves [one_pedal_decel = -5], below
    [ONE_PEDAL_MAX_DECEL = -3.5]. *)
Lemma one_pedal_decel_below_floor :
  decel_view (tick self1 false (CS0 0 10 (-5) false false false) 0 5) = Some (-5, -5) /\
  ~ ONE_PEDAL_MAX_DECEL <= -5.
Proof.
  split; [vm_compute; reflexivity|]. vm_compute. intros H. apply H. reflexivity.
Qed.

Lemma longitudinal_ranges_witness :
  exists s W sends,
    tick self2 true (CS0 0 10 0 true true false) 0 5 = Some (s, W, sends) /\
    brake_in_range P0 (apply_brake s) /\ gas_in_range P0 (apply_gas s) /\
    ONE_PEDAL_MAX_DECEL <= one_pedal_decel s.
Proof.
  destruct (tick self2 true (CS0 0 10 0 true true false) 0 5)
    as [[[s W] sends]|] eqn:E; [|returns E].
  exists s, W, sends. split; [reflexivity|].
  assert (HP : params_ok (params self2)) by exact P0_ok.
  assert (HL : lockout_values_ok (CS0 0 10 0 true true false))
    by apply CS0_lockout_ok.
  assert (HE : update self2 true (CS0 0 10 0 true true false) W0 0 act0
                     30 true true VA_none 5 = Some (s, W, sends)) by exact E.
  destruct (longitudinal_ranges _ _ _ _ _ _ _ _ _ _ _ _ _ _ HP HL HE) as (Hr & Hd & _).
  destruct (Hr (or_introl eq_refl)) as (Hb & Hg).
  split; [exact Hb|]. split; [exact Hg|].
  exact (Hd eq_refl eq_refl eq_refl eq_refl).
Defined.

Lemma disabled_branch_witness :
  exists s W sends,
    tick self2 false (CS0 0 10 (-5) true true false) 0 5 = Some (s, W, sends) /\
    apply_gas s = MAX_ACC_REGEN P0 /\ apply_brake s = 0%Z /\
    one_pedal_pid s = 0%nat /\ one_pedal_decel s = -5 /\ one_pedal_decel_in s = -5.
Proof.
  destruct (tick self2 false (CS0 0 10 (-5) true true false) 0 5)
    as [[[s W] sends]|] eqn:E; [|returns E].
  exists s, W, sends. split; [reflexivity|].
  exact (disabled_branch
           self2 false (CS0 0 10 (-5) true true false) W0 0 act0 30 true true VA_none 5
           s W sends eq_refl (or_introl eq_refl) E).
Defined.


(** The window does reach the result, through the breakpoint tables the
    threshold call leaves in [P]: at 1 m/s the call is made with
    [CS.out.vEgo = 1] inside the window and with [ONE_PEDAL_MIN_SPEED]
    outside it. *)
Example window_selects_threshold_speed :
  threshold_accel_of self2 (CS0 0 1 0 true true false) 0.1
  = update_gas_brake_threshold P0 1 false /\
  threshold_accel_of self2 (CS0 0 1 0 true true false) 5
  = update_gas_brake_threshold P0 ONE_PEDAL_MIN_SPEED false /\
  (GAS_LOOKUP_BP <$> params_view (tick self2 true (CS0 0 1 0 true true false) 0 0.1))
  <> (GAS_LOOKUP_BP <$> params_view (tick self2 true (CS0 0 1 0 true true false) 0 5)).
Proof.
  split; [vm_compute; reflexivity|]. split; [vm_compute; reflexivity|].
  vm_compute. discriminate.
Qed.


(** With all auto-hold conditions met on a 25 Hz slot, the only
    longitudinal frame is the friction-brake command. *)
Lemma brake_gas_frames_witness :
  exists s W sends,
    tick self1 false (CS0 0 0 0 false false true) 0 5 = Some (s, W, sends) /\
    auto_hold false (CS0 0 0 0 false false true) = true /\
    List.filter is_gas_regen_command sends = [] /\ autoHoldActivated W = true.
Proof.
  destruct (tick self1 false (CS0 0 0 0 false false true) 0 5)
    as [[[s W] sends]|] eqn:E; [|returns E].
  exists s, W, sends. split; [reflexivity|].
  split; [reflexivity|].
  exact (proj1 (proj2 (proj1 (brake_gas_frames
                  self1 false (CS0 0 0 0 false false true) W0 0 act0
                  30 true true VA_none 5 s W sends E) eq_refl)) eq_refl).
Defined.

End GMExamples.

(** ** Radar fusion *)

Module RadardFacts.
Import NumpyFast Radard.

Section WithHelpers.
Context {Track Cluster FirstOrderFilter : Type} `{Hlp : Helpers Track Cluster FirstOrderFilter}.

(** *** Vision-to-radar association *)

(** The scale is clamped to at least [1e-4] before the division, so the
    division never raises, whatever [b] is. *)
Lemma laplacian_cdf_defined x mu b :
  laplacian_cdf x mu b = Some (exp (- Py.abs (x - mu) / Py.max b 1e-4)).
Proof.
  unfold laplacian_cdf, Py.div.
  assert (Hb : 1e-4 <= Py.max b 1e-4) by apply PyFacts.max_ge_r.
  destruct (Qeq_bool (Py.max b 1e-4) 0) eqn:E; [|reflexivity].
  apply Qeq_bool_iff in E. rewrite E in Hb. exfalso.
  vm_compute in Hb. apply Hb. reflexivity.
Qed.

Lemma prob_defined v_ego lead off c :
  has_entry0 lead -> is_Some (prob v_ego lead off c).
Proof.
  intros (_ & [y0 Hy] & [v0 Hv] & [xs Hxs] & [ys Hys] & [vs Hvs]).
  unfold prob. rewrite Hxs, Hy, Hys, Hv, Hvs. cbn [mbind option_bind].
  rewrite !laplacian_cdf_defined. cbn [mbind option_bind]. eauto.
Qed.

Lemma max_key_from_defined {A} (key : A -> option Q) l :
  (forall a, is_Some (key a)) ->
  forall best kbest, exists c, max_key_from key best kbest l = Some c /\ (c = best \/ c ∈ l).
Proof.
  intros Hk. induction l as [|a l IH]; intros best kbest; cbn.
  - eauto.
  - destruct (Hk a) as [k ->]. cbn [mbind option_bind].
    destruct (Py.gtb k kbest).
    + destruct (IH a k) as (c & -> & [->|Hc]); eexists; split; eauto;
        right; [left | now right].
    + destruct (IH best kbest) as (c & -> & [->|Hc]); eexists; split; eauto.
      right. now right.
Qed.

Lemma max_key_defined {A} (key : A -> option Q) l :
  (forall a, is_Some (key a)) -> l <> [] ->
  exists c, max_key key l = Some c /\ c ∈ l.
Proof.
  intros Hk Hl. destruct l as [|a l]; [contradiction|]. cbn.
  destruct (Hk a) as [k ->]. cbn [mbind option_bind].
  destruct (max_key_from_defined key l Hk a k) as (c & -> & [->|Hc]);
    eexists; split; eauto; [left | now right].
Qed.

(** C9.  [match_vision_to_cluster] returns (a cluster of the list, or
    [None]) for every non-empty cluster list and every vision lead whose
    arrays have an entry 0, also when [xStd[0]], [yStd[0]] or [vStd[0]] is
    zero or negative: [laplacian_cdf] divides by [max(b, 1e-4)], which is
    never zero. *)
Theorem match_vision_to_cluster_total v_ego lead clusters :
  clusters <> [] -> has_entry0 lead ->
  (forall x mu b,
      laplacian_cdf x mu b = Some (exp (- Py.abs (x - mu) / Py.max b 1e-4))) /\
  exists r, match_vision_to_cluster v_ego lead clusters = Some r /\
            (r = None \/ exists c, r = Some c /\ c ∈ clusters).
Proof.
  intros Hc Hl. split; [apply laplacian_cdf_defined|].
  pose proof Hl as ([x0 Hx] & _ & [v0 Hv] & _).
  unfold match_vision_to_cluster. rewrite Hx. cbn [mbind option_bind].
  destruct (max_key_defined (prob v_ego lead (x0 - RADAR_TO_CAMERA)) clusters)
    as (c & -> & Hin); [intros a; now apply prob_defined | exact Hc |].
  cbn [mbind option_bind Py.max_list]. rewrite Hv. cbn [mbind option_bind Py.orM].
  match goal with
  | |- context [Py.ltb (Py.abs (vRel c + v_ego - v0)) 10] =>
      destruct (Py.ltb (Py.abs (vRel c + v_ego - v0)) 10)
  end; cbn [mbind option_bind];
    (eexists; split; [reflexivity|]);
    repeat match goal with |- context [if ?b then _ else _] => destruct b end;
    cbn; eauto.
Qed.

(** *** Long-range smoothing *)

Lemma feed_defined self lead :
  Forall (fun k => is_Some (num lead k)) kinematic_keys ->
  is_Some (LongRangeLead.feed self lead).
Proof.
  unfold kinematic_keys. rewrite !Forall_cons.
  intros ([x1 H1] & [x2 H2] & [x3 H3] & [x4 H4] & [x5 H5] & [x6 H6] & _).
  unfold LongRangeLead.feed. rewrite H1. cbn [mbind option_bind].
  destruct (interp x1 LongRangeLead.DREL_BP LongRangeLead.ALPHA_V) as [alpha|] eqn:E.
  - cbn [mbind option_bind]. rewrite H2, H3, H4, H5, H6. cbn [mbind option_bind]. eauto.
  - exfalso. unfold interp, LongRangeLead.DREL_BP, LongRangeLead.ALPHA_V in E.
    cbn [interp_hi length] in E.
    destruct (Py.gtb x1 LEAD_MIN_SMOOTHING_DISTANCE);
      [destruct (Py.gtb x1 LEAD_MAX_DISTANCE)|]; cbn in E; discriminate.
Qed.

(** C5.  For a lead with [status] true and [checkSource == 'modelLead'],
    whatever the state of the filters, the lead that
    [LongRangeLead.update] returns is the lead it was given: none of the
    six kinematic entries is overwritten.  The call returns whenever the
    six kinematic entries are numbers. *)
Theorem long_range_lead_passthrough (self : LongRangeLead.t FirstOrderFilter) (lead : LeadDict) st cs :
  lead !! "status"%string = Some st -> truthy st = true ->
  lead !! "checkSource"%string = Some cs -> is_str cs "modelLead" = true ->
  (forall self' out, LongRangeLead.update self lead = Some (self', out) ->
                     out = lead /\
                     Forall (fun k => out !! k = lead !! k) kinematic_keys) /\
  (Forall (fun k => is_Some (num lead k)) kinematic_keys ->
   exists self', LongRangeLead.update self lead = Some (self', lead)).
Proof.
  intros Hst Ht Hcs Hm.
  assert (Hup : LongRangeLead.update self lead
                = self1 ← LongRangeLead.feed (LongRangeLead.reset self) lead;
                  Some (LongRangeLead.set_lead_last self1 (Some lead), lead)).
  { unfold LongRangeLead.update, LongRangeLead.reset_condition.
    rewrite Hst. cbn [mbind option_bind]. rewrite Ht. cbn [negb].
    rewrite Hcs. cbn [mbind option_bind Py.orM Py.andM]. rewrite Hm.
    cbn [mbind option_bind Py.orM Py.andM negb].
    destruct (LongRangeLead.feed _ lead); reflexivity. }
  rewrite Hup. split.
  - intros self' out Hr. apply bind_Some in Hr as (s1 & _ & Hr).
    inversion Hr; subst. split; [reflexivity|].
    apply Forall_forall. reflexivity.
  - intros Hk. destruct (feed_defined (LongRangeLead.reset self) lead Hk) as [s1 ->].
    cbn [mbind option_bind]. eauto.
Qed.

(** *** The track table *)

Lemma dict_set_keys {V} (d : list (Z * V)) k v :
  list_to_set (fst <$> dict_set Z.eqb d k v) =@{gset Z} {[k]} ∪ list_to_set (fst <$> d).
Proof.
  induction d as [|[k' v'] d IH]; cbn.
  - set_solver.
  - destruct (Z.eqb_spec k' k) as [->|Hne]; cbn; [set_solver|].
    rewrite IH. set_solver.
Qed.

Lemma ar_pts_keys points :
  list_to_set (fst <$> ar_pts_of points) =@{gset Z} reading_ids points.
Proof.
  unfold ar_pts_of, reading_ids.
  enough (forall d : list (Z * (Q * Q * Q * bool)),
            list_to_set (fst <$> fold_left
              (fun d pt => dict_set Z.eqb d (RadarPoint.trackId pt)
                 (RadarPoint.dRel pt, RadarPoint.yRel pt, RadarPoint.vRel pt,
                  RadarPoint.measured pt)) points d)
            =@{gset Z} list_to_set (fst <$> d) ∪ list_to_set (RadarPoint.trackId <$> points))
    as Hgen by (rewrite Hgen; set_solver).
  induction points as [|pt points IH]; intros d; cbn.
  - set_solver.
  - rewrite IH, dict_set_keys. set_solver.
Qed.

Lemma remove_missing_dom (ar_pts : list (Z * (Q * Q * Q * bool))) (trs : gmap Z Track) :
  dom (remove_missing ar_pts trs) ⊆ list_to_set (fst <$> ar_pts).
Proof.
  intros k Hk. apply elem_of_dom in Hk as [tr Htr].
  unfold remove_missing in Htr. apply map_lookup_filter_Some in Htr as (_ & Hin).
  cbn in Hin. now apply elem_of_list_to_set.
Qed.

Lemma track_point_dom kp hist (trs trs' : gmap Z Track) ids rpt :
  track_point kp hist trs (ids, rpt) = Some trs' -> dom trs' = {[ids]} ∪ dom trs.
Proof.
  unfold track_point. destruct rpt as [[[d y] v] m]. intros Hs.
  apply bind_Some in Hs as (v0 & _ & Hs).
  apply bind_Some in Hs as (tr & Htr & Hs). inversion Hs; subst; clear Hs.
  destruct (trs !! ids) eqn:E.
  - rewrite dom_insert_L. reflexivity.
  - rewrite !dom_insert_L. set_solver.
Qed.

Lemma track_points_dom kp hist items : forall (trs trs' : gmap Z Track),
  track_points kp hist trs items = Some trs' ->
  dom trs' = list_to_set (fst <$> items) ∪ dom trs.
Proof.
  induction items as [|[ids rpt] items IH]; intros trs trs' Hs; cbn in Hs.
  - inversion Hs; subst. set_solver.
  - apply bind_Some in Hs as (trs1 & H1 & Hs).
    apply track_point_dom in H1. apply IH in Hs. rewrite Hs, H1. cbn. set_solver.
Qed.

Lemma reset_new_tracks_dom idens cluster_idxs clusters n :
  forall idx (trs trs' : gmap Z Track),
    reset_new_tracks idens cluster_idxs clusters idx n trs = Some trs' ->
    dom trs' = dom trs.
Proof.
  induction n as [|n IH]; intros idx trs trs' Hs; cbn in Hs.
  - now inversion Hs.
  - apply bind_Some in Hs as (iden & _ & Hs).
    apply bind_Some in Hs as (tr & Htr & Hs).
    apply bind_Some in Hs as (trs1 & H1 & Hs).
    apply IH in Hs. rewrite Hs.
    destruct (cnt tr <=? 1)%Z; [|now inversion H1].
    repeat (apply bind_Some in H1 as (? & _ & H1)). inversion H1; subst.
    rewrite dom_insert_L. apply elem_of_dom_2 in Htr. set_solver.
Qed.

Lemma update_tracks_inv cpc (self : RadarD Track) sm points self' clusters :
  update_tracks cpc self sm points = Some (self', clusters) ->
  exists hist trs1 track_pts cluster_idxs,
    track_points (kalman_params self) hist
                 (remove_missing (ar_pts_of points) (tracks self)) (ar_pts_of points)
    = Some trs1 /\
    make_clusters cpc (sorted_ids trs1) track_pts = Some (cluster_idxs, clusters) /\
    reset_new_tracks (sorted_ids trs1) cluster_idxs clusters 0 (length track_pts) trs1
    = Some (tracks self').
Proof.
  unfold update_tracks. intros Hs.
  destruct (if SubMaster.updated_carState sm then _ else _) as [ve hist].
  apply bind_Some in Hs as (trs1 & H1 & Hs).
  apply bind_Some in Hs as (track_pts & H2 & Hs).
  apply bind_Some in Hs as ([cluster_idxs cl] & H3 & Hs).
  apply bind_Some in Hs as (trs2 & H4 & Hs).
  inversion Hs; subst; clear Hs. cbn. eauto 10.
Qed.

(** C4.  After the tracking step of [RadarD.update], the keys of the track
    table are exactly the track ids of the current reading; in particular a
    track id that is not in the reading is not in the table. *)
Theorem tracks_follow_reading cpc (self : RadarD Track) sm points self' clusters :
  update_tracks cpc self sm points = Some (self', clusters) ->
  dom (tracks self') = reading_ids points /\
  (forall ids, ids ∈ dom (tracks self) -> ids ∉ reading_ids points ->
               ids ∉ dom (tracks self')).
Proof.
  intros Hs.
  apply update_tracks_inv in Hs as (hist & trs1 & track_pts & cluster_idxs & H1 & _ & H4).
  apply reset_new_tracks_dom in H4. apply track_points_dom in H1.
  pose proof (remove_missing_dom (ar_pts_of points) (tracks self)) as Hsub.
  rewrite ar_pts_keys in *.
  assert (Hd : dom (tracks self') = reading_ids points) by (rewrite H4, H1; set_solver).
  split; [exact Hd|]. intros ids _ Hn. rewrite Hd. exact Hn.
Qed.

(** *** Clustering of a single track *)

Lemma deque_append_nonempty maxlen d x :
  (0 < maxlen)%nat -> deque_append maxlen d x <> [].
Proof.
  intros Hm. unfold deque_append. intros Hnil.
  apply (f_equal length) in Hnil. rewrite length_drop, length_app in Hnil.
  cbn in Hnil. lia.
Qed.

Lemma track_points_defined kp hist items :
  hist <> [] -> forall trs : gmap Z Track, is_Some (track_points kp hist trs items).
Proof.
  intros Hh. destruct hist as [|v0 hist]; [contradiction|].
  induction items as [|[ids [[[d y] v] m]] items IH]; intros trs; cbn.
  - eauto.
  - destruct (trs !! ids) as [tr|] eqn:E; cbn [mbind option_bind].
    + rewrite E. cbn [mbind option_bind]. apply IH.
    + rewrite lookup_insert_eq. cbn [mbind option_bind]. apply IH.
Qed.

Lemma sorted_ids_singleton (trs : gmap Z Track) ids :
  dom trs = {[ids]} -> sorted_ids trs = [ids].
Proof.
  intros Hd. unfold sorted_ids. rewrite Hd, elements_singleton. reflexivity.
Qed.

(** C7.  When the reading holds exactly one track id, the tracking and
    clustering steps of [RadarD.update] return one cluster holding that
    track, and they do so for every clustering primitive, also one that
    never returns: [cluster_points_centroid] is not consulted. *)
Theorem single_track_cluster (self : RadarD Track) sm points ids :
  hist_ok self -> reading_ids points = {[ids]} ->
  exists self',
    (forall cluster_points_centroid,
        update_tracks cluster_points_centroid self sm points
        = Some (self', [Some [ids]])) /\
    dom (tracks self') = {[ids]}.
Proof.
  intros (Hh & Hm) Hr. unfold update_tracks.
  destruct (if SubMaster.updated_carState sm then _ else _) as [ve hist] eqn:Eh.
  assert (Hhist : hist <> []).
  { destruct (SubMaster.updated_carState sm); inversion Eh; subst;
      [now apply deque_append_nonempty | exact Hh]. }
  destruct (track_points_defined (kalman_params self) hist (ar_pts_of points) Hhist
              (remove_missing (ar_pts_of points) (tracks self))) as [trs1 H1].
  rewrite H1. cbn [mbind option_bind].
  assert (Hd1 : dom trs1 = {[ids]}).
  { pose proof (remove_missing_dom (ar_pts_of points) (tracks self)) as Hsub.
    apply track_points_dom in H1. rewrite ar_pts_keys in *. rewrite H1, Hr in *.
    set_solver. }
  rewrite (sorted_ids_singleton trs1 ids Hd1).
  assert (Htr : is_Some (trs1 !! ids)) by (apply elem_of_dom; rewrite Hd1; set_solver).
  destruct Htr as [tr Htr].
  cbn [mapM]. rewrite Htr. cbn. rewrite ?Htr. cbn.
  destruct (cnt tr <=? 1)%Z; cbn; rewrite ?Htr; cbn.
  - eexists. split; [intros _; reflexivity|]. cbn.
    rewrite dom_insert_L, Hd1. set_solver.
  - eexists. split; [intros _; reflexivity|]. exact Hd1.
Qed.

End WithHelpers.
End RadardFacts.

(** ** Radar fusion on concrete inputs *)

Module RadardExamples.
Import NumpyFast Radard RadardInputs RadardFacts.

Lemma lead_zero_std_entry0 : has_entry0 lead_zero_std.
Proof. repeat split; eexists; reflexivity. Qed.

Lemma match_vision_to_cluster_total_witness :
  exists r, match_vision_to_cluster 30 lead_zero_std [matching_car; far_car] = Some r.
Proof.
  destruct (match_vision_to_cluster_total 30 lead_zero_std [matching_car; far_car])
    as (_ & r & Hr & _); [discriminate | exact lead_zero_std_entry0 |].
  exists r. exact Hr.
Defined.

(** With zero standard deviations the nearby car is matched. *)
Example match_vision_zero_std :
  match_vision_to_cluster 30 lead_zero_std [matching_car; far_car]
  = Some (Some matching_car).
Proof. vm_compute. reflexivity. Qed.

Lemma model_lead_kinematic :
  Forall (fun k => is_Some (num model_lead k)) kinematic_keys.
Proof. repeat constructor; eexists; vm_compute; reflexivity. Qed.

Lemma long_range_lead_passthrough_witness :
  exists self', LongRangeLead.update used_filter model_lead = Some (self', model_lead).
Proof.
  refine (proj2 (long_range_lead_passthrough used_filter model_lead
                   (VBool true) (VStr "modelLead") _ _ _ _) model_lead_kinematic);
    vm_compute; reflexivity.
Defined.

(** Track 3 is in the table, the reading holds track 7 only: after the
    call the table holds track 7 only. *)
Lemma tracks_follow_reading_witness :
  exists self' clusters,
    update_tracks hangs radar0 sm0 [point7] = Some (self', clusters) /\
    dom (tracks self') = reading_ids [point7] /\
    3%Z ∉ dom (tracks self').
Proof.
  destruct (update_tracks hangs radar0 sm0 [point7]) as [[self' clusters]|] eqn:E;
    [|exfalso; vm_compute in E; discriminate E].
  exists self', clusters. split; [reflexivity|].
  destruct (tracks_follow_reading hangs radar0 sm0 [point7] self' clusters E) as (Hd & Hn).
  split; [exact Hd|].
  apply Hn; vm_compute; [reflexivity | discriminate].
Defined.

Lemma single_track_cluster_witness :
  exists self',
    update_tracks hangs radar0 sm0 [point7] = Some (self', [Some [7%Z]]) /\
    dom (tracks self') = {[7%Z]}.
Proof.
  destruct (single_track_cluster radar0 sm0 [point7] 7) as (self' & Hu & Hd).
  - split; [discriminate | vm_compute; lia].
  - vm_compute. reflexivity.
  - exists self'. split; [apply Hu | exact Hd].
Defined.

(** C6, failing input.  Two cars in the left lane with the same lateral
    offset from the path: both leads get the key [abs(dPath) = 3] in
    [leads_left], the second assignment replaces the first, and the nearer
    car (at 10 m) is in none of the three lists. *)
Lemma adjacent_leads_lose_a_cluster :
  adjacent_view (get_path_adjacent_leads 30 (Some straight_path) 2 [near_car; far_car])
  = Some ([(Some 20, Some (-3.00))], [], []).
Proof. vm_compute. reflexivity. Qed.

(** Each of the two cars alone is reported. *)
Example adjacent_leads_near_alone :
  adjacent_view (get_path_adjacent_leads 30 (Some straight_path) 2 [near_car])
  = Some ([(Some 10, Some (-3.00))], [], []).
Proof. vm_compute. reflexivity. Qed.

(** Without a model message the guard of line 185 dereferences [None]. *)
Example adjacent_leads_without_model :
  get_path_adjacent_leads 30 None 2 [near_car] = None.
Proof. reflexivity. Qed.

End RadardExamples.

(** ** Where [interp] returns *)

Module InterpMore.
Import NumpyFast.

(** With at least one breakpoint and a value for every breakpoint,
    [interp] returns. *)
Lemma interp_defined x (xp fp : list Q) :
  (1 <= length xp <= length fp)%nat -> is_Some (interp x xp fp).
Proof.
  intros (H1 & H2). unfold interp.
  pose proof (InterpFacts.interp_hi_spec x xp 0) as Hs. cbn zeta in Hs.
  set (h := interp_hi x xp 0) in *. destruct Hs as ((_ & Hh) & _).
  destruct (Nat.eqb_spec h (length xp)) as [E|E].
  - destruct (last xp) eqn:El; [|apply last_None in El; subst; cbn in H1; lia].
    cbn. destruct (last fp) eqn:Ef; [eauto|].
    apply last_None in Ef; subst; cbn in H2; lia.
  - destruct (Nat.eqb_spec h 0) as [E0|E0]; [apply lookup_lt_is_Some_2; lia|].
    destruct (lookup_lt_is_Some_2 xp (h - 1)) as [xl ->]; [lia|].
    destruct (lookup_lt_is_Some_2 xp h) as [xh ->]; [lia|].
    destruct (lookup_lt_is_Some_2 fp (h - 1)) as [fl ->]; [lia|].
    destruct (lookup_lt_is_Some_2 fp h) as [fh ->]; [lia|].
    cbn. eauto.
Qed.

End InterpMore.

(** ** The actuator controller: frames, counters and bookkeeping *)

Module GMMore.
Import NumpyFast GM GMSpec GMFacts.

Section WithCollaborators.
Context {PIDController : Type} `{Co : Collaborators PIDController}.

Lemma mod_Some a b m : Py.mod_ a b = Some m -> b <> 0%Z /\ m = (a mod b)%Z.
Proof.
  unfold Py.mod_. destruct (Z.eqb_spec b 0); [discriminate|]. intros [= <-]. auto.
Qed.

Lemma mod_defined a b : b <> 0%Z -> Py.mod_ a b = Some (a mod b)%Z.
Proof. intros H. unfold Py.mod_. now destruct (Z.eqb_spec b 0). Qed.

(** *** What each phase sends *)

Lemma update_steering_kinds (self : CarController PIDController) enabled CS frame actuators self' sends :
  update_steering self enabled CS frame actuators = Some (self', sends) ->
  kind <$> sends = if steering_due self CS frame then [KSteering] else [].
Proof.
  unfold update_steering, steering_due.
  destruct (Z.eqb_spec (lka_steering_cmd_counter CS) (lka_steering_cmd_counter_last self));
    cbn [negb andb].
  - intros H. apply bind_Some in H as (m & Hm & H). apply mod_Some in Hm as (_ & ->).
    destruct (_ =? 0)%Z.
    + destruct (if lkas_enabled_of _ _ _ then _ else _) as [[a r] P'].
      now inversion H.
    + now inversion H.
  - now intros [= <- <-].
Qed.

Lemma update_gas_brake_kinds (self : CarController PIDController) enabled CS W frame npg W' sends :
  update_gas_brake self enabled CS W frame npg = (W', sends) ->
  kind <$> sends =
  if (frame mod 4 =? 0)%Z
  then if auto_hold enabled CS then [KFrictionBrake] else [KFrictionBrake; KGasRegen]
  else [].
Proof.
  unfold update_gas_brake. destruct (_ =? 0)%Z; [|now intros [= <- <-]].
  destruct (auto_hold enabled CS); [now intros [= <- <-]|].
  destruct (if pause_long_on_gas_press CS then _ else _) as [[[afs ns] cs] ss].
  destruct (if ss && negb cs then _ else _) as [acc W2].
  now intros [= <- <-].
Qed.

Lemma update_dashboard_kinds enabled CS W frame hvc hsc alert W' sends :
  update_dashboard enabled CS W frame hvc hsc alert = (W', sends) ->
  kind <$> sends = if (frame mod 4 =? 0)%Z then [KAccDashboard] else [].
Proof.
  unfold update_dashboard. destruct (_ =? 0)%Z; now intros [= <- <-].
Qed.

Lemma update_adas_kinds (self : CarController PIDController) CS frame sends :
  update_adas self CS frame = Some sends ->
  kind <$> sends =
  (if (frame mod 10 =? 0)%Z then [KAdasTime; KAdasHeadlights] else [])
  ++ (if (frame mod 2 =? 0)%Z then [KAdasSteeringStatus; KAdasAccelerometer] else [])
  ++ (if (frame mod ADAS_KEEPALIVE_STEP (params self) =? 0)%Z then [KAdasKeepalive] else []).
Proof.
  unfold update_adas. intros H. apply bind_Some in H as (m & Hm & H).
  apply mod_Some in Hm as (_ & ->). inversion H; subst; clear H.
  rewrite !fmap_app.
  destruct (frame mod 10 =? 0)%Z, (frame mod 2 =? 0)%Z, (_ =? 0)%Z; reflexivity.
Qed.

Lemma update_lka_icon_kinds (self : CarController PIDController) CS frame actuators alert self' sends :
  update_lka_icon self CS frame actuators alert = Some (self', sends) ->
  kind <$> sends = (if icon_due self CS frame actuators then [KLkaIcon] else []) /\
  lka_icon_status_last self' = lka_icon_status CS actuators.
Proof.
  unfold update_lka_icon, icon_due, lka_icon_status. intros H.
  apply bind_Some in H as (m & Hm & H). apply mod_Some in Hm as (_ & ->).
  destruct (_ =? 0)%Z; cbn [orb] in *; [now inversion H|].
  destruct (bool_decide _) eqn:E; cbn [negb] in *; inversion H; subst; clear H.
  - apply bool_decide_eq_true in E. now split.
  - now split.
Qed.

(** The first two phases leave alone what the later ones read from [self]. *)
Lemma steering_long_keep (self : CarController PIDController) enabled CS W frame actuators t
      s1 sends1 s2 W2 npg :
  update_steering self enabled CS frame actuators = Some (s1, sends1) ->
  update_long s1 enabled CS W frame actuators t = Some (s2, W2, npg) ->
  lka_icon_status_last s2 = lka_icon_status_last self /\
  start_time s2 = start_time self /\
  ADAS_KEEPALIVE_STEP (params s2) = ADAS_KEEPALIVE_STEP (params self) /\
  CAMERA_KEEPALIVE_STEP (params s2) = CAMERA_KEEPALIVE_STEP (params self).
Proof.
  intros E1 E2.
  apply update_steering_shape in E1 as (E1 & _).
  apply update_long_shape in E2.
  destruct E2 as [->|(P' & pid & d & din & g & b & -> & HP')];
    destruct E1 as [->|[->|(a & r & [->| ->])]]; cbn; auto;
    cbn in HP'; rewrite HP'; auto.
Qed.

(** X1.  The kinds of the frames returned by a call of [update], and their
    order, are fixed by the frame number and three gates: a steering
    command when the loopback counter is the recorded one and the frame is
    a multiple of [STEER_STEP]; on multiples of 4 a friction-brake command,
    a gas/regen command unless auto-hold applies, and a dashboard command;
    on multiples of 10 the time and headlight status; on multiples of 2 the
    steering status and accelerometer; on multiples of
    [ADAS_KEEPALIVE_STEP] the keep-alive; and the LKA icon on multiples of
    [CAMERA_KEEPALIVE_STEP] or when the icon status changed. *)
Theorem frame_schedule
        (self : CarController PIDController) enabled CS W frame actuators hvc hsl hsc alert t self' W' sends :
  update self enabled CS W frame actuators hvc hsl hsc alert t = Some (self', W', sends) ->
  kind <$> sends = schedule self enabled CS frame actuators.
Proof.
  intros H.
  apply update_inv in H
    as (s1 & sends1 & s2 & W2 & npg & W3 & W4 & sends2 & sends3 & sends4 & sends5
        & E1 & E2 & E3 & E4 & E5 & E6 & E7 & ->).
  destruct (steering_long_keep _ _ _ _ _ _ _ _ _ _ _ _ E1 E2) as (Hi & _ & Ha & Hc).
  apply update_steering_kinds in E1. apply update_gas_brake_kinds in E4.
  apply update_dashboard_kinds in E5. apply update_adas_kinds in E6.
  apply update_lka_icon_kinds in E7 as (E7 & _).
  rewrite !fmap_app, E1, E4, E5, E6, E7. unfold schedule, icon_due.
  rewrite Hi, Ha, Hc.
  destruct (frame mod 4 =? 0)%Z; rewrite <- ?app_assoc; reflexivity.
Qed.

(** X3.  After every call that returns, [lka_icon_status_last] is the pair
    [(lka_active, lka_critical)] computed by that call, whether or not the
    icon command was sent. *)
Theorem icon_status_recorded
        (self : CarController PIDController) enabled CS W frame actuators hvc hsl hsc alert t self' W' sends :
  update self enabled CS W frame actuators hvc hsl hsc alert t = Some (self', W', sends) ->
  lka_icon_status_last self' = lka_icon_status CS actuators.
Proof.
  intros H.
  apply update_inv in H
    as (s1 & sends1 & s2 & W2 & npg & W3 & W4 & sends2 & sends3 & sends4 & sends5
        & E1 & E2 & E3 & E4 & E5 & E6 & E7 & ->).
  now apply update_lka_icon_kinds in E7 as (_ & E7).
Qed.

(** *** Counters *)

Lemma kinds_Forall (P : Kind -> Prop) (l : list CanSend) ks :
  kind <$> l = ks -> Forall P ks -> Forall (fun f => P (kind f)) l.
Proof. intros <- H. induction l; inversion H; subst; constructor; auto. Qed.

Ltac by_kinds P :=
  eapply (kinds_Forall P); [eassumption|];
  repeat apply Forall_app_2;
  repeat match goal with |- context [if ?b then _ else _] => destruct b end;
  repeat constructor; discriminate.

Lemma update_steering_idx (self : CarController PIDController) enabled CS frame actuators self' sends :
  update_steering self enabled CS frame actuators = Some (self', sends) ->
  Forall (fun f => idx_of f = expected_idx CS frame (kind f)) sends.
Proof.
  unfold update_steering. destruct (negb _); [intros [= <- <-]; constructor|].
  intros H. apply bind_Some in H as (m & _ & H).
  destruct (m =? 0)%Z; [|inversion H; constructor].
  destruct (if lkas_enabled_of _ _ _ then _ else _) as [[a r] P'].
  inversion H; subst. repeat constructor.
Qed.

Lemma update_gas_brake_idx (self : CarController PIDController) enabled CS W frame npg W' sends :
  update_gas_brake self enabled CS W frame npg = (W', sends) ->
  Forall (fun f => idx_of f = expected_idx CS frame (kind f)) sends.
Proof.
  unfold update_gas_brake. destruct (_ =? 0)%Z; [|intros [= <- <-]; constructor].
  destruct (auto_hold enabled CS); [intros [= <- <-]; repeat constructor|].
  destruct (if pause_long_on_gas_press CS then _ else _) as [[[afs ns] cs] ss].
  destruct (if ss && negb cs then _ else _) as [acc W2].
  intros [= <- <-]; repeat constructor.
Qed.

Lemma update_adas_idx (self : CarController PIDController) CS frame sends :
  update_adas self CS frame = Some sends ->
  Forall (fun f => idx_of f = expected_idx CS frame (kind f)) sends.
Proof.
  unfold update_adas. intros H. apply bind_Some in H as (m & _ & H).
  inversion H; subst; clear H.
  repeat apply Forall_app_2;
    repeat match goal with |- context [if ?b then _ else _] => destruct b end;
    repeat constructor.
Qed.

(** X2.  Every frame returned by [update] that carries a rolling counter
    carries the one derived from the frame number and the period of its
    kind (for the steering command: the loopback counter plus one), reduced
    modulo 4, so it lies in 0..3; dashboard, headlight, keep-alive and icon
    frames carry none. *)
Theorem rolling_counters
        (self : CarController PIDController) enabled CS W frame actuators hvc hsl hsc alert t self' W' sends :
  update self enabled CS W frame actuators hvc hsl hsc alert t = Some (self', W', sends) ->
  Forall (fun f => idx_of f = expected_idx CS frame (kind f) /\
                   forall i, idx_of f = Some i -> (0 <= i < 4)%Z) sends.
Proof.
  intros H.
  apply update_inv in H
    as (s1 & sends1 & s2 & W2 & npg & W3 & W4 & sends2 & sends3 & sends4 & sends5
        & E1 & E2 & E3 & E4 & E5 & E6 & E7 & ->).
  assert (Hall : Forall (fun f => idx_of f = expected_idx CS frame (kind f))
                        (sends1 ++ sends2 ++ sends3 ++ sends4 ++ sends5)).
  { repeat apply Forall_app_2.
    - eapply update_steering_idx, E1.
    - eapply update_gas_brake_idx, E4.
    - unfold update_dashboard in E5. destruct (_ =? 0)%Z; inversion E5; repeat constructor.
    - eapply update_adas_idx, E6.
    - unfold update_lka_icon in E7. apply bind_Some in E7 as (m & _ & E7).
      destruct (_ || _); inversion E7; repeat constructor. }
  eapply Forall_impl; [exact Hall|]. cbn. intros f Hf. split; [exact Hf|].
  intros i Hi. rewrite Hf in Hi.
  destruct (kind f); cbn in Hi; inversion Hi; subst; apply Z.mod_pos_bound; lia.
Qed.

(** *** Steering torque *)

Lemma update_steering_off (self : CarController PIDController) enabled CS frame actuators self' sends :
  lkas_enabled_of enabled (params self) CS = false ->
  update_steering self enabled CS frame actuators = Some (self', sends) ->
  Forall (fun f => steering_torque f = Some (0%Z, false)) sends /\
  (steering_due self CS frame = true -> apply_steer_last self' = 0%Z) /\
  (steering_due self CS frame = false -> apply_steer_last self' = apply_steer_last self) /\
  steer_rate_limited self' = steer_rate_limited self /\
  params self' = params self.
Proof.
  intros Hoff. unfold update_steering, steering_due.
  destruct (Z.eqb_spec (lka_steering_cmd_counter CS) (lka_steering_cmd_counter_last self));
    cbn [negb andb].
  - intros H. apply bind_Some in H as (m & Hm & H). apply mod_Some in Hm as (_ & ->).
    rewrite Hoff in H.
    destruct (_ =? 0)%Z; inversion H; subst; clear H; cbn;
      repeat split; repeat constructor; discriminate.
  - intros [= <- <-]. cbn. repeat split; try constructor; discriminate.
Qed.

(** X5.  When the steering-enable condition of line 91 fails (for example
    when neither [enabled] nor [CS.pause_long_on_gas_press] is set), every
    steering command of the call carries torque 0 and the enable flag
    cleared, [apply_steer_last] becomes 0 if a command was sent and is kept
    otherwise, and [steer_rate_limited] and the parameters are not
    touched: [P.v_ego] and every other attribute of [P] are kept, the
    breakpoint tables apart, which the threshold call of lines 120-124 may
    rewrite. *)
Theorem no_torque_when_lkas_off
        (self : CarController PIDController) enabled CS W frame actuators hvc hsl hsc alert t self' W' sends :
  lkas_enabled_of enabled (params self) CS = false ->
  update self enabled CS W frame actuators hvc hsl hsc alert t = Some (self', W', sends) ->
  (forall f tq, f ∈ sends -> steering_torque f = Some tq -> tq = (0%Z, false)) /\
  apply_steer_last self'
  = (if steering_due self CS frame then 0%Z else apply_steer_last self) /\
  steer_rate_limited self' = steer_rate_limited self /\
  v_ego (params self') = v_ego (params self) /\
  params self' = set_lookup_bp (params self) (GAS_LOOKUP_BP (params self'))
                               (BRAKE_LOOKUP_BP (params self')).
Proof.
  intros Hoff H.
  apply update_inv in H
    as (s1 & sends1 & s2 & W2 & npg & W3 & W4 & sends2 & sends3 & sends4 & sends5
        & E1 & E2 & E3 & E4 & E5 & E6 & E7 & ->).
  destruct (update_steering_off _ _ _ _ _ _ _ Hoff E1) as (F1 & Hd1 & Hd0 & Hr & Hp).
  apply update_gas_brake_kinds in E4. apply update_dashboard_kinds in E5.
  apply update_adas_kinds in E6.
  pose proof (update_lka_icon_kinds _ _ _ _ _ _ _ E7) as (K7 & _).
  assert (Hrest : Forall (fun f => kind f <> KSteering)
                         (sends2 ++ sends3 ++ sends4 ++ sends5)).
  { repeat apply Forall_app_2; by_kinds (fun k => k <> KSteering). }
  split.
  - intros f tq Hin Htq. apply elem_of_app in Hin as [Hin|Hin].
    + rewrite Forall_forall in F1. specialize (F1 f Hin). congruence.
    + rewrite Forall_forall in Hrest. specialize (Hrest f Hin).
      destruct f; cbn in Htq; try discriminate. now contradiction Hrest.
  - apply update_long_shape in E2. apply update_lka_icon_shape in E7 as (_ & E7).
    assert (Hs : apply_steer_last self' = apply_steer_last s1 /\
                 steer_rate_limited self' = steer_rate_limited s1 /\
                 params self' = set_lookup_bp (params s1) (GAS_LOOKUP_BP (params self'))
                                              (BRAKE_LOOKUP_BP (params self'))).
    { destruct E7 as [->|(st & ->)];
        destruct E2 as [->|(P' & pid & d & din & g & b & -> & HP')]; cbn;
        auto using set_lookup_bp_same. }
    destruct Hs as (-> & -> & Hs). rewrite Hp in Hs.
    split; [destruct (steering_due self CS frame); auto|].
    split; [assumption|]. split; [now rewrite Hs|exact Hs].
Qed.

(** *** The resume flag *)

Lemma update_gas_brake_resume (self : CarController PIDController) enabled CS W frame npg W' sends :
  update_gas_brake self enabled CS W frame npg = (W', sends) ->
  resume_button_pressed W' = resume_button_pressed W \/
  Exists (fun g => gas_acc_enabled g = Some false) sends.
Proof.
  unfold update_gas_brake. destruct (_ =? 0)%Z; [|intros [= <- <-]; now left].
  destruct (auto_hold enabled CS); [intros [= <- <-]; now left|].
  destruct (if pause_long_on_gas_press CS then _ else _) as [[[afs ns] cs] ss].
  destruct (ss && negb cs); [destruct (do_sng CS); [|destruct (Py.ltb _ _)]|];
    intros [= <- <-]; try (now left).
  right. apply Exists_cons_tl, Exists_cons_hd. reflexivity.
Qed.

(** X6.  On a 25 Hz slot [CS.resume_button_pressed] is cleared when the
    call returns.  If the flag was clear on entry and the dashboard command
    of the call carries it set, then the call took the auto-resume branch:
    its gas/regen command has ACC disabled. *)
Theorem resume_resets_acc
        (self : CarController PIDController) enabled CS W frame actuators hvc hsl hsc alert t self' W' sends :
  update self enabled CS W frame actuators hvc hsl hsc alert t = Some (self', W', sends) ->
  ((frame mod 4 = 0)%Z -> resume_button_pressed W' = false) /\
  (resume_button_pressed W = false ->
   forall f, f ∈ sends -> dashboard_resume f = Some true ->
             Exists (fun g => gas_acc_enabled g = Some false) sends).
Proof.
  intros H.
  apply update_inv in H
    as (s1 & sends1 & s2 & W2 & npg & W3 & W4 & sends2 & sends3 & sends4 & sends5
        & E1 & E2 & E3 & E4 & E5 & E6 & E7 & ->).
  split.
  - intros Hf. unfold update_dashboard in E5. rewrite Hf in E5. now inversion E5.
  - intros HW f Hin Hres.
    assert (H2 : resume_button_pressed W2 = false).
    { unfold update_long in E2. destruct (_ =? 0)%Z; [|inversion E2; now subst].
      destruct (_ || _); [inversion E2; now subst|].
      apply bind_Some in E2 as ([s n] & _ & E2). inversion E2; now subst. }
    assert (H3 : resume_button_pressed W3 = false).
    { unfold update_brake_indicator in E3. destruct (showBrakeIndicator CS).
      - apply bind_Some in E3 as (x & _ & E3). inversion E3; now subst.
      - inversion E3; now subst. }
    pose proof (update_gas_brake_resume _ _ _ _ _ _ _ _ E4) as [Hsame|Hacc].
    + exfalso. rewrite H3 in Hsame.
      pose proof (update_steering_kinds _ _ _ _ _ _ _ E1) as K1.
      pose proof (update_gas_brake_kinds _ _ _ _ _ _ _ _ E4) as K2.
      pose proof (update_adas_kinds _ _ _ _ E6) as K4.
      pose proof (update_lka_icon_kinds _ _ _ _ _ _ _ E7) as (K5 & _).
      assert (Hno : forall l, Forall (fun f => kind f <> KAccDashboard) l -> f ∈ l -> False).
      { intros l Hl Hl'. rewrite Forall_forall in Hl. specialize (Hl f Hl').
        destruct f; cbn in Hres; try discriminate. now contradiction Hl. }
      rewrite !elem_of_app in Hin. destruct Hin as [Hin|[Hin|[Hin|[Hin|Hin]]]].
      * eapply Hno; [|exact Hin]. by_kinds (fun k => k <> KAccDashboard).
      * eapply Hno; [|exact Hin]. by_kinds (fun k => k <> KAccDashboard).
      * unfold update_dashboard in E5. destruct (_ =? 0)%Z; inversion E5; subst.
        -- apply list_elem_of_singleton in Hin. subst f. cbn in Hres. congruence.
        -- now apply elem_of_nil in Hin.
      * eapply Hno; [|exact Hin]. by_kinds (fun k => k <> KAccDashboard).
      * eapply Hno; [|exact Hin]. by_kinds (fun k => k <> KAccDashboard).
    + apply Exists_app. right. apply Exists_app. now left.
Qed.

(** *** What is written back to [CS] *)

Lemma set_apply_brake_percent_same W :
  W = set_apply_brake_percent W (apply_brake_percent W).
Proof. now destruct W. Qed.

Lemma update_brake_indicator_shape (self : CarController PIDController) CS W W' :
  update_brake_indicator self CS W = Some W' ->
  W' = set_apply_brake_percent W (apply_brake_percent W').
Proof.
  unfold update_brake_indicator. destruct (showBrakeIndicator CS).
  - intros H. apply bind_Some in H as (x & _ & H). now inversion H.
  - intros [= <-]. apply set_apply_brake_percent_same.
Qed.

Lemma update_gas_brake_keeps (self : CarController PIDController) enabled CS W frame npg W' sends :
  update_gas_brake self enabled CS W frame npg = (W', sends) ->
  brake_cmd W' = brake_cmd W /\ apply_brake_percent W' = apply_brake_percent W /\
  one_pedal_mode_active_last W' = one_pedal_mode_active_last W /\
  coast_one_pedal_mode_active_last W' = coast_one_pedal_mode_active_last W.
Proof.
  unfold update_gas_brake. destruct (_ =? 0)%Z; [|now intros [= <- <-]].
  destruct (auto_hold enabled CS); [now intros [= <- <-]|].
  destruct (if pause_long_on_gas_press CS then _ else _) as [[[afs ns] cs] ss].
  destruct (ss && negb cs); [destruct (do_sng CS); [|destruct (Py.ltb _ _)]|];
    now intros [= <- <-].
Qed.

Lemma update_dashboard_keeps enabled CS W frame hvc hsc alert W' sends :
  update_dashboard enabled CS W frame hvc hsc alert = (W', sends) ->
  brake_cmd W' = brake_cmd W /\ apply_brake_percent W' = apply_brake_percent W /\
  one_pedal_mode_active_last W' = one_pedal_mode_active_last W /\
  coast_one_pedal_mode_active_last W' = coast_one_pedal_mode_active_last W.
Proof.
  unfold update_dashboard. destruct (_ =? 0)%Z; now intros [= <- <-].
Qed.

(** The longitudinal attributes after the whole call are the ones the
    longitudinal phase left. *)
Lemma update_lka_icon_long (self : CarController PIDController) CS frame actuators alert self' sends :
  update_lka_icon self CS frame actuators alert = Some (self', sends) ->
  apply_gas self' = apply_gas self /\ apply_brake self' = apply_brake self /\
  one_pedal_pid self' = one_pedal_pid self /\
  one_pedal_decel self' = one_pedal_decel self /\
  one_pedal_decel_in self' = one_pedal_decel_in self.
Proof.
  intros H. apply update_lka_icon_shape in H as (_ & [->|(st & ->)]); cbn; auto.
Qed.

Lemma update_steering_long (self : CarController PIDController) enabled CS frame actuators self' sends :
  update_steering self enabled CS frame actuators = Some (self', sends) ->
  apply_gas self' = apply_gas self /\ apply_brake self' = apply_brake self /\
  one_pedal_pid self' = one_pedal_pid self /\
  one_pedal_decel self' = one_pedal_decel self /\
  one_pedal_decel_in self' = one_pedal_decel_in self.
Proof.
  intros H. apply update_steering_shape in H as ([->|[->|(a & r & [->| ->])]] & _);
    cbn; auto.
Qed.

(** The tables of the parameters survive the steering phase, which only
    writes [P.v_ego]. *)
Lemma update_steering_tables (self : CarController PIDController) enabled CS frame actuators self' sends :
  update_steering self enabled CS frame actuators = Some (self', sends) ->
  exists v, params self' = set_v_ego (params self) v.
Proof.
  intros H. apply update_steering_params in H as [->| ->]; [|eauto].
  exists (v_ego (params self)). now destruct (params self).
Qed.

(** X7.  On a tick that is not a 25 Hz slot the longitudinal attributes of
    the controller ([apply_gas], [apply_brake], the one-pedal PID and both
    one-pedal decelerations) are left as they were, and of the attributes
    written to [CS] only [apply_brake_percent] can change. *)
Theorem off_slot_untouched
        (self : CarController PIDController) enabled CS W frame actuators hvc hsl hsc alert t self' W' sends :
  (frame mod 4 <> 0)%Z ->
  update self enabled CS W frame actuators hvc hsl hsc alert t = Some (self', W', sends) ->
  apply_gas self' = apply_gas self /\ apply_brake self' = apply_brake self /\
  one_pedal_pid self' = one_pedal_pid self /\
  one_pedal_decel self' = one_pedal_decel self /\
  one_pedal_decel_in self' = one_pedal_decel_in self /\
  W' = set_apply_brake_percent W (apply_brake_percent W').
Proof.
  intros Hf H.
  apply update_inv in H
    as (s1 & sends1 & s2 & W2 & npg & W3 & W4 & sends2 & sends3 & sends4 & sends5
        & E1 & E2 & E3 & E4 & E5 & E6 & E7 & ->).
  apply Z.eqb_neq in Hf.
  unfold update_long in E2. rewrite Hf in E2. inversion E2; subst; clear E2.
  unfold update_gas_brake in E4. rewrite Hf in E4. inversion E4; subst; clear E4.
  unfold update_dashboard in E5. rewrite Hf in E5. inversion E5; subst; clear E5.
  apply update_steering_long in E1 as (<- & <- & <- & <- & <-).
  apply update_lka_icon_long in E7 as (-> & -> & -> & -> & ->).
  repeat split. eapply update_brake_indicator_shape, E3.
Qed.

(** X8.  On a 25 Hz slot [CS.brake_cmd] is left equal to the controller's
    [apply_brake]; the two [..._active_last] flags of [CS] are copied from
    the current flags on an enabled, unpaused slot and are left alone on a
    disabled or paused one. *)
Theorem slot_writeback
        (self : CarController PIDController) enabled CS W frame actuators hvc hsl hsc alert t self' W' sends :
  (frame mod 4 = 0)%Z ->
  update self enabled CS W frame actuators hvc hsl hsc alert t = Some (self', W', sends) ->
  brake_cmd W' = apply_brake self' /\
  (enabled = true -> pause_long_on_gas_press CS = false ->
   one_pedal_mode_active_last W' = one_pedal_mode_active CS /\
   coast_one_pedal_mode_active_last W' = coast_one_pedal_mode_active CS) /\
  (enabled = false \/ pause_long_on_gas_press CS = true ->
   one_pedal_mode_active_last W' = one_pedal_mode_active_last W /\
   coast_one_pedal_mode_active_last W' = coast_one_pedal_mode_active_last W).
Proof.
  intros Hf H.
  apply update_inv in H
    as (s1 & sends1 & s2 & W2 & npg & W3 & W4 & sends2 & sends3 & sends4 & sends5
        & E1 & E2 & E3 & E4 & E5 & E6 & E7 & ->).
  apply update_dashboard_keeps in E5 as (-> & _ & -> & ->).
  apply update_gas_brake_keeps in E4 as (-> & _ & -> & ->).
  apply update_brake_indicator_shape in E3. rewrite E3. cbn.
  apply update_lka_icon_long in E7 as (_ & -> & _).
  unfold update_long in E2. rewrite Hf in E2. cbn [Z.eqb] in E2.
  destruct (negb enabled || pause_long_on_gas_press CS) eqn:Ed.
  - inversion E2; subst; clear E2. cbn. split; [reflexivity|]. split; [|auto].
    intros -> Hp. rewrite Hp in Ed. discriminate.
  - apply bind_Some in E2 as ([s n] & _ & E2). inversion E2; subst; clear E2. cbn.
    split; [reflexivity|]. split; [auto|].
    intros [-> | Hp]; [discriminate|]. rewrite Hp, orb_true_r in Ed. discriminate.
Qed.

(** *** The brake indicator *)

Lemma brake_percent_range (self : CarController PIDController) CS x :
  brake_percent self CS = Some x -> 0 <= x <= 100.
Proof.
  assert (Hregen : forall bp r, interp (hvb_wattage CS) bp [0; 49] = Some r -> 0 <= r <= 100).
  { intros bp r. apply InterpFacts.interp_between. repeat constructor; lra. }
  assert (Hup : forall y bp r, interp y bp [51; 100] = Some r -> 0 <= r <= 100).
  { intros y bp r. apply InterpFacts.interp_between. repeat constructor; lra. }
  assert (Hdown : forall y bp r, interp y bp [51; 0] = Some r -> 0 <= r <= 100).
  { intros y bp r. apply InterpFacts.interp_between. repeat constructor; lra. }
  assert (H0 : forall r : Q, Some 0 = Some r -> 0 <= r <= 100)
    by (intros r [= <-]; lra).
  unfold brake_percent.
  repeat match goal with
         | |- (if ?b then _ else _) = _ -> _ => destruct b
         end; eauto.
  - intros H. repeat (apply bind_Some in H as (? & _ & H)). eauto.
  - intros H. repeat (apply bind_Some in H as (? & _ & H)). eauto.
Qed.

(** X9.  With [CS.showBrakeIndicator] set, a call that returns leaves
    [CS.apply_brake_percent] between 0 and 100; with it clear the value is
    not touched. *)
Theorem brake_indicator_percent
        (self : CarController PIDController) enabled CS W frame actuators hvc hsl hsc alert t self' W' sends :
  update self enabled CS W frame actuators hvc hsl hsc alert t = Some (self', W', sends) ->
  if showBrakeIndicator CS then 0 <= apply_brake_percent W' <= 100
  else apply_brake_percent W' = apply_brake_percent W.
Proof.
  intros H.
  apply update_inv in H
    as (s1 & sends1 & s2 & W2 & npg & W3 & W4 & sends2 & sends3 & sends4 & sends5
        & E1 & E2 & E3 & E4 & E5 & E6 & E7 & ->).
  apply update_dashboard_keeps in E5 as (_ & -> & _).
  apply update_gas_brake_keeps in E4 as (_ & -> & _).
  unfold update_brake_indicator in E3. destruct (showBrakeIndicator CS).
  - apply bind_Some in E3 as (x & Ex & E3). inversion E3; subst; clear E3. cbn.
    eapply brake_percent_range, Ex.
  - inversion E3; subst; clear E3.
    unfold update_long in E2. destruct (_ =? 0)%Z; [|now inversion E2].
    destruct (_ || _); [now inversion E2|].
    apply bind_Some in E2 as ([s n] & _ & E2). now inversion E2.
Qed.

(** *** One-pedal modes *)

Lemma rate_limits_nonneg :
  0 <= DT_CTRL -> 0 <= ONE_PEDAL_DECEL_RATE_LIMIT_UP /\ 0 <= ONE_PEDAL_DECEL_RATE_LIMIT_DOWN.
Proof.
  intros H. unfold ONE_PEDAL_DECEL_RATE_LIMIT_UP, ONE_PEDAL_DECEL_RATE_LIMIT_DOWN.
  split; lra.
Qed.

Lemma max_mono a b c : a <= b -> Py.max a c <= Py.max b c.
Proof.
  intros H.
  destruct (PyFacts.max_cases a c) as [[-> ?]|[-> ?]];
    destruct (PyFacts.max_cases b c) as [[-> ?]|[-> ?]]; lra.
Qed.

Lemma one_pedal_active_rate P CS (pid : PIDController) decel pitch_accel pid' d' din b :
  0 <= DT_CTRL ->
  one_pedal_active P CS pid decel pitch_accel = Some (pid', d', din, b) ->
  d' <= Py.max (decel + ONE_PEDAL_DECEL_RATE_LIMIT_DOWN) ONE_PEDAL_MAX_DECEL.
Proof.
  intros Hdt H. destruct (rate_limits_nonneg Hdt) as (Hup & Hdown).
  unfold one_pedal_active in H.
  repeat (apply bind_Some in H as (? & _ & H)).
  destruct (pid_update _ _ _ _ _) as [raw pid1].
  apply bind_Some in H as (b1 & _ & H). inversion H; subst; clear H.
  apply max_mono, InterpFacts.clip_upper.
  pose proof (PyFacts.max_ge_l 1 (0.5 - raw * 0.5)) as Hm.
  assert (0 <= ONE_PEDAL_DECEL_RATE_LIMIT_UP * Py.max 1 (0.5 - raw * 0.5))
    by (apply Qmult_le_0_compat; lra).
  lra.
Qed.

Lemma one_pedal_coast_spec P CS (pid : PIDController) decel decel_in th ab pid' d' din' g b :
  one_pedal_mode_active CS = false ->
  one_pedal P CS pid decel decel_in th ab = Some (pid', d', din', g, b) ->
  pid' = pid /\ d' = decel /\
  din' = clip (if dl_coasting CS then 0 else Py.min (out_aEgo CS) th)
              (decel_in - ONE_PEDAL_DECEL_RATE_LIMIT_UP)
              (decel_in + ONE_PEDAL_DECEL_RATE_LIMIT_DOWN) /\
  g = inject_Z (if dl_coasting CS then ZERO_GAS P else MAX_ACC_REGEN P) /\
  b = (if one_pedal_mode_op_braking_allowed CS then Py.max ab 0 else 0).
Proof.
  intros Ha H. unfold one_pedal in H. rewrite Ha in H. cbn [negb andb] in H.
  apply bind_Some in H as (f & _ & H). cbn in H. inversion H; subst; clear H.
  repeat split.
  - now destruct (dl_coasting CS).
  - destruct (one_pedal_mode_op_braking_allowed CS); cbn [negb orb]; [|reflexivity].
    unfold Py.max, Py.gtb. now destruct (Py.ltb ab 0).
Qed.

(** The enabled branch in the one-pedal modes works on the stored PID and
    decelerations. *)
Lemma long_enabled_one_pedal (self : CarController PIDController) CS actuators t self' npg :
  one_pedal_mode_active CS || coast_one_pedal_mode_active CS = true ->
  long_enabled self CS actuators t = Some (self', npg) ->
  exists ab pid' d' din' g b,
    planner_brake (snd (threshold_accel_of self CS t)) CS actuators = Some ab /\
    one_pedal (snd (threshold_accel_of self CS t)) CS
              (one_pedal_pid self) (one_pedal_decel self)
              (one_pedal_decel_in self) (fst (threshold_accel_of self CS t)) ab
    = Some (pid', d', din', g, b) /\
    self' = set_long (set_params self (snd (threshold_accel_of self CS t)))
                     pid' d' din' (Py.round g) (Py.round b).
Proof.
  intros Hm H. unfold long_enabled in H. rewrite Hm in H.
  assert (Hn : negb (one_pedal_mode_active CS) && negb (coast_one_pedal_mode_active CS)
               = false)
    by (destruct (one_pedal_mode_active CS), (coast_one_pedal_mode_active CS);
        try reflexivity; discriminate).
  rewrite Hn in H.
  apply bind_Some in H as (k & Ek & H).
  destruct (threshold_accel_of self CS t) as [th P']. cbn [fst snd].
  apply bind_Some in H as (ag & _ & H).
  apply bind_Some in H as (np & _ & H).
  apply bind_Some in H as (ab & Eab & H).
  apply bind_Some in H as ([gl bl] & _ & H).
  apply bind_Some in H as ([[[[pid' d'] din'] g'] b'] & E & H).
  inversion H; subst; clear H.
  exists ab, pid', d', din', g', b'. split; [|split; [exact E | reflexivity]].
  unfold planner_brake. rewrite Ek. exact Eab.
Qed.

Lemma planner_brake_v_ego P v CS actuators :
  planner_brake (set_v_ego P v) CS actuators = planner_brake P CS actuators.
Proof. reflexivity. Qed.

Lemma update_long_enabled (self : CarController PIDController) enabled CS W frame actuators t self' W' npg :
  (frame mod 4 = 0)%Z -> enabled = true -> pause_long_on_gas_press CS = false ->
  update_long self enabled CS W frame actuators t = Some (self', W', npg) ->
  long_enabled self CS actuators t = Some (self', npg).
Proof.
  intros Hf -> Hp H. unfold update_long in H. rewrite Hf, Hp in H. cbn in H.
  apply bind_Some in H as ([s n] & E & H). now inversion H; subst.
Qed.

(** X10.  With a non-negative control period, one enabled 25 Hz slot in
    one-pedal mode raises [one_pedal_decel] by at most
    [ONE_PEDAL_DECEL_RATE_LIMIT_DOWN], unless the floor
    [ONE_PEDAL_MAX_DECEL] is higher; in coast-one-pedal mode
    [one_pedal_decel_in] moves by at most the two rate limits. *)
Theorem one_pedal_rate_limit
        (self : CarController PIDController) enabled CS W frame actuators hvc hsl hsc alert t self' W' sends :
  0 <= DT_CTRL ->
  (frame mod 4 = 0)%Z -> enabled = true -> pause_long_on_gas_press CS = false ->
  update self enabled CS W frame actuators hvc hsl hsc alert t = Some (self', W', sends) ->
  (one_pedal_mode_active CS = true ->
   one_pedal_decel self'
   <= Py.max (one_pedal_decel self + ONE_PEDAL_DECEL_RATE_LIMIT_DOWN) ONE_PEDAL_MAX_DECEL) /\
  (one_pedal_mode_active CS = false -> coast_one_pedal_mode_active CS = true ->
   one_pedal_decel_in self - ONE_PEDAL_DECEL_RATE_LIMIT_UP <= one_pedal_decel_in self'
   <= one_pedal_decel_in self + ONE_PEDAL_DECEL_RATE_LIMIT_DOWN).
Proof.
  intros Hdt Hf He Hp H.
  apply update_inv in H
    as (s1 & sends1 & s2 & W2 & npg & W3 & W4 & sends2 & sends3 & sends4 & sends5
        & E1 & E2 & E3 & E4 & E5 & E6 & E7 & ->).
  apply update_steering_long in E1 as (_ & _ & E1p & E1d & E1i).
  apply update_lka_icon_long in E7 as (_ & _ & _ & -> & ->).
  apply (update_long_enabled _ _ _ _ _ _ _ _ _ _ Hf He Hp) in E2.
  split.
  - intros Ha.
    apply long_enabled_one_pedal in E2
      as (ab & pid' & d' & din' & g & b & _ & E & ->); [|now rewrite Ha].
    cbn. rewrite <- E1d. unfold one_pedal in E. rewrite Ha in E.
    apply bind_Some in E as (f & _ & E).
    apply bind_Some in E as ([[[pid1 d1] din1] opab] & E & Hr).
    inversion Hr; subst; clear Hr.
    eapply one_pedal_active_rate; [exact Hdt | exact E].
  - intros Ha Hc.
    apply long_enabled_one_pedal in E2
      as (ab & pid' & d' & din' & g & b & _ & E & ->); [|now rewrite Ha, Hc].
    cbn. rewrite <- E1i.
    apply (one_pedal_coast_spec _ _ _ _ _ _ _ _ _ _ _ _ Ha) in E as (_ & _ & -> & _).
    destruct (rate_limits_nonneg Hdt) as (Hup & Hdown).
    split; [apply InterpFacts.clip_lower | apply InterpFacts.clip_upper; lra].
Qed.

(** X12.  On an enabled 25 Hz slot in coast-one-pedal mode (one-pedal mode
    itself off) the planner's gas is discarded: [apply_gas] is [ZERO_GAS]
    when D/L coasting applies and [MAX_ACC_REGEN] otherwise.  The PID and
    [one_pedal_decel] are left alone.  The friction brake is 0 when
    op-braking is not allowed, and the planner's brake of line 127 (never
    below 0) when it is: the interpolation over the brake table as the
    threshold call left it in [P]. *)
Theorem coast_one_pedal_commands
        (self : CarController PIDController) enabled CS W frame actuators hvc hsl hsc alert t self' W' sends :
  (frame mod 4 = 0)%Z -> enabled = true -> pause_long_on_gas_press CS = false ->
  one_pedal_mode_active CS = false -> coast_one_pedal_mode_active CS = true ->
  update self enabled CS W frame actuators hvc hsl hsc alert t = Some (self', W', sends) ->
  apply_gas self'
  = (if dl_coasting CS then ZERO_GAS (params self) else MAX_ACC_REGEN (params self)) /\
  one_pedal_pid self' = one_pedal_pid self /\
  one_pedal_decel self' = one_pedal_decel self /\
  exists ab, planner_brake (params self') CS actuators = Some ab /\
             apply_brake self'
             = Py.round (if one_pedal_mode_op_braking_allowed CS then Py.max ab 0 else 0).
Proof.
  intros Hf He Hp Ha Hc H.
  apply update_inv in H
    as (s1 & sends1 & s2 & W2 & npg & W3 & W4 & sends2 & sends3 & sends4 & sends5
        & E1 & E2 & E3 & E4 & E5 & E6 & E7 & ->).
  pose proof (update_steering_tables _ _ _ _ _ _ _ E1) as (v & HP).
  apply update_steering_long in E1 as (_ & _ & E1p & E1d & E1i).
  pose proof (update_lka_icon_shape _ _ _ _ _ _ _ E7) as (_ & E7').
  apply update_lka_icon_long in E7 as (-> & -> & -> & -> & _).
  apply (update_long_enabled _ _ _ _ _ _ _ _ _ _ Hf He Hp) in E2.
  pose proof (threshold_accel_of_params s1 CS t) as HP'. cbn zeta in HP'.
  apply long_enabled_one_pedal in E2
    as (ab & pid' & d' & din' & g & b & Eab & E & ->); [|now rewrite Ha, Hc].
  apply (one_pedal_coast_spec _ _ _ _ _ _ _ _ _ _ _ _ Ha) in E as (-> & -> & _ & -> & ->).
  cbn. rewrite PyFacts.round_inject, HP', HP, E1p, E1d.
  repeat split.
  exists ab. split; [|reflexivity].
  destruct E7' as [->|(st & ->)]; exact Eab.
Qed.

(** *** The stock branch *)

Lemma update_gas_brake_stock (self : CarController PIDController) enabled CS W frame W' sends :
  (frame mod 4 = 0)%Z -> auto_hold enabled CS = false ->
  enabled = false \/ pause_long_on_gas_press CS = true ->
  update_gas_brake self enabled CS W frame 0 = (W', sends) ->
  sends = [create_friction_brake_command packer_ch CHASSIS (apply_brake self)
                                         ((frame / 4) mod 4)%Z false false;
           create_gas_regen_command packer_pt POWERTRAIN (apply_gas self)
                                    ((frame / 4) mod 4)%Z enabled false].
Proof.
  intros Hf Hh Hd. unfold update_gas_brake. rewrite Hf, Hh. cbn [Z.eqb].
  destruct (pause_long_on_gas_press CS) eqn:Hp.
  - cbn. now intros [= <- <-].
  - destruct Hd as [-> | ?]; [|discriminate]. cbn [andb].
    destruct (_ && _); [destruct (do_sng CS); [|destruct (Py.ltb _ 1.5)]|];
      now intros [= <- <-].
Qed.

(** X13.  On a 25 Hz slot with [enabled] false or
    [CS.pause_long_on_gas_press] set, and auto-hold not applying, the two
    longitudinal frames are the stock ones: a friction-brake command with
    brake 0 and both stop flags clear, and a gas/regen command with
    [MAX_ACC_REGEN], the ACC flag equal to [enabled] and the full-stop flag
    clear. *)
Theorem stock_branch_frames
        (self : CarController PIDController) enabled CS W frame actuators hvc hsl hsc alert t self' W' sends :
  (frame mod 4 = 0)%Z ->
  enabled = false \/ pause_long_on_gas_press CS = true ->
  auto_hold enabled CS = false ->
  update self enabled CS W frame actuators hvc hsl hsc alert t = Some (self', W', sends) ->
  List.filter is_friction_brake_command sends
  = [create_friction_brake_command packer_ch CHASSIS 0 ((frame / 4) mod 4)%Z false false] /\
  List.filter is_gas_regen_command sends
  = [create_gas_regen_command packer_pt POWERTRAIN (MAX_ACC_REGEN (params self))
                              ((frame / 4) mod 4)%Z enabled false].
Proof.
  intros Hf Hd Hh H.
  apply update_inv in H
    as (s1 & sends1 & s2 & W2 & npg & W3 & W4 & sends2 & sends3 & sends4 & sends5
        & E1 & E2 & E3 & E4 & E5 & E6 & E7 & ->).
  pose proof (update_steering_tables _ _ _ _ _ _ _ E1) as (v & HP).
  apply update_steering_shape in E1 as (_ & F1 & G1).
  apply update_dashboard_other, other_frames_filter in E5 as (_ & F3 & G3).
  apply update_adas_other, other_frames_filter in E6 as (_ & F4 & G4).
  apply update_lka_icon_shape in E7 as (E7 & _).
  apply other_frames_filter in E7 as (_ & F5 & G5).
  rewrite !List.filter_app, F1, G1, F3, G3, F4, G4, F5, G5, !app_nil_r. cbn [app].
  unfold update_long in E2. rewrite Hf in E2. cbn [Z.eqb] in E2.
  assert (Hb : negb enabled || pause_long_on_gas_press CS = true)
    by (destruct Hd as [-> | ->]; [reflexivity | apply orb_true_r]).
  rewrite Hb in E2. inversion E2; subst; clear E2.
  apply (update_gas_brake_stock _ _ _ _ _ _ _ Hf Hh Hd) in E4. subst sends2.
  cbn. rewrite HP. split; reflexivity.
Qed.

(** *** Where [update] raises and where it cannot *)

Lemma lockout_factor_zero_tr CS v_rel_bp v_rel_v v_bp v_v ttc_bp ttc_v tr_bp tr_v d_bp d_v :
  tr CS == 0 ->
  lockout_factor CS v_rel_bp v_rel_v v_bp v_v ttc_bp ttc_v tr_bp tr_v d_bp d_v = None.
Proof.
  intros Htr. unfold lockout_factor.
  destruct (interp (lead_v_rel CS) _ _); [|reflexivity].
  destruct (interp (coasting_lead_v CS) _ _); [|reflexivity].
  destruct (interp (lead_ttc CS) _ _); [|reflexivity].
  cbn. unfold Py.div. apply Qeq_bool_iff in Htr. rewrite Htr. reflexivity.
Qed.

Lemma long_enabled_zero_tr (self : CarController PIDController) CS actuators t :
  lockout_tripwire CS (lead_ttc_long_gas_lockout_bp CS) (lead_v_rel_long_gas_lockout_bp CS)
                   (lead_v_long_gas_lockout_bp CS) (lead_tr_long_gas_lockout_bp CS)
                   (lead_d_long_gas_lockout_bp CS) = Some true ->
  tr CS == 0 ->
  long_enabled self CS actuators t = None.
Proof.
  intros Htrip Htr.
  assert (Hl : lead_lockout_factors CS = None).
  { unfold lead_lockout_factors. rewrite Htrip. cbn.
    rewrite !lockout_factor_zero_tr by exact Htr. reflexivity. }
  unfold long_enabled. rewrite Hl.
  destruct (interp (out_vEgo CS) _ _); [|reflexivity]. cbn.
  destruct (threshold_accel_of self CS t) as [th P'].
  destruct (interp (accelPitchCompensated actuators) _ _); [|reflexivity]. cbn.
  destruct (interp (accel actuators) _ _); [|reflexivity]. cbn.
  destruct (interp _ _ _); reflexivity.
Qed.

(** X4.  An enabled, unpaused 25 Hz slot on which the gas lockout trips
    while [CS.tr] is 0 does not return: [d_time / CS.tr] of line 142 raises
    ZeroDivisionError. *)
Theorem zero_follow_time_raises
        (self : CarController PIDController) enabled CS W frame actuators hvc hsl hsc alert t :
  (frame mod 4 = 0)%Z -> enabled = true -> pause_long_on_gas_press CS = false ->
  lockout_tripwire CS (lead_ttc_long_gas_lockout_bp CS) (lead_v_rel_long_gas_lockout_bp CS)
                   (lead_v_long_gas_lockout_bp CS) (lead_tr_long_gas_lockout_bp CS)
                   (lead_d_long_gas_lockout_bp CS) = Some true ->
  tr CS == 0 ->
  update self enabled CS W frame actuators hvc hsl hsc alert t = None.
Proof.
  intros Hf -> Hp Htrip Htr. unfold update.
  destruct (update_steering self true CS frame actuators) as [[s1 sends1]|];
    [|reflexivity].
  cbn. unfold update_long. rewrite Hf, Hp. cbn [Z.eqb negb orb].
  rewrite long_enabled_zero_tr by assumption. reflexivity.
Qed.

Lemma brake_percent_defined (self : CarController PIDController) CS :
  indicator_ok (params self) CS -> is_Some (brake_percent self CS).
Proof.
  intros (Hw & Hb & Hg). unfold brake_percent.
  assert (Hregen : is_Some (interp (hvb_wattage CS) (hvb_wattage_bp CS) [0; 49]))
    by (apply InterpMore.interp_defined; cbn; lia).
  assert (Hfr : is_Some (interp (out_brake CS) [0; 0.5] [51; 100]))
    by (apply InterpMore.interp_defined; cbn; lia).
  repeat match goal with
         | |- is_Some (if ?b then _ else _) => destruct b
         end; eauto.
  - destruct (last (BRAKE_LOOKUP_V (params self))) as [lo|] eqn:El;
      [|apply last_None in El; rewrite El in Hb; cbn in Hb; lia].
    destruct (lookup_lt_is_Some_2 (BRAKE_LOOKUP_V (params self)) 0) as [hi Eh]; [lia|].
    rewrite Eh. cbn. apply InterpMore.interp_defined; cbn; lia.
  - destruct (lookup_lt_is_Some_2 (GAS_LOOKUP_V (params self)) 0) as [g0 E0]; [lia|].
    destruct (lookup_lt_is_Some_2 (GAS_LOOKUP_V (params self)) 1) as [g1 E1]; [lia|].
    rewrite E0, E1. cbn. apply InterpMore.interp_defined; cbn; lia.
Qed.

Lemma update_steering_defined (self : CarController PIDController) enabled CS frame actuators :
  STEER_STEP (params self) <> 0%Z ->
  is_Some (update_steering self enabled CS frame actuators).
Proof.
  intros H. unfold update_steering. destruct (negb _); [eauto|].
  rewrite (mod_defined _ _ H). cbn.
  destruct (_ =? 0)%Z; [|eauto].
  destruct (if lkas_enabled_of _ _ _ then _ else _) as [[a r] P']. eauto.
Qed.

(** X11.  [update] can only raise in the enabled branch of the 25 Hz slot.
    If the three step parameters are not zero and, when the brake indicator
    is shown, the tables it reads have the entries it reads, then every
    call outside a 25 Hz slot, and every call with [enabled] false or
    [CS.pause_long_on_gas_press] set, returns. *)
Theorem update_returns_outside_control
        (self : CarController PIDController) enabled CS W frame actuators hvc hsl hsc alert t :
  steps_ok (params self) ->
  (showBrakeIndicator CS = true -> indicator_ok (params self) CS) ->
  (frame mod 4 <> 0)%Z \/ enabled = false \/ pause_long_on_gas_press CS = true ->
  is_Some (update self enabled CS W frame actuators hvc hsl hsc alert t).
Proof.
  intros (Hs & Ha & Hc) Hind Hout.
  destruct (update_steering_defined self enabled CS frame actuators Hs)
    as [[s1 sends1] E1].
  assert (E2 : exists s2 W2 npg,
             update_long s1 enabled CS W frame actuators t = Some (s2, W2, npg) /\
             params s2 = params s1).
  { unfold update_long. destruct (Z.eqb_spec (frame mod 4) 0) as [E|E]; [|eauto 10].
    destruct Hout as [Hout|Hout]; [contradiction|].
    assert (Hb : negb enabled || pause_long_on_gas_press CS = true)
      by (destruct Hout as [-> | ->]; [reflexivity | apply orb_true_r]).
    rewrite Hb. eauto 10. }
  destruct E2 as (s2 & W2 & npg & E2 & HP2).
  destruct (steering_long_keep _ _ _ _ _ _ _ _ _ _ _ _ E1 E2) as (_ & _ & Ka & Kc).
  assert (HP : exists v, params s2 = set_v_ego (params self) v).
  { pose proof (update_steering_tables _ _ _ _ _ _ _ E1) as (v & HP).
    exists v. now rewrite <- HP. }
  destruct HP as (v & HP).
  assert (E3 : is_Some (update_brake_indicator s2 CS W2)).
  { unfold update_brake_indicator. destruct (showBrakeIndicator CS); [|eauto].
    destruct (brake_percent_defined s2 CS) as [x Ex].
    - rewrite HP. exact (Hind eq_refl).
    - rewrite Ex. cbn. eauto. }
  destruct E3 as [W3 E3].
  unfold update. rewrite E1. cbn. rewrite E2. cbn. rewrite E3. cbn.
  destruct (update_gas_brake s2 enabled CS W3 frame npg) as [W4 sends2].
  destruct (update_dashboard enabled CS W4 frame hvc hsc alert) as [W5 sends3].
  unfold update_adas, update_lka_icon.
  rewrite (mod_defined frame (ADAS_KEEPALIVE_STEP (params s2))) by (now rewrite Ka).
  rewrite (mod_defined frame (CAMERA_KEEPALIVE_STEP (params s2))) by (now rewrite Kc).
  cbn. destruct (_ || _); cbn; eauto.
Qed.

End WithCollaborators.
End GMMore.

(** ** Frames, counters and bookkeeping on concrete ticks *)

Module GMMoreExamples.
Import NumpyFast GM GMSpec GMInputs GMScenes GMFacts GMMore.

Ltac returns E := exfalso; vm_compute in E; discriminate E.

(** An enabled tick at frame 0 sends, in this order, the steering command,
    brake, gas and dashboard commands, the four radar status frames, the
    keep-alive and the icon. *)
Lemma frame_schedule_witness :
  exists s W sends,
    tick self1 true (CS0 0 10 0 false false false) 0 5 = Some (s, W, sends) /\
    kind <$> sends = schedule self1 true (CS0 0 10 0 false false false) 0 act0 /\
    schedule self1 true (CS0 0 10 0 false false false) 0 act0
    = [KSteering; KFrictionBrake; KGasRegen; KAccDashboard; KAdasTime; KAdasHeadlights;
       KAdasSteeringStatus; KAdasAccelerometer; KAdasKeepalive; KLkaIcon].
Proof.
  destruct (tick self1 true (CS0 0 10 0 false false false) 0 5)
    as [[[s W] sends]|] eqn:E; [|returns E].
  exists s, W, sends. split; [reflexivity|]. split; [|vm_compute; reflexivity].
  exact (frame_schedule self1 true (CS0 0 10 0 false false false) W0 0 act0
                        30 true true VA_none 5 s W sends E).
Defined.

Lemma rolling_counters_witness :
  exists s W sends,
    tick self1 true (CS0 0 10 0 false false false) 8 5 = Some (s, W, sends) /\
    Forall (fun f => idx_of f = expected_idx (CS0 0 10 0 false false false) 8 (kind f) /\
                     forall i, idx_of f = Some i -> (0 <= i < 4)%Z) sends.
Proof.
  destruct (tick self1 true (CS0 0 10 0 false false false) 8 5)
    as [[[s W] sends]|] eqn:E; [|returns E].
  exists s, W, sends. split; [reflexivity|].
  exact (rolling_counters self1 true (CS0 0 10 0 false false false) W0 8 act0
                          30 true true VA_none 5 s W sends E).
Defined.

Lemma icon_status_recorded_witness :
  exists s W sends,
    tick self1 true (CS0 0 10 0 false false false) 1 5 = Some (s, W, sends) /\
    lka_icon_status_last s = lka_icon_status (CS0 0 10 0 false false false) act0.
Proof.
  destruct (tick self1 true (CS0 0 10 0 false false false) 1 5)
    as [[[s W] sends]|] eqn:E; [|returns E].
  exists s, W, sends. split; [reflexivity|].
  exact (icon_status_recorded self1 true (CS0 0 10 0 false false false) W0 1 act0
                              30 true true VA_none 5 s W sends E).
Defined.

Lemma zero_follow_time_raises_witness :
  tick_with self1 true CS_zero_tr act0 0 = None.
Proof.
  apply zero_follow_time_raises.
  - reflexivity.
  - reflexivity.
  - reflexivity.
  - vm_compute. reflexivity.
  - reflexivity.
Defined.

Lemma no_torque_when_lkas_off_witness :
  exists s W sends,
    tick self1 false (CS0 0 10 0 false false false) 0 5 = Some (s, W, sends) /\
    (forall f tq, f ∈ sends -> steering_torque f = Some tq -> tq = (0%Z, false)) /\
    apply_steer_last s
    = (if steering_due self1 (CS0 0 10 0 false false false) 0 then 0%Z
       else apply_steer_last self1).
Proof.
  destruct (tick self1 false (CS0 0 10 0 false false false) 0 5)
    as [[[s W] sends]|] eqn:E; [|returns E].
  exists s, W, sends. split; [reflexivity|].
  assert (Hoff : lkas_enabled_of false (params self1) (CS0 0 10 0 false false false)
                 = false) by reflexivity.
  assert (HE : update self1 false (CS0 0 10 0 false false false) W0 0 act0
                      30 true true VA_none 5 = Some (s, W, sends)) by exact E.
  destruct (no_torque_when_lkas_off _ _ _ _ _ _ _ _ _ _ _ _ _ _ Hoff HE) as (H1 & H2 & _).
  split; [exact H1 | exact H2].
Defined.

Lemma resume_resets_acc_witness :
  exists s W sends,
    tick_with self1 true CS_resume act0 0 = Some (s, W, sends) /\
    resume_button_pressed W = false /\
    Exists (fun g => gas_acc_enabled g = Some false) sends.
Proof.
  destruct (tick_with self1 true CS_resume act0 0)
    as [[[s W] sends]|] eqn:E; [|returns E].
  exists s, W, sends. split; [reflexivity|].
  destruct (resume_resets_acc (Co := collaborators) self1 true CS_resume W0 0 act0
                              30 true true VA_none 5 s W sends E) as (H1 & H2).
  split; [exact (H1 eq_refl)|].
  apply (H2 eq_refl (create_acc_dashboard_command packer_pt POWERTRAIN true (30 * 3.6)
                                                  true 2 false true));
    [|reflexivity].
  vm_compute in E. injection E as _ _ <-. set_solver.
Defined.

Lemma off_slot_untouched_witness :
  exists s W sends,
    tick self2 true (CS0 0 10 0 true true false) 2 5 = Some (s, W, sends) /\
    apply_gas s = apply_gas self2 /\ apply_brake s = apply_brake self2 /\
    one_pedal_pid s = one_pedal_pid self2 /\
    one_pedal_decel s = one_pedal_decel self2 /\
    one_pedal_decel_in s = one_pedal_decel_in self2 /\
    W = set_apply_brake_percent W0 (apply_brake_percent W).
Proof.
  destruct (tick self2 true (CS0 0 10 0 true true false) 2 5)
    as [[[s W] sends]|] eqn:E; [|returns E].
  exists s, W, sends. split; [reflexivity|].
  apply (off_slot_untouched self2 true (CS0 0 10 0 true true false) W0 2 act0
                            30 true true VA_none 5 s W sends); [|exact E].
  vm_compute. discriminate.
Defined.

Lemma slot_writeback_witness :
  exists s W sends,
    tick self2 true (CS0 0 10 0 true true false) 0 5 = Some (s, W, sends) /\
    brake_cmd W = apply_brake s /\
    one_pedal_mode_active_last W = true /\ coast_one_pedal_mode_active_last W = false.
Proof.
  destruct (tick self2 true (CS0 0 10 0 true true false) 0 5)
    as [[[s W] sends]|] eqn:E; [|returns E].
  exists s, W, sends. split; [reflexivity|].
  destruct (slot_writeback (Co := collaborators) self2 true (CS0 0 10 0 true true false) W0 0 act0
                           30 true true VA_none 5 s W sends eq_refl E) as (H1 & H2 & _).
  split; [exact H1 | exact (H2 eq_refl eq_refl)].
Defined.

Lemma brake_indicator_percent_witness :
  exists s W sends,
    tick self2 true (CS0 0 10 0 true true false) 0 5 = Some (s, W, sends) /\
    0 <= apply_brake_percent W <= 100.
Proof.
  destruct (tick self2 true (CS0 0 10 0 true true false) 0 5)
    as [[[s W] sends]|] eqn:E; [|returns E].
  exists s, W, sends. split; [reflexivity|].
  pose proof (brake_indicator_percent (Co := collaborators)
                self2 true (CS0 0 10 0 true true false) W0 0 act0
                30 true true VA_none 5 s W sends E) as H.
  cbv beta iota delta [showBrakeIndicator CS0] in H. exact H.
Defined.

Lemma one_pedal_rate_limit_witness :
  exists s W sends,
    tick self2 true (CS0 0 10 0 true true false) 0 5 = Some (s, W, sends) /\
    one_pedal_decel s
    <= Py.max (one_pedal_decel self2 + ONE_PEDAL_DECEL_RATE_LIMIT_DOWN) ONE_PEDAL_MAX_DECEL.
Proof.
  destruct (tick self2 true (CS0 0 10 0 true true false) 0 5)
    as [[[s W] sends]|] eqn:E; [|returns E].
  exists s, W, sends. split; [reflexivity|].
  assert (Hdt : 0 <= DT_CTRL) by (vm_compute; discriminate).
  destruct (one_pedal_rate_limit (Co := collaborators) self2 true (CS0 0 10 0 true true false) W0 0 act0
                                 30 true true VA_none 5 s W sends
                                 Hdt eq_refl eq_refl eq_refl E) as (H1 & _).
  exact (H1 eq_refl).
Defined.

Lemma coast_one_pedal_commands_witness :
  exists s W sends,
    tick_with self2 true CS_coast act_brake 0 = Some (s, W, sends) /\
    apply_gas s = ZERO_GAS P0 /\ one_pedal_pid s = one_pedal_pid self2 /\
    one_pedal_decel s = one_pedal_decel self2 /\
    exists ab, planner_brake (params s) CS_coast act_brake = Some ab /\
               apply_brake s = Py.round 0.
Proof.
  destruct (tick_with self2 true CS_coast act_brake 0)
    as [[[s W] sends]|] eqn:E; [|returns E].
  exists s, W, sends. split; [reflexivity|].
  exact (coast_one_pedal_commands self2 true CS_coast W0 0 act_brake
                                  30 true true VA_none 5 s W sends
                                  eq_refl eq_refl eq_refl eq_refl eq_refl E).
Defined.

Lemma stock_branch_frames_witness :
  exists s W sends,
    tick self2 false (CS0 0 10 0 true true false) 4 5 = Some (s, W, sends) /\
    List.filter is_friction_brake_command sends
    = [create_friction_brake_command packer_ch CHASSIS 0 ((4 / 4) mod 4)%Z false false] /\
    List.filter is_gas_regen_command sends
    = [create_gas_regen_command packer_pt POWERTRAIN (MAX_ACC_REGEN (params self2))
                                ((4 / 4) mod 4)%Z false false].
Proof.
  destruct (tick self2 false (CS0 0 10 0 true true false) 4 5)
    as [[[s W] sends]|] eqn:E; [|returns E].
  exists s, W, sends. split; [reflexivity|].
  exact (stock_branch_frames self2 false (CS0 0 10 0 true true false) W0 4 act0
                             30 true true VA_none 5 s W sends
                             eq_refl (or_introl eq_refl) eq_refl E).
Defined.

Lemma update_returns_outside_control_witness :
  is_Some (tick self1 false (CS0 0 10 0 false false false) 0 5).
Proof.
  apply update_returns_outside_control.
  - repeat split; discriminate.
  - intros _. vm_compute. repeat split; lia.
  - right. left. reflexivity.
Defined.

End GMMoreExamples.

(** ** Radar fusion: lead selection *)

Module RadardMore.
Import NumpyFast Radard RadardLeads RadardSpec RadardFacts.

(** *** The Kalman gains *)

Lemma K0_range : Forall (fun v => 0.12288 <= v <= 0.26491) K0.
Proof. repeat constructor; vm_compute; discriminate. Qed.

Lemma K1_range : Forall (fun v => 0.27617 <= v <= 0.29666) K1.
Proof. repeat constructor; vm_compute; discriminate. Qed.

(** X14.  [KalmanParams(dt)] is built exactly when [0.01 < dt < 0.1];
    otherwise the assertion fails.  When built, [A] is
    [[[1, dt], [0, 1]]], [C] is [[1, 0]], and the two gains lie within the
    ranges of their lookup tables. *)
Theorem kalman_params_range dt :
  (is_Some (KalmanParams_init dt) <-> 0.01 < dt < 0.1) /\
  (forall kp, KalmanParams_init dt = Some kp ->
              A kp = [[1; dt]; [0; 1]] /\ C kp = [1; 0] /\
              exists k0 k1, K kp = [[k0]; [k1]] /\
                            0.12288 <= k0 <= 0.26491 /\ 0.27617 <= k1 <= 0.29666).
Proof.
  unfold KalmanParams_init. split.
  - split.
    + intros [kp H]. destruct (Py.gtb dt 0.01) eqn:E1; [|discriminate].
      destruct (Py.ltb dt 0.1) eqn:E2; [|discriminate].
      apply PyFacts.gtb_true in E1. apply PyFacts.ltb_true in E2. now split.
    + intros (H1 & H2). apply PyFacts.gtb_true in H1. apply PyFacts.ltb_true in H2.
      rewrite H1, H2. cbn [andb].
      destruct (InterpMore.interp_defined dt dts K0) as [k0 ->]; [vm_compute; lia|].
      destruct (InterpMore.interp_defined dt dts K1) as [k1 ->]; [vm_compute; lia|].
      cbn. eauto.
  - intros kp H. destruct (_ && _); [|discriminate].
    apply bind_Some in H as (k0 & E0 & H). apply bind_Some in H as (k1 & E1 & H).
    inversion H; subst; clear H. cbn. repeat split; try reflexivity.
    exists k0, k1. split; [reflexivity|]. split.
    + eapply InterpFacts.interp_between; [apply K0_range | exact E0].
    + eapply InterpFacts.interp_between; [apply K1_range | exact E1].
Qed.

Section WithHelpers.
Context {Track Cluster FirstOrderFilter : Type} `{Hlp : Helpers Track Cluster FirstOrderFilter}.
Context `{LHlp : LeadHelpers Cluster}.

(** *** The best statistical match *)

Lemma max_key_from_spec {A} (key : A -> option Q) l :
  forall best kbest c,
    key best = Some kbest -> max_key_from key best kbest l = Some c ->
    (c = best \/ c ∈ l) /\
    exists kc, key c = Some kc /\ kbest <= kc /\
               forall a, a ∈ l -> exists ka, key a = Some ka /\ ka <= kc.
Proof.
  induction l as [|a l IH]; intros best kbest c Hb H; cbn in H.
  - inversion H; subst. split; [now left|]. exists kbest. split; [exact Hb|].
    split; [lra|]. intros a Ha. now apply elem_of_nil in Ha.
  - apply bind_Some in H as (k & Hk & H).
    destruct (Py.gtb k kbest) eqn:E.
    + apply PyFacts.gtb_true in E.
      destruct (IH a k c Hk H) as (Hin & kc & Hc & Hle & Hall).
      split; [right; destruct Hin as [->|?]; [left | now right]|].
      exists kc. split; [exact Hc|]. split; [lra|].
      intros a' Ha'. apply elem_of_cons in Ha' as [->|Ha']; [eauto|auto].
    + apply PyFacts.gtb_false in E.
      destruct (IH best kbest c Hb H) as (Hin & kc & Hc & Hle & Hall).
      split; [destruct Hin as [->|?]; [now left | right; now right]|].
      exists kc. split; [exact Hc|]. split; [exact Hle|].
      intros a' Ha'. apply elem_of_cons in Ha' as [->|Ha']; [|auto].
      exists k. split; [exact Hk | lra].
Qed.

Lemma max_key_spec {A} (key : A -> option Q) l c :
  max_key key l = Some c ->
  c ∈ l /\ exists kc, key c = Some kc /\
                      forall a, a ∈ l -> exists ka, key a = Some ka /\ ka <= kc.
Proof.
  destruct l as [|b l]; [discriminate|]. cbn. intros H.
  apply bind_Some in H as (kb & Hb & H).
  destruct (max_key_from_spec key l b kb c Hb H) as (Hin & kc & Hc & Hle & Hall).
  split; [destruct Hin as [->|?]; [left | now right]|].
  exists kc. split; [exact Hc|].
  intros a Ha. apply elem_of_cons in Ha as [->|Ha]; [eauto|auto].
Qed.

Lemma max_key_spec_vision v_ego lead clusters c :
  match_vision_to_cluster v_ego lead clusters = Some (Some c) -> c ∈ clusters.
Proof.
  unfold match_vision_to_cluster. intros H.
  apply bind_Some in H as (x0 & _ & H).
  apply bind_Some in H as (cl & Hmax & H).
  apply bind_Some in H as (m & _ & H).
  apply bind_Some in H as (vs & _ & H).
  destruct (_ && _); inversion H; subst.
  now apply max_key_spec in Hmax.
Qed.

(** X15.  A cluster returned by [match_vision_to_cluster] is one of the
    given clusters, no other cluster has a larger match probability, its
    distance is within [max(0.25 * d, 5)] of the vision distance [d], and
    its speed is within 10 m/s of the vision speed or above 3 m/s. *)
Theorem vision_match_gates v_ego lead clusters c :
  match_vision_to_cluster v_ego lead clusters = Some (Some c) ->
  exists x0 v0,
    LeadMsg.x lead !! 0%nat = Some x0 /\ LeadMsg.v lead !! 0%nat = Some v0 /\
    let d := x0 - RADAR_TO_CAMERA in
    c ∈ clusters /\
    (exists p, prob v_ego lead d c = Some p /\
               forall c', c' ∈ clusters ->
                          exists p', prob v_ego lead d c' = Some p' /\ p' <= p) /\
    Py.abs (dRel c - d) < Py.max (d * 0.25) 5.0 /\
    (Py.abs (vRel c + v_ego - v0) < 10 \/ 3 < v_ego + vRel c).
Proof.
  unfold match_vision_to_cluster. intros H.
  apply bind_Some in H as (x0 & Hx & H).
  apply bind_Some in H as (cl & Hmax & H).
  apply bind_Some in H as (m & Hm & H).
  apply bind_Some in H as (vs & Hvs & H).
  cbn [Py.max_list fold_left] in Hm. inversion Hm; subst m; clear Hm.
  destruct (LeadMsg.v lead !! 0%nat) as [v0|] eqn:Hv; [|discriminate].
  cbn [mbind option_bind] in Hvs.
  destruct (Py.ltb (Py.abs (dRel cl - (x0 - RADAR_TO_CAMERA))) _) eqn:Ed;
    [|destruct vs; discriminate].
  destruct vs; [|discriminate]. cbn [andb] in H. inversion H; subst cl; clear H.
  apply max_key_spec in Hmax as (Hin & Hbest).
  exists x0, v0. split; [exact Hx|]. split; [reflexivity|]. cbn zeta.
  split; [exact Hin|]. split; [exact Hbest|].
  split; [now apply PyFacts.ltb_true|].
  destruct (Py.ltb (Py.abs (vRel c + v_ego - v0)) 10) eqn:Ev.
  - left. now apply PyFacts.ltb_true.
  - right. cbn [Py.orM] in Hvs. inversion Hvs as [Hg]. now apply PyFacts.gtb_true.
Qed.

(** *** Matching along a polyline *)

Lemma tolerance_const x :
  interp x LEAD_PATH_YREL_MAX_BP LEAD_PATH_YREL_MAX_V = Some 1.2.
Proof.
  unfold interp, LEAD_PATH_YREL_MAX_BP, LEAD_PATH_YREL_MAX_V. cbn.
  destruct (Py.gtb x 0); reflexivity.
Qed.

Lemma close_path_clusters_spec xs ys clusters : forall l,
  close_path_clusters xs ys clusters = Some l ->
  Forall (fun dc => snd dc ∈ clusters /\
                    LEAD_PATH_DREL_MIN <= dRel (snd dc) <= LEAD_MAX_DISTANCE /\
                    (exists x_last, last xs = Some x_last /\ dRel (snd dc) <= x_last) /\
                    Py.abs (yRel (snd dc)) <= LEAD_MAX_Y_REL /\
                    exists p, interp (dRel (snd dc)) xs ys = Some p /\
                              fst dc = Py.abs (- yRel (snd dc) - p)) l.
Proof.
  induction clusters as [|c cs IH]; intros l H; cbn [close_path_clusters] in H.
  - inversion H. constructor.
  - apply bind_Some in H as (x_last & Hx & H).
    assert (Hmono : forall l', Forall (fun dc : Q * Cluster => snd dc ∈ cs /\
                    LEAD_PATH_DREL_MIN <= dRel (snd dc) <= LEAD_MAX_DISTANCE /\
                    (exists x_last, last xs = Some x_last /\ dRel (snd dc) <= x_last) /\
                    Py.abs (yRel (snd dc)) <= LEAD_MAX_Y_REL /\
                    exists p, interp (dRel (snd dc)) xs ys = Some p /\
                              fst dc = Py.abs (- yRel (snd dc) - p)) l' ->
                  Forall (fun dc : Q * Cluster => snd dc ∈ c :: cs /\
                    LEAD_PATH_DREL_MIN <= dRel (snd dc) <= LEAD_MAX_DISTANCE /\
                    (exists x_last, last xs = Some x_last /\ dRel (snd dc) <= x_last) /\
                    Py.abs (yRel (snd dc)) <= LEAD_MAX_Y_REL /\
                    exists p, interp (dRel (snd dc)) xs ys = Some p /\
                              fst dc = Py.abs (- yRel (snd dc) - p)) l').
    { intros l' Hl'. eapply Forall_impl; [exact Hl'|]. intros dc (Hin & Hrest).
      split; [now right | exact Hrest]. }
    destruct (_ && _) eqn:E; [|apply Hmono, IH, H].
    apply andb_prop in E as (E & E3). apply andb_prop in E as (E1 & E2).
    apply bind_Some in H as (p & Hp & H). apply bind_Some in H as (rest & Hr & H).
    inversion H; subst; clear H.
    unfold Py.leb in E1, E3. unfold Py.geb, Py.leb in E2.
    apply Qle_bool_iff in E1, E2, E3.
    constructor; [|apply Hmono, IH, Hr]. cbn [fst snd].
    split; [now left|].
    assert (Hd : dRel c <= LEAD_MAX_DISTANCE /\ dRel c <= x_last).
    { destruct (PyFacts.min_cases x_last LEAD_MAX_DISTANCE) as [[Hm ?]|[Hm ?]];
        rewrite Hm in E1; split; lra. }
    destruct Hd as (Hd1 & Hd2).
    split; [split; assumption|]. split; [eauto|]. split; [exact E3|]. eauto.
Qed.

Lemma within_tolerance_spec (l : list (Q * Cluster)) : forall l',
  within_tolerance l = Some l' ->
  Forall (fun dc => dc ∈ l /\ fst dc <= 1.2) l'.
Proof.
  induction l as [|c l IH]; intros l' H; cbn [within_tolerance] in H.
  - inversion H. constructor.
  - rewrite tolerance_const in H. cbn [mbind option_bind] in H.
    apply bind_Some in H as (rest & Hr & H). inversion H; subst; clear H.
    assert (Hrest : Forall (fun dc => dc ∈ c :: l /\ fst dc <= 1.2) rest).
    { eapply Forall_impl; [apply IH, Hr|]. intros dc (? & ?). split; [now right | assumption]. }
    destruct (Py.leb (fst c) 1.2) eqn:E; [|exact Hrest].
    constructor; [|exact Hrest]. split; [now left|].
    unfold Py.leb in E. now apply Qle_bool_iff in E.
Qed.

Lemma insert_sorted_perm {A} (a : Q * A) l : insert_sorted a l ≡ₚ a :: l.
Proof.
  induction l as [|b l IH]; cbn; [reflexivity|].
  destruct (Py.ltb (fst b) (fst a)); [|reflexivity].
  rewrite IH. apply Permutation_swap.
Qed.

Lemma sort_keyed_perm {A} (l : list (Q * A)) : sort_keyed l ≡ₚ l.
Proof.
  induction l as [|a l IH]; cbn; [reflexivity|].
  rewrite insert_sorted_perm. now rewrite IH.
Qed.

Lemma closest_to_middle_in rest : forall c : Q * Cluster,
  closest_to_middle c rest ∈ c :: rest.
Proof.
  induction rest as [|d rest IH]; intros c; cbn; [now left|].
  destruct (Py.leb (fst d) LEAD_PATH_YREL_LOW_TOL); [|now left].
  destruct (Py.ltb (dRel (snd d)) (dRel (snd c))).
  - right. apply IH.
  - specialize (IH c). apply elem_of_cons in IH as [->|IH]; [now left|].
    right. now right.
Qed.

Lemma match_candidates_spec xs ys min_speed v_ego clusters c :
  match_candidates xs ys min_speed v_ego clusters = Some (Some c) ->
  c ∈ clusters /\ on_path xs ys c /\ min_speed < v_ego + vRel c.
Proof.
  unfold match_candidates. intros H.
  apply bind_Some in H as (l1 & H1 & H). apply bind_Some in H as (l2 & H2 & H).
  destruct (sort_keyed l2) as [|c0 rest] eqn:Es; [discriminate|].
  destruct (Py.gtb _ min_speed) eqn:Ev; inversion H as [Hc]; clear H.
  apply PyFacts.gtb_true in Ev. rewrite Hc in Ev.
  pose proof (closest_to_middle_in rest c0) as Hin.
  rewrite <- Es, sort_keyed_perm in Hin.
  apply within_tolerance_spec in H2. rewrite Forall_forall in H2.
  destruct (H2 _ Hin) as (Hin1 & Htol).
  apply close_path_clusters_spec in H1. rewrite Forall_forall in H1.
  destruct (H1 _ Hin1) as (Hcl & Hd & Hx & Hy & p & Hp & Hdev).
  rewrite Hc in *. split; [exact Hcl|]. split; [|exact Ev].
  repeat split; try tauto. exists p. split; [exact Hp|]. now rewrite <- Hdev.
Qed.

Lemma model_path_in v_ego md clusters c :
  match_model_path_to_cluster v_ego md clusters = Some (Some c) -> c ∈ clusters.
Proof.
  intros H. destruct md as [m|]; [|discriminate].
  unfold match_model_path_to_cluster in H.
  destruct (Nat.eqb_spec (length (XY.x (ModelV2.position m))) TRAJECTORY_SIZE) as [El|];
    [|discriminate]. cbn [negb] in H.
  apply bind_Some in H as (x_last & _ & H).
  destruct (Py.ltb x_last LEAD_PATH_DREL_MIN); [discriminate|].
  now apply match_candidates_spec in H.
Qed.

Lemma lanelines_in v_ego md lane_width clusters c :
  match_model_lanelines_to_cluster v_ego md lane_width clusters = Some (Some c) ->
  c ∈ clusters.
Proof.
  intros H. destruct md as [m|]; [|discriminate].
  unfold match_model_lanelines_to_cluster in H.
  destruct (Py.ltb lane_width 2); [discriminate|].
  destruct (length clusters =? 0)%nat; [discriminate|].
  destruct (length (ModelV2.laneLines m) <? 4)%nat; [discriminate|].
  apply bind_Some in H as (l1 & _ & H).
  destruct (Nat.eqb_spec (length (XY.x l1)) TRAJECTORY_SIZE) as [El|]; [|discriminate].
  cbn [negb] in H.
  apply bind_Some in H as (l2 & _ & H).
  apply bind_Some in H as (lp & _ & H). apply bind_Some in H as (rp & _ & H).
  apply bind_Some in H as (cy & _ & H).
  destruct cy as [c_y|]; [|discriminate].
  now apply match_candidates_spec in H.
Qed.

(** X16.  A cluster returned by [match_model_path_to_cluster] is one of
    the given clusters; the model path has [TRAJECTORY_SIZE] points; the
    cluster is between 60 m and 152 m away and not beyond the end of the
    path, at most 12 m to the side, within 1.2 m of the path, and faster
    than 8 m/s over ground.  Without a model message the result is
    [None]. *)
Theorem model_path_match v_ego md clusters :
  (md = None -> match_model_path_to_cluster v_ego md clusters = Some None) /\
  (forall c, match_model_path_to_cluster v_ego md clusters = Some (Some c) ->
             exists m, md = Some m /\
                       length (XY.x (ModelV2.position m)) = TRAJECTORY_SIZE /\
                       c ∈ clusters /\
                       on_path (XY.x (ModelV2.position m)) (XY.y (ModelV2.position m)) c /\
                       8 < v_ego + vRel c).
Proof.
  split; [now intros ->|].
  intros c H. destruct md as [m|]; [|discriminate].
  unfold match_model_path_to_cluster in H.
  destruct (Nat.eqb_spec (length (XY.x (ModelV2.position m))) TRAJECTORY_SIZE) as [El|];
    [|discriminate]. cbn [negb] in H.
  apply bind_Some in H as (x_last & _ & H).
  destruct (Py.ltb x_last LEAD_PATH_DREL_MIN); [discriminate|].
  apply match_candidates_spec in H. exists m. tauto.
Qed.


(** *** [get_lead] *)

Lemma min_by_in (key : Cluster -> Q) l : forall best, min_by key best l ∈ best :: l.
Proof.
  induction l as [|a l IH]; intros best; cbn; [now left|].
  destruct (Py.ltb (key a) (key best)).
  - right. apply IH.
  - specialize (IH best). apply elem_of_cons in IH as [->|IH]; [now left|].
    right. now right.
Qed.

(** X18.  With [ready] set and a vision lead of probability above 0.5,
    [get_lead] never consults the model path or the lane lines: its result
    does not depend on [md] or [lane_width]. *)
Theorem vision_lead_first v_ego clusters lead_msg l low_speed_override md lane_width
        md' lane_width' :
  confident lead_msg = Some l ->
  get_lead v_ego true clusters lead_msg low_speed_override md lane_width
  = get_lead v_ego true clusters lead_msg low_speed_override md' lane_width'.
Proof.
  intros Hc. unfold get_lead. rewrite Hc.
  destruct (if (0 <? length clusters)%nat && true then _ else _) as [[c|]|]; reflexivity.
Qed.

Lemma model_based_lead_from v_ego clusters md lane_width ld :
  model_based_lead v_ego clusters md lane_width = Some ld ->
  ld = default_lead \/ built_from clusters ld.
Proof.
  unfold model_based_lead. destruct md as [m|]; [|intros [= <-]; now left].
  intros H. apply bind_Some in H as (c1 & H1 & H).
  destruct c1 as [c|].
  - inversion H; subst. right.
    apply model_path_in in H1.
    exists c. split; [exact H1|]. right. left. eauto.
  - apply bind_Some in H as (c2 & H2 & H). inversion H; subst; clear H.
    destruct c2 as [c|]; [|now left]. right.
    apply lanelines_in in H2.
    exists c. split; [exact H2|]. right. left. eauto.
Qed.

Lemma low_speed_from v_ego clusters ld ld' :
  low_speed v_ego clusters ld = Some ld' ->
  ld' = ld \/ built_from clusters ld'.
Proof.
  unfold low_speed.
  destruct (List.filter _ clusters) as [|c0 cs] eqn:Ef; [intros [= <-]; now left|].
  intros H. apply bind_Some in H as (closer & _ & H).
  destruct closer; [|inversion H; now left].
  apply bind_Some in H as (src & _ & H). inversion H; subst; clear H. right.
  exists (min_by dRel c0 cs). split; [|right; right; eauto].
  pose proof (min_by_in dRel cs c0) as Hin. rewrite <- Ef in Hin.
  apply list_elem_of_In, List.filter_In in Hin as (Hin & _).
  now apply list_elem_of_In.
Qed.

(** X19.  A lead returned by [get_lead] is the default lead
    [{'status': False, 'source': 'radar'}], or is built from the vision
    lead alone, or is built by [get_RadarState] from a cluster of the given
    list. *)
Theorem lead_provenance v_ego ready clusters lead_msg low_speed_override md lane_width ld :
  get_lead v_ego ready clusters lead_msg low_speed_override md lane_width = Some ld ->
  ld = default_lead \/
  (exists l, lead_msg = Some l /\ ld = get_RadarState_from_vision l v_ego) \/
  built_from clusters ld.
Proof.
  unfold get_lead. intros H.
  apply bind_Some in H as (cluster & Hcl & H).
  apply bind_Some in H as (ld0 & H0 & H).
  assert (Hld0 : ld0 = default_lead \/
                 (exists l, lead_msg = Some l /\ ld0 = get_RadarState_from_vision l v_ego) \/
                 built_from clusters ld0).
  { destruct cluster as [c|].
    - apply bind_Some in H0 as (p & _ & H0). inversion H0; subst; clear H0.
      right. right. exists c. split; [|left; eauto].
      destruct (confident lead_msg) as [l|]; [|discriminate].
      destruct (_ && ready); [|discriminate].
      apply max_key_spec_vision in Hcl. exact Hcl.
    - destruct (if ready then confident lead_msg else None) as [l|] eqn:El.
      + inversion H0; subst; clear H0. right. left. exists l. split; [|reflexivity].
        destruct ready; [|discriminate]. unfold confident in El.
        destruct lead_msg as [l'|]; [|discriminate].
        destruct (Py.gtb _ 0.5); now inversion El.
      + apply model_based_lead_from in H0 as [->|Hb]; auto. }
  destruct low_speed_override; [|inversion H; now subst].
  apply low_speed_from in H as [->|Hb]; auto.
Qed.

(** X20.  With no cluster and a non-empty model trajectory size,
    [get_lead] returns: the lead built from the vision lead when [ready]
    is set and its probability is above 0.5, the default lead otherwise. *)
Theorem lead_without_clusters v_ego ready lead_msg low_speed_override md lane_width :
  (0 < TRAJECTORY_SIZE)%nat ->
  get_lead v_ego ready [] lead_msg low_speed_override md lane_width
  = Some (match (if ready then confident lead_msg else None) with
          | Some l => get_RadarState_from_vision l v_ego
          | None => default_lead
          end).
Proof.
  intros Hts. unfold get_lead. cbn [length Nat.ltb Nat.leb andb].
  assert (Hc : match confident lead_msg with
               | Some _ => Some None
               | None => Some None
               end = Some (@None Cluster)) by (now destruct (confident lead_msg)).
  rewrite Hc. cbn [mbind option_bind].
  assert (Hm : model_based_lead v_ego [] md lane_width = Some default_lead).
  { unfold model_based_lead. destruct md as [m|]; [|reflexivity].
    assert (H1 : match_model_path_to_cluster v_ego (Some m) [] = Some None).
    { unfold match_model_path_to_cluster.
      destruct (Nat.eqb_spec (length (XY.x (ModelV2.position m))) TRAJECTORY_SIZE)
        as [El|]; [|reflexivity]. cbn [negb].
      destruct (last (XY.x (ModelV2.position m))) as [x_last|] eqn:Ex.
      - cbn [mbind option_bind]. now destruct (Py.ltb x_last LEAD_PATH_DREL_MIN).
      - apply last_None in Ex. rewrite Ex in El. cbn in El. lia. }
    rewrite H1. cbn [mbind option_bind].
    assert (H2 : match_model_lanelines_to_cluster v_ego (Some m) lane_width [] = Some None)
      by (unfold match_model_lanelines_to_cluster; now destruct (Py.ltb lane_width 2)).
    rewrite H2. reflexivity. }
  destruct (if ready then confident lead_msg else None) as [l|];
    [|rewrite Hm]; cbn [mbind option_bind]; now destruct low_speed_override.
Qed.

(** *** [get_path_adjacent_leads] *)

Lemma dict_set_length {V} (d : list (Q * V)) k v :
  (length (dict_set Qeq_bool d k v) <= S (length d))%nat.
Proof.
  induction d as [|[k' v'] d IH]; cbn; [lia|].
  destruct (Qeq_bool k' k); cbn; lia.
Qed.

Lemma dict_set_Forall {V} (P : V -> Prop) (d : list (Q * V)) k v :
  Forall (fun kv => P (snd kv)) d -> P v ->
  Forall (fun kv => P (snd kv)) (dict_set Qeq_bool d k v).
Proof.
  intros Hd Hv. induction Hd as [|[k' v'] d Hk Hd IH]; cbn.
  - repeat constructor. exact Hv.
  - destruct (Qeq_bool k' k); constructor; auto.
Qed.

Lemma classify_spec md_x md_y c_y half b c b' :
  classify md_x md_y c_y half b c = Some b' ->
  exists k ld,
    (b' = mkBuckets (leads_left b) (dict_set Qeq_bool (leads_center b) k ld) (leads_right b)
     /\ in_lane half ld) \/
    (b' = mkBuckets (dict_set Qeq_bool (leads_left b) k ld) (leads_center b) (leads_right b)
     /\ left_of_path ld) \/
    (b' = mkBuckets (leads_left b) (leads_center b) (dict_set Qeq_bool (leads_right b) k ld)
     /\ right_of_path ld).
Proof.
  unfold classify. intros H.
  apply bind_Some in H as (md_last & _ & H).
  apply bind_Some in H as (use_path & _ & H).
  apply bind_Some in H as ([dPath checkSource] & _ & H).
  apply bind_Some in H as (in_l & Hl & H).
  match type of H with
  | context [dict_set Qeq_bool (leads_center b) ?k ?ld] => exists k, ld; set (l := ld) in *
  end.
  assert (Hdp : dPath_is l dPath).
  { unfold dPath_is, l. rewrite lookup_insert_ne by discriminate.
    apply lookup_insert_eq. }
  destruct in_l.
  - inversion H; subst; clear H. left. split; [reflexivity|].
    destruct (Py.ltb (Py.abs dPath) half) eqn:Ea; [|discriminate].
    cbn [Py.andM] in Hl. apply bind_Some in Hl as (vk & Hvk & Hl).
    inversion Hl as [Hg]. exists dPath, vk.
    split; [exact Hdp|]. split; [now apply PyFacts.ltb_true|].
    split; [exact Hvk | now apply PyFacts.gtb_true].
  - destruct (Py.ltb dPath 0) eqn:E0; inversion H; subst; clear H.
    + right. left. split; [reflexivity|]. exists dPath.
      split; [exact Hdp | now apply PyFacts.ltb_true].
    + right. right. split; [reflexivity|]. exists dPath.
      split; [exact Hdp | now apply PyFacts.ltb_false].
Qed.

Lemma classify_all_spec md_x md_y c_y half clusters : forall b b',
  classify_all md_x md_y c_y half b clusters = Some b' ->
  Forall (fun kv => left_of_path (snd kv)) (leads_left b) ->
  Forall (fun kv => in_lane half (snd kv)) (leads_center b) ->
  Forall (fun kv => right_of_path (snd kv)) (leads_right b) ->
  Forall (fun kv => left_of_path (snd kv)) (leads_left b') /\
  Forall (fun kv => in_lane half (snd kv)) (leads_center b') /\
  Forall (fun kv => right_of_path (snd kv)) (leads_right b') /\
  (length (leads_left b') + length (leads_center b') + length (leads_right b')
   <= length (leads_left b) + length (leads_center b) + length (leads_right b)
      + length clusters)%nat.
Proof.
  induction clusters as [|c cs IH]; intros b b' H Hl Hc Hr; cbn [classify_all] in H.
  - inversion H; subst. repeat split; auto. cbn. lia.
  - apply bind_Some in H as (b1 & H1 & H).
    apply classify_spec in H1 as (k & ld & [(-> & Hp)|[(-> & Hp)|(-> & Hp)]]).
    + pose proof (dict_set_length (leads_center b) k ld) as Hlen.
      apply IH in H; cbn [leads_left leads_center leads_right] in *;
        [|assumption | apply (dict_set_Forall (in_lane half)); assumption | assumption].
      destruct H as (? & ? & ? & ?). repeat split; auto. cbn [length]. lia.
    + pose proof (dict_set_length (leads_left b) k ld) as Hlen.
      apply IH in H; cbn [leads_left leads_center leads_right] in *;
        [|apply (dict_set_Forall left_of_path); assumption | assumption | assumption].
      destruct H as (? & ? & ? & ?). repeat split; auto. cbn [length]. lia.
    + pose proof (dict_set_length (leads_right b) k ld) as Hlen.
      apply IH in H; cbn [leads_left leads_center leads_right] in *;
        [|assumption | assumption | apply (dict_set_Forall right_of_path); assumption].
      destruct H as (? & ? & ? & ?). repeat split; auto. cbn [length]. lia.
Qed.

Lemma mapM_keyed_spec {A} (key : A -> option Q) l : forall keyed,
  mapM (fun a => k ← key a; Some (k, a)) l = Some keyed ->
  snd <$> keyed = l /\ Forall (fun ka => key (snd ka) = Some (fst ka)) keyed.
Proof.
  induction l as [|a l IH]; intros keyed H; cbn in H.
  - inversion H. split; [reflexivity | constructor].
  - apply bind_Some in H as (ka & Ha & H). apply bind_Some in H as (rest & Hr & H).
    apply bind_Some in Ha as (k & Hk & Ha).
    inversion Ha; subst; clear Ha. inversion H; subst; clear H.
    destruct (IH _ Hr) as (<- & Hall). split; [reflexivity|].
    constructor; [exact Hk | exact Hall].
Qed.

Lemma sorted_by_perm {A} (key : A -> option Q) l l' :
  sorted_by key l = Some l' -> l' ≡ₚ l.
Proof.
  unfold sorted_by. intros H. apply bind_Some in H as (keyed & Hk & H).
  inversion H; subst; clear H. apply mapM_keyed_spec in Hk as (<- & _).
  now rewrite sort_keyed_perm.
Qed.

Lemma get_path_adjacent_leads_inv v_ego md lane_width clusters ll lc lr :
  get_path_adjacent_leads v_ego md lane_width clusters = Some (ll, lc, lr) ->
  exists b, ll = snd <$> sort_keyed (leads_left b) /\
            lr = snd <$> sort_keyed (leads_right b) /\
            sorted_by (fun ld => num ld "dRel") (snd <$> leads_center b) = Some lc /\
            Forall (fun kv => left_of_path (snd kv)) (leads_left b) /\
            Forall (fun kv => in_lane (lane_width / 2) (snd kv)) (leads_center b) /\
            Forall (fun kv => right_of_path (snd kv)) (leads_right b) /\
            (length (leads_left b) + length (leads_center b) + length (leads_right b)
             <= length clusters)%nat.
Proof.
  unfold get_path_adjacent_leads. intros H.
  destruct (length clusters =? 0)%nat.
  - inversion H; subst. exists (mkBuckets [] [] []). cbn.
    repeat split; try constructor. lia.
  - apply bind_Some in H as (c_y & _ & H).
    apply bind_Some in H as ([md_x md_y] & _ & H).
    apply bind_Some in H as (b & Hb & H).
    apply bind_Some in H as (lc' & Hlc & H). inversion H; subst; clear H.
    apply classify_all_spec in Hb as (Hl & Hc & Hr & Hn);
      [|constructor|constructor|constructor].
    exists b. cbn in Hn. repeat split; auto.
Qed.

Lemma Forall_snd_perm {V} (P : V -> Prop) (d : list (Q * V)) l :
  Forall (fun kv => P (snd kv)) d -> l ≡ₚ snd <$> d -> Forall P l.
Proof.
  intros Hd Hp. rewrite Hp. apply Forall_fmap. exact Hd.
Qed.

(** X21.  [get_path_adjacent_leads] never reports more leads than there
    are clusters: the three lists together hold at most one lead per
    cluster. *)
Theorem adjacent_leads_count v_ego md lane_width clusters ll lc lr :
  get_path_adjacent_leads v_ego md lane_width clusters = Some (ll, lc, lr) ->
  (length ll + length lc + length lr <= length clusters)%nat.
Proof.
  intros H.
  apply get_path_adjacent_leads_inv in H
    as (b & -> & -> & Hlc & _ & _ & _ & Hn).
  apply sorted_by_perm in Hlc. rewrite Hlc.
  rewrite !length_fmap, !sort_keyed_perm. exact Hn.
Qed.

(** X22.  Every lead of the centre list of [get_path_adjacent_leads] lies
    less than half a lane width from the path and has [vLeadK > -1]; every
    lead of the left list has a negative [dPath] and every lead of the right
    list a non-negative one. *)
Theorem adjacent_leads_sides v_ego md lane_width clusters ll lc lr :
  get_path_adjacent_leads v_ego md lane_width clusters = Some (ll, lc, lr) ->
  Forall left_of_path ll /\ Forall (in_lane (lane_width / 2)) lc /\
  Forall right_of_path lr.
Proof.
  intros H.
  apply get_path_adjacent_leads_inv in H
    as (b & -> & -> & Hlc & Hl & Hc & Hr & _).
  apply sorted_by_perm in Hlc.
  split; [|split].
  - eapply Forall_snd_perm; [exact Hl|]. now rewrite sort_keyed_perm.
  - eapply Forall_snd_perm; [exact Hc | exact Hlc].
  - eapply Forall_snd_perm; [exact Hr|]. now rewrite sort_keyed_perm.
Qed.

Lemma insert_sorted_sorted {A} (a : Q * A) l :
  StronglySorted (fun x y => fst x <= fst y) l ->
  StronglySorted (fun x y => fst x <= fst y) (insert_sorted a l).
Proof.
  induction 1 as [|b l Hs IH Hall]; cbn; [repeat constructor|].
  destruct (Py.ltb (fst b) (fst a)) eqn:E.
  - apply PyFacts.ltb_true in E. constructor; [exact IH|].
    rewrite insert_sorted_perm. constructor; [lra | exact Hall].
  - apply PyFacts.ltb_false in E. constructor; [constructor; assumption|].
    constructor; [exact E|]. eapply Forall_impl; [exact Hall|].
    cbn. intros x Hx. lra.
Qed.

Lemma sort_keyed_sorted {A} (l : list (Q * A)) :
  StronglySorted (fun x y => fst x <= fst y) (sort_keyed l).
Proof.
  induction l as [|a l IH]; cbn; [constructor | now apply insert_sorted_sorted].
Qed.

Lemma dict_set_keyed (d : list (Q * LeadDict)) dp ld :
  Forall keyed_by_dPath d -> dPath_is ld dp ->
  Forall keyed_by_dPath (dict_set Qeq_bool d (Py.abs dp) ld).
Proof.
  intros Hd Hld. induction Hd as [|[k' v'] d Hk Hd IH]; cbn.
  - repeat constructor. exists dp. split; [exact Hld | reflexivity].
  - destruct (Qeq_bool k' (Py.abs dp)) eqn:E; constructor; auto.
    exists dp. split; [exact Hld | now apply Qeq_bool_iff].
Qed.

Lemma classify_keyed md_x md_y c_y half b c b' :
  classify md_x md_y c_y half b c = Some b' ->
  Forall keyed_by_dPath (leads_left b) -> Forall keyed_by_dPath (leads_right b) ->
  Forall keyed_by_dPath (leads_left b') /\ Forall keyed_by_dPath (leads_right b').
Proof.
  unfold classify. intros H Hl Hr.
  apply bind_Some in H as (md_last & _ & H).
  apply bind_Some in H as (use_path & _ & H).
  apply bind_Some in H as ([dPath checkSource] & _ & H).
  apply bind_Some in H as (in_l & _ & H).
  match type of H with
  | context [dict_set Qeq_bool (leads_center b) _ ?ld] => set (l := ld) in *
  end.
  assert (Hdp : dPath_is l dPath).
  { unfold dPath_is, l. rewrite lookup_insert_ne by discriminate.
    apply lookup_insert_eq. }
  destruct in_l; [|destruct (Py.ltb dPath 0)]; inversion H; subst; clear H;
    cbn [leads_left leads_right]; split; auto using dict_set_keyed.
Qed.

Lemma classify_all_keyed md_x md_y c_y half clusters : forall b b',
  classify_all md_x md_y c_y half b clusters = Some b' ->
  Forall keyed_by_dPath (leads_left b) -> Forall keyed_by_dPath (leads_right b) ->
  Forall keyed_by_dPath (leads_left b') /\ Forall keyed_by_dPath (leads_right b').
Proof.
  induction clusters as [|c cs IH]; intros b b' H Hl Hr; cbn [classify_all] in H.
  - inversion H; subst. now split.
  - apply bind_Some in H as (b1 & H1 & H).
    destruct (classify_keyed _ _ _ _ _ _ _ H1 Hl Hr) as (Hl1 & Hr1).
    exact (IH _ _ H Hl1 Hr1).
Qed.

Lemma abs_dPath_is ld dp : dPath_is ld dp -> abs_dPath ld = Some (Py.abs dp).
Proof. unfold dPath_is, abs_dPath, num. now intros ->. Qed.

Lemma ordered_by_dPath (d : list (Q * LeadDict)) :
  Forall keyed_by_dPath d ->
  ordered_by abs_dPath (snd <$> sort_keyed d).
Proof.
  intros Hd.
  assert (Hs : Forall keyed_by_dPath (sort_keyed d)) by (now rewrite sort_keyed_perm).
  pose proof (sort_keyed_sorted d) as Hsorted.
  induction Hsorted as [|[k ld] l Hsl IH Hall].
  - exists []. split; [reflexivity | constructor].
  - apply Forall_cons in Hs as ((dp & Hdp & Hk) & Hs).
    destruct (IH Hs) as (ks & Hm & Hks). cbn [fst snd] in *.
    exists (Py.abs dp :: ks). split.
    + rewrite fmap_cons. cbn [mapM snd]. rewrite (abs_dPath_is _ _ Hdp).
      cbn [mbind option_bind]. rewrite Hm. reflexivity.
    + constructor; [exact Hks|].
      clear IH Hks Hsl. revert ks Hm.
      induction l as [|[k' ld'] l IHl]; intros ks Hm; cbn in Hm.
      * inversion Hm. constructor.
      * apply bind_Some in Hm as (a & Ha & Hm). apply bind_Some in Hm as (ks' & Hks' & Hm).
        inversion Hm; subst; clear Hm.
        apply Forall_cons in Hall as (Hkk & Hall). apply Forall_cons in Hs as (Hs1 & Hs).
        constructor; [|now apply IHl].
        destruct Hs1 as (dp' & Hdp' & Hk'). cbn [fst snd] in *.
        rewrite (abs_dPath_is _ _ Hdp') in Ha.
        inversion Ha; subst. rewrite <- Hk, <- Hk'. exact Hkk.
Qed.

Lemma mapM_fst {A} (key : A -> option Q) (l : list (Q * A)) :
  Forall (fun ka => key (snd ka) = Some (fst ka)) l ->
  mapM key (snd <$> l) = Some (fst <$> l).
Proof.
  induction 1 as [|[k a] l Hk Hl IH]; cbn; [reflexivity|].
  cbn in Hk. rewrite Hk. cbn. fold (@fmap list _ _ _ (@snd Q A) l).
  rewrite IH. reflexivity.
Qed.

Lemma sorted_fst {A} (l : list (Q * A)) :
  StronglySorted (fun x y => fst x <= fst y) l -> StronglySorted Qle (fst <$> l).
Proof.
  induction 1 as [|a l Hs IH Hall]; cbn; constructor; [exact IH|].
  apply Forall_fmap. exact Hall.
Qed.

Lemma sorted_by_ordered (key : LeadDict -> option Q) l l' :
  sorted_by key l = Some l' -> ordered_by key l'.
Proof.
  unfold sorted_by. intros H. apply bind_Some in H as (keyed & Hk & H).
  inversion H; subst; clear H. apply mapM_keyed_spec in Hk as (_ & Hall).
  exists (fst <$> sort_keyed keyed). split.
  - apply mapM_fst. now rewrite sort_keyed_perm.
  - apply sorted_fst, sort_keyed_sorted.
Qed.

(** X23.  The left and the right list of [get_path_adjacent_leads] are in
    order of increasing [abs(dPath)], the centre list in order of
    increasing [dRel]. *)
Theorem adjacent_leads_order v_ego md lane_width clusters ll lc lr :
  get_path_adjacent_leads v_ego md lane_width clusters = Some (ll, lc, lr) ->
  ordered_by abs_dPath ll /\ ordered_by (fun ld => num ld "dRel") lc /\
  ordered_by abs_dPath lr.
Proof.
  unfold get_path_adjacent_leads. intros H.
  destruct (length clusters =? 0)%nat.
  - inversion H; subst.
    repeat split; exists []; (split; [reflexivity | constructor]).
  - apply bind_Some in H as (c_y & _ & H).
    apply bind_Some in H as ([md_x md_y] & _ & H).
    apply bind_Some in H as (b & Hb & H).
    apply bind_Some in H as (lc' & Hlc & H). inversion H; subst; clear H.
    apply classify_all_keyed in Hb as (Hl & Hr); [|constructor|constructor].
    split; [now apply ordered_by_dPath|].
    split; [eapply sorted_by_ordered, Hlc | now apply ordered_by_dPath].
Qed.

(** *** [LongRangeLead.update] *)

Lemma num_dom (lead : LeadDict) k x : num lead k = Some x -> k ∈ dom lead.
Proof.
  unfold num. intros H. apply bind_Some in H as (v & Hv & _).
  now apply elem_of_dom_2 in Hv.
Qed.

Lemma feed_keys (self self1 : LongRangeLead.t FirstOrderFilter) lead :
  LongRangeLead.feed self lead = Some self1 ->
  Forall (fun k => k ∈ dom lead) kinematic_keys.
Proof.
  unfold LongRangeLead.feed. intros H.
  apply bind_Some in H as (d & _ & H). apply bind_Some in H as (alpha & _ & H).
  apply bind_Some in H as (x1 & H1 & H). apply bind_Some in H as (x2 & H2 & H).
  apply bind_Some in H as (x3 & H3 & H). apply bind_Some in H as (x4 & H4 & H).
  apply bind_Some in H as (x5 & H5 & H). apply bind_Some in H as (x6 & H6 & H).
  repeat constructor; eapply num_dom; eassumption.
Qed.

Lemma overwrite_other (self : LongRangeLead.t FirstOrderFilter) (lead : LeadDict) k :
  k ∉ kinematic_keys -> LongRangeLead.overwrite self lead !! k = lead !! k.
Proof.
  intros Hk. unfold LongRangeLead.overwrite.
  rewrite !lookup_insert_ne; [reflexivity|..];
    intros <-; apply Hk; unfold kinematic_keys; set_solver.
Qed.

Lemma overwrite_kinematic (self : LongRangeLead.t FirstOrderFilter) (lead : LeadDict) :
  (fun k => LongRangeLead.overwrite self lead !! k) <$> kinematic_keys
  = (fun f => Some (VNum (filter_x f))) <$> filters self.
Proof.
  unfold kinematic_keys, filters, LongRangeLead.overwrite. cbn [fmap list_fmap].
  repeat f_equal; (rewrite ?lookup_insert_ne by discriminate); apply lookup_insert_eq.
Qed.

Lemma overwrite_dom (self : LongRangeLead.t FirstOrderFilter) (lead : LeadDict) :
  Forall (fun k => k ∈ dom lead) kinematic_keys ->
  dom (LongRangeLead.overwrite self lead) = dom lead.
Proof.
  unfold kinematic_keys. rewrite !Forall_cons. intros (? & ? & ? & ? & ? & ? & _).
  unfold LongRangeLead.overwrite. rewrite !dom_insert_L. set_solver.
Qed.

(** X24.  When [LongRangeLead.update] returns, [lead_last] is the lead it
    returns; the returned lead has the keys of the given one and agrees
    with it outside the six kinematic keys.  For a lead with a false
    [status] the lead is returned as it is and all six filters are marked
    uninitialised.  For a lead with a true [status] that is not a
    ['modelLead'], the six kinematic entries are the outputs of the six
    filters after the call. *)
Theorem long_range_update_frame (self : LongRangeLead.t FirstOrderFilter) (lead : LeadDict)
        self' out :
  LongRangeLead.update self lead = Some (self', out) ->
  LongRangeLead.lead_last self' = Some out /\
  dom out = dom lead /\
  (forall k, k ∉ kinematic_keys -> out !! k = lead !! k) /\
  exists st,
    lead !! "status"%string = Some st /\
    (truthy st = false ->
     out = lead /\ filters self' = (fun f => set_initialized f false) <$> filters self) /\
    (truthy st = true ->
     forall cs, lead !! "checkSource"%string = Some cs -> is_str cs "modelLead" = false ->
                (fun k => out !! k) <$> kinematic_keys
                = (fun f => Some (VNum (filter_x f))) <$> filters self').
Proof.
  unfold LongRangeLead.update. intros H.
  apply bind_Some in H as (st & Hst & H).
  apply bind_Some in H as (self1 & H1 & H).
  apply bind_Some in H as (w & Hw & H).
  inversion H; subst; clear H.
  split; [reflexivity|].
  destruct (truthy st) eqn:Et; cbn [negb Py.andM] in *.
  - apply bind_Some in H1 as (r & _ & H1). apply feed_keys in H1.
    apply bind_Some in Hw as (cs & Hcs & Hw). inversion Hw; subst; clear Hw.
    split; [destruct (negb _); [now apply overwrite_dom | reflexivity]|].
    split; [intros k Hk; destruct (negb _); [now apply overwrite_other | reflexivity]|].
    exists st. split; [exact Hst|]. split; [congruence|].
    intros _ cs' Hcs' Hm. rewrite Hcs in Hcs'. inversion Hcs'; subst cs'.
    rewrite Hm. cbn [negb]. apply (overwrite_kinematic self1).
  - inversion Hw; subst w; clear Hw. inversion H1; subst self1; clear H1.
    split; [reflexivity|]. split; [reflexivity|].
    exists st. split; [exact Hst|]. split; [|congruence].
    intros _. split; reflexivity.
Qed.

(** *** [RadarD.update]: the tracking step *)

Lemma deque_append_length maxlen d x :
  (length (deque_append maxlen d x) <= maxlen)%nat.
Proof. unfold deque_append. rewrite length_drop, length_app. cbn. lia. Qed.

Lemma deque_append_last maxlen d x :
  (0 < maxlen)%nat -> last (deque_append maxlen d x) = Some x.
Proof.
  intros Hm. unfold deque_append. rewrite length_app. cbn [length].
  rewrite drop_app_le by lia. apply last_snoc.
Qed.

(** X25.  The tracking step of [RadarD.update] keeps the capacity of the
    speed history and the Kalman parameters; [ready] is set once a model
    message has arrived and is never cleared; the history never grows
    beyond its capacity and, having room for one entry, is never left
    empty; and after a car-state update its newest entry is the current
    speed. *)
Theorem radard_invariants cpc (self : RadarD Track) sm points self' clusters :
  update_tracks cpc self sm points = Some (self', clusters) ->
  maxlen self' = maxlen self /\ kalman_params self' = kalman_params self /\
  ready self' = SubMaster.updated_modelV2 sm || ready self /\
  (hist_ok self -> hist_ok self') /\
  ((length (v_ego_hist self) <= maxlen self)%nat ->
   (length (v_ego_hist self') <= maxlen self')%nat) /\
  (if SubMaster.updated_carState sm
   then v_ego self' = SubMaster.carState_vEgo sm /\
        ((0 < maxlen self)%nat -> last (v_ego_hist self') = Some (v_ego self'))
   else v_ego self' = v_ego self /\ v_ego_hist self' = v_ego_hist self).
Proof.
  unfold update_tracks. intros H.
  destruct (SubMaster.updated_carState sm) eqn:Eu;
    apply bind_Some in H as (trs1 & _ & H);
    apply bind_Some in H as (track_pts & _ & H);
    apply bind_Some in H as ([cluster_idxs cl] & _ & H);
    apply bind_Some in H as (trs2 & _ & H);
    inversion H; subst; clear H; cbn;
    (split; [reflexivity|]); (split; [reflexivity|]);
    (split; [now destruct (SubMaster.updated_modelV2 sm)|]).
  - split; [intros (_ & Hm); split; [now apply deque_append_nonempty | exact Hm]|].
    split; [intros _; apply deque_append_length|].
    split; [reflexivity|]. intros Hm. now apply deque_append_last.
  - split; [intros Hh; exact Hh|]. split; [intros Hl; exact Hl|]. split; reflexivity.
Qed.

Lemma remove_missing_nil (trs : gmap Z Track) : remove_missing [] trs = ∅.
Proof.
  unfold remove_missing. apply map_empty. intros i.
  apply map_lookup_filter_None. right. intros x _ Hin. cbn in Hin.
  now apply elem_of_nil in Hin.
Qed.

(** X26.  A reading without points empties the track table and yields no
    cluster, whatever the table held and whatever the clustering primitive
    does. *)
Theorem empty_reading_clears cpc (self : RadarD Track) sm :
  exists self', update_tracks cpc self sm [] = Some (self', []) /\ tracks self' = ∅.
Proof.
  unfold update_tracks.
  destruct (if SubMaster.updated_carState sm then _ else _) as [ve hist].
  change (ar_pts_of []) with (@nil (Z * (Q * Q * Q * bool))).
  rewrite remove_missing_nil. cbn [track_points mbind option_bind].
  assert (Hs : sorted_ids (∅ : gmap Z Track) = []).
  { unfold sorted_ids. rewrite dom_empty_L, elements_empty. reflexivity. }
  rewrite Hs. cbn. eauto.
Qed.

(** *** Clusters partition the tracks *)

Lemma cluster_ids_insert (cl : list (option (list Z))) ci slot iden :
  cl !! ci = Some slot ->
  cluster_ids (<[ci := Some (match slot with None => [iden] | Some c => c ++ [iden] end)]> cl)
  ≡ₚ cluster_ids cl ++ [iden].
Proof.
  intros Hs. pose proof (lookup_lt_Some _ _ _ Hs) as Hlt.
  rewrite insert_take_drop by exact Hlt.
  rewrite <- (take_drop_middle cl ci slot Hs) at 3.
  unfold cluster_ids. rewrite !fmap_app, !fmap_cons, !concat_app, !concat_cons.
  destruct slot as [c|]; cbn [from_option id].
  - rewrite <- !app_assoc. apply Permutation_app_head.
    rewrite (Permutation_app_comm (concat _) [iden]). reflexivity.
  - cbn [app]. rewrite <- app_assoc. apply Permutation_app_head.
    rewrite (Permutation_app_comm (concat _) [iden]). reflexivity.
Qed.

Lemma fill_clusters_ids idens cluster_idxs n : forall idx cl cl',
  fill_clusters idens cluster_idxs idx n cl = Some cl' ->
  cluster_ids cl' ≡ₚ cluster_ids cl ++ take n (drop idx idens).
Proof.
  induction n as [|n IH]; intros idx cl cl' H; cbn [fill_clusters] in H.
  - inversion H; subst. now rewrite take_0, app_nil_r.
  - apply bind_Some in H as (ci & _ & H).
    apply bind_Some in H as (slot & Hslot & H).
    apply bind_Some in H as (iden & Hiden & H).
    apply IH in H. rewrite H, (cluster_ids_insert _ _ _ iden Hslot).
    rewrite (drop_S _ _ _ Hiden). cbn [take]. now rewrite <- app_assoc.
Qed.

Lemma make_clusters_ids cpc idens (track_pts : list (list Q)) cluster_idxs clusters :
  length track_pts = length idens ->
  make_clusters cpc idens track_pts = Some (cluster_idxs, clusters) ->
  cluster_ids clusters ≡ₚ idens.
Proof.
  intros Hlen. unfold make_clusters.
  destruct (Nat.ltb_spec 1 (length track_pts)) as [Hgt|Hle].
  - intros H. apply bind_Some in H as (idxs & _ & H).
    apply bind_Some in H as (m & _ & H).
    apply bind_Some in H as (cl & Hcl & H). inversion H; subst; clear H.
    apply fill_clusters_ids in Hcl. rewrite Hcl, Hlen, drop_0, firstn_all.
    unfold cluster_ids. clear. induction (m + 1)%nat; [reflexivity|]. exact IHn.
  - destruct (Nat.eqb_spec (length track_pts) 1) as [E|E].
    + intros H. apply bind_Some in H as (iden & Hi & H). inversion H; subst; clear H.
      destruct idens as [|i [|j idens]]; cbn in *; try lia.
      inversion Hi; subst. reflexivity.
    + intros H. inversion H; subst; clear H.
      destruct idens; [reflexivity|]. cbn in Hlen. lia.
Qed.

(** X27.  When the tracking and clustering steps of [RadarD.update]
    return, the clusters partition the track table: every track id of the
    table is held by exactly one cluster, and the clusters hold nothing
    else. *)
Theorem clusters_partition_tracks cpc (self : RadarD Track) sm points self' clusters :
  update_tracks cpc self sm points = Some (self', clusters) ->
  cluster_ids clusters ≡ₚ elements (dom (tracks self')).
Proof.
  unfold update_tracks. intros H.
  destruct (if SubMaster.updated_carState sm then _ else _) as [ve hist].
  apply bind_Some in H as (trs1 & _ & H).
  apply bind_Some in H as (track_pts & Hpts & H).
  apply bind_Some in H as ([cluster_idxs cl] & Hcl & H).
  apply bind_Some in H as (trs2 & H2 & H).
  inversion H; subst; clear H. cbn [tracks].
  apply reset_new_tracks_dom in H2. rewrite H2.
  apply length_mapM in Hpts.
  apply make_clusters_ids in Hcl; [|now symmetry].
  rewrite Hcl. unfold sorted_ids. apply merge_sort_Permutation.
Qed.

End WithHelpers.
End RadardMore.

(** ** Lead selection on concrete inputs *)

Module RadardMoreExamples.
Import NumpyFast Radard RadardLeads RadardSpec RadardInputs RadardScenes RadardFacts
       RadardMore.

Lemma kalman_params_range_witness :
  exists kp, KalmanParams_init 0.05 = Some kp /\
             A kp = [[1; 0.05]; [0; 1]] /\ C kp = [1; 0] /\
             exists k0 k1, K kp = [[k0]; [k1]] /\
                           0.12288 <= k0 <= 0.26491 /\ 0.27617 <= k1 <= 0.29666.
Proof.
  destruct (kalman_params_range 0.05) as (Hiff & Hkp).
  destruct (proj2 Hiff) as [kp E]; [split; vm_compute; reflexivity|].
  exists kp. split; [exact E | exact (Hkp kp E)].
Defined.

(** Outside the range the constructor raises. *)
Example kalman_params_slow_radar : KalmanParams_init 0.1 = None.
Proof. vm_compute. reflexivity. Qed.

Lemma vision_match_gates_witness :
  exists x0 v0,
    LeadMsg.x lead_zero_std !! 0%nat = Some x0 /\
    LeadMsg.v lead_zero_std !! 0%nat = Some v0 /\
    matching_car ∈ [matching_car; far_car] /\
    Py.abs (dRel matching_car - (x0 - RADAR_TO_CAMERA))
    < Py.max ((x0 - RADAR_TO_CAMERA) * 0.25) 5.0.
Proof.
  destruct (vision_match_gates 30 lead_zero_std [matching_car; far_car] matching_car)
    as (x0 & v0 & Hx & Hv & Hin & _ & Hd & _); [vm_compute; reflexivity|].
  exists x0, v0. repeat split; assumption.
Defined.

Lemma model_path_match_witness :
  exists m, Some long_model = Some m /\
            length (XY.x (ModelV2.position m)) = TRAJECTORY_SIZE /\
            distant_car ∈ [near_car; distant_car] /\
            on_path (XY.x (ModelV2.position m)) (XY.y (ModelV2.position m)) distant_car /\
            8 < 30 + vRel distant_car.
Proof.
  apply (proj2 (model_path_match 30 (Some long_model) [near_car; distant_car])).
  vm_compute. reflexivity.
Defined.


Lemma vision_lead_first_witness :
  get_lead 30 true [distant_car] (Some lead_zero_std) true None 0
  = get_lead 30 true [distant_car] (Some lead_zero_std) true (Some long_model) 3.7.
Proof.
  apply (vision_lead_first 30 [distant_car] (Some lead_zero_std) lead_zero_std).
  vm_compute. reflexivity.
Defined.

(** Without a vision lead the distant car is found along the model path. *)
Lemma lead_provenance_witness :
  exists ld,
    get_lead 30 true [near_car; distant_car] None false (Some long_model) 3.7 = Some ld /\
    (ld = default_lead \/
     (exists l, None = Some l /\ ld = get_RadarState_from_vision l 30) \/
     built_from [near_car; distant_car] ld).
Proof.
  pose proof (lead_provenance 30 true [near_car; distant_car] None false
                              (Some long_model) 3.7) as H.
  assert (Hs : bool_decide (is_Some (get_lead 30 true [near_car; distant_car] None false
                                              (Some long_model) 3.7)) = true)
    by (vm_compute; reflexivity).
  destruct (get_lead 30 true [near_car; distant_car] None false (Some long_model) 3.7)
    as [ld|]; [|discriminate Hs].
  exists ld. split; [reflexivity|]. exact (H ld eq_refl).
Defined.

Lemma lead_without_clusters_witness :
  get_lead 30 true [] (Some lead_zero_std) true (Some long_model) 3.7
  = Some (match (if true then confident (Some lead_zero_std) else None) with
          | Some l => get_RadarState_from_vision l 30
          | None => default_lead
          end).
Proof.
  assert (Hts : (0 < TRAJECTORY_SIZE)%nat) by (vm_compute; lia).
  exact (lead_without_clusters 30 true (Some lead_zero_std) true (Some long_model) 3.7
                               Hts).
Defined.

(** A car ahead, two cars to the left and one to the right of a straight
    path, in a lane 2 m wide: the call returns. *)
Lemma four_cars_return :
  bool_decide (is_Some (get_path_adjacent_leads 30 (Some straight_path) 2
                          [near_car; right_car; matching_car; far_car])) = true.
Proof. vm_compute. reflexivity. Qed.

Lemma adjacent_leads_count_witness :
  exists ll lc lr,
    get_path_adjacent_leads 30 (Some straight_path) 2
                            [near_car; right_car; matching_car; far_car]
    = Some (ll, lc, lr) /\
    (length ll + length lc + length lr <= 4)%nat.
Proof.
  pose proof (adjacent_leads_count 30 (Some straight_path) 2
                [near_car; right_car; matching_car; far_car]) as H.
  pose proof four_cars_return as Hs.
  destruct (get_path_adjacent_leads 30 (Some straight_path) 2
                                    [near_car; right_car; matching_car; far_car])
    as [[[ll lc] lr]|]; [|discriminate Hs].
  exists ll, lc, lr. split; [reflexivity|]. exact (H ll lc lr eq_refl).
Defined.

Lemma adjacent_leads_sides_witness :
  exists ll lc lr,
    get_path_adjacent_leads 30 (Some straight_path) 2
                            [near_car; right_car; matching_car; far_car]
    = Some (ll, lc, lr) /\
    Forall left_of_path ll /\ Forall (in_lane (2 / 2)) lc /\ Forall right_of_path lr.
Proof.
  pose proof (adjacent_leads_sides 30 (Some straight_path) 2
                [near_car; right_car; matching_car; far_car]) as H.
  pose proof four_cars_return as Hs.
  destruct (get_path_adjacent_leads 30 (Some straight_path) 2
                                    [near_car; right_car; matching_car; far_car])
    as [[[ll lc] lr]|]; [|discriminate Hs].
  exists ll, lc, lr. split; [reflexivity|]. exact (H ll lc lr eq_refl).
Defined.

Lemma adjacent_leads_order_witness :
  exists ll lc lr,
    get_path_adjacent_leads 30 (Some straight_path) 2
                            [near_car; right_car; matching_car; far_car]
    = Some (ll, lc, lr) /\
    ordered_by abs_dPath ll /\ ordered_by (fun ld => num ld "dRel") lc /\
    ordered_by abs_dPath lr.
Proof.
  pose proof (adjacent_leads_order 30 (Some straight_path) 2
                [near_car; right_car; matching_car; far_car]) as H.
  pose proof four_cars_return as Hs.
  destruct (get_path_adjacent_leads 30 (Some straight_path) 2
                                    [near_car; right_car; matching_car; far_car])
    as [[[ll lc] lr]|]; [|discriminate Hs].
  exists ll, lc, lr. split; [reflexivity|]. exact (H ll lc lr eq_refl).
Defined.

(** The four cars above: the nearer left car is lost (see C6), the others
    are reported on their side. *)
Example adjacent_leads_four_cars :
  adjacent_view (get_path_adjacent_leads 30 (Some straight_path) 2
                                         [near_car; right_car; matching_car; far_car])
  = Some ([(Some 20, Some (-3.00))], [(Some 38, Some 0.00)], [(Some 15, Some 3.00)]).
Proof. vm_compute. reflexivity. Qed.

Lemma long_range_update_frame_witness :
  exists self' out,
    LongRangeLead.update used_filter path_lead = Some (self', out) /\
    LongRangeLead.lead_last self' = Some out /\ dom out = dom path_lead /\
    out !! "yRel"%string = path_lead !! "yRel"%string.
Proof.
  pose proof (long_range_update_frame used_filter path_lead) as H.
  assert (Hs : bool_decide (is_Some (LongRangeLead.update used_filter path_lead)) = true)
    by (vm_compute; reflexivity).
  destruct (LongRangeLead.update used_filter path_lead) as [[self' out]|];
    [|discriminate Hs].
  exists self', out. split; [reflexivity|].
  destruct (H self' out eq_refl) as (Hl & Hd & Hk & _).
  split; [exact Hl|]. split; [exact Hd|].
  apply Hk. unfold kinematic_keys. intros Hin. vm_compute in Hin.
  repeat (apply elem_of_cons in Hin as [Hin|Hin]; [discriminate Hin|]).
  now apply elem_of_nil in Hin.
Defined.

(** A reading with tracks 3 and 7: the tracking step returns. *)
Lemma two_tracks_return :
  bool_decide (is_Some (update_tracks each_alone radar0 sm0 [point3; point7])) = true.
Proof. vm_compute. reflexivity. Qed.

Lemma radard_invariants_witness :
  exists self' clusters,
    update_tracks each_alone radar0 sm0 [point3; point7] = Some (self', clusters) /\
    maxlen self' = maxlen radar0 /\ ready self' = true /\
    (length (v_ego_hist self') <= maxlen self')%nat /\
    last (v_ego_hist self') = Some (v_ego self').
Proof.
  pose proof (radard_invariants each_alone radar0 sm0 [point3; point7]) as H.
  pose proof two_tracks_return as Hs.
  destruct (update_tracks each_alone radar0 sm0 [point3; point7])
    as [[self' clusters]|]; [|discriminate Hs].
  exists self', clusters. split; [reflexivity|].
  destruct (H self' clusters eq_refl) as (Hm & _ & Hr & _ & Hl & Hv).
  split; [exact Hm|]. split; [exact Hr|].
  split; [apply Hl; vm_compute; lia|].
  apply Hv. vm_compute. lia.
Defined.

Lemma clusters_partition_tracks_witness :
  exists self' clusters,
    update_tracks each_alone radar0 sm0 [point3; point7] = Some (self', clusters) /\
    cluster_ids clusters ≡ₚ elements (dom (tracks self')).
Proof.
  pose proof (clusters_partition_tracks each_alone radar0 sm0 [point3; point7]) as H.
  pose proof two_tracks_return as Hs.
  destruct (update_tracks each_alone radar0 sm0 [point3; point7])
    as [[self' clusters]|]; [|discriminate Hs].
  exists self', clusters. split; [reflexivity|]. exact (H self' clusters eq_refl).
Defined.

(** Two tracks, each left alone by the primitive, give two clusters. *)
Example two_tracks_two_clusters :
  clusters_view (update_tracks each_alone radar0 sm0 [point3; point7])
  = Some [Some [3%Z]; Some [7%Z]].
Proof. vm_compute. reflexivity. Qed.

End RadardMoreExamples.
